(** * tt.py: a thread tracker for an imageboard

    A shallow embedding of [src/tt.py] and the properties of its registry,
    its URL parser, its title rule, its poll loop and its command line.

    Conventions of the embedding.
    - A Python [str] is a [string]: a sequence of 8-bit code points. In
      that range the class [\d] of Python's [re] is exactly [0-9];
      strings with other characters are outside the embedding.
    - A Python [int] is a [Z]. A timestamp ([time.time()], a float of
      POSIX seconds) is a [Z] too, in whole seconds: the program
      subtracts a constant from timestamps, compares them, and turns
      them into local dates and times for the listing.
    - A Python [dict] whose order matters (the [threads] mapping is
      iterated in insertion order) is an association list.
    - The file system, the network, the clock, the terminal and the
      notification daemon form the environment: replies are read from
      an [env] by call number, effects are recorded in a [world].
    - The registry file and the replies of the remote API are typed as
      the program reads them: the file holds a registry document when
      it parses, and in a JSON object of the API [posts] is a list of
      objects whose [no] is a number and whose [sub] and [com] are
      strings. The terminal answers the prompt with a line. *)

From Stdlib Require Import String Ascii List ZArith Lia Bool Arith.
From Stdlib Require Import DecimalString Sorting.Sorted Sorting.Permutation.
Import ListNotations.

Local Open Scope string_scope.
Local Open Scope list_scope.
Local Open Scope Z_scope.

(* ================================================================= *)
(** ** Python strings *)

Module Str.

(** [s[:n]] *)
Fixpoint take (n : nat) (s : string) : string :=
  match n, s with
  | S k, String c s' => String c (take k s')
  | _, _ => EmptyString
  end.

(** [s[n:]] *)
Fixpoint drop (n : nat) (s : string) : string :=
  match n, s with
  | S k, String _ s' => drop k s'
  | _, _ => s
  end.

(** [bool(s)]: a string is true when it is not empty. *)
Definition truthy (s : string) : bool :=
  match s with EmptyString => false | String _ _ => true end.

(** [str(n)] for an [int]. *)
Definition of_Z (n : Z) : string := NilZero.string_of_int (Z.to_int n).

(** Every character of [s] satisfies [p]. *)
Fixpoint all (p : ascii -> bool) (s : string) : bool :=
  match s with
  | EmptyString => true
  | String c s' => p c && all p s'
  end.

(** The first character of [s] (if any) satisfies [p]. *)
Definition starts_with (p : ascii -> bool) (s : string) : bool :=
  match s with
  | EmptyString => false
  | String c _ => p c
  end.

(** [c.lower()] on an 8-bit code point: [A-Z] and the capital letters
    of Latin-1 move 32 places up. *)
Definition lower_char (c : ascii) : ascii :=
  let n := nat_of_ascii c in
  if ((65 <=? n) && (n <=? 90)
      || (192 <=? n) && (n <=? 222) && negb (n =? 215))%nat
  then ascii_of_nat (n + 32)
  else c.

(** [s.lower()] *)
Fixpoint lower (s : string) : string :=
  match s with
  | EmptyString => EmptyString
  | String c s' => String (lower_char c) (lower s')
  end.

(** [c.isspace()] on an 8-bit code point. *)
Definition is_space (c : ascii) : bool :=
  let n := nat_of_ascii c in
  ((9 <=? n) && (n <=? 13) || (28 <=? n) && (n <=? 32)
   || (n =? 133) || (n =? 160))%nat.

(** [s.lstrip()] *)
Fixpoint lstrip (s : string) : string :=
  match s with
  | String c s' => if is_space c then lstrip s' else s
  | EmptyString => EmptyString
  end.

(** [s.rstrip()] *)
Fixpoint rstrip (s : string) : string :=
  match s with
  | String c s' =>
      match rstrip s' with
      | EmptyString => if is_space c then EmptyString else String c EmptyString
      | r => String c r
      end
  | EmptyString => EmptyString
  end.

(** [s.strip()] *)
Definition strip (s : string) : string := rstrip (lstrip s).

End Str.

(* ================================================================= *)
(** ** The fragment of [re] the program uses

    Both patterns of the program are sequences of literal characters
    and greedy [+] repetitions of a character class, some of them
    captured:
    [https://boards\.4chan\.org/([^/]+)/thread/(\d+)] and [<[^>]+>]. *)

Module Re.

Inductive atom : Type :=
| Lit (c : ascii)                                (* [c], also [\.] *)
| Plus (captured : bool) (cls : ascii -> bool).  (* [cls+] or [(cls+)] *)

Definition pattern := list atom.

(** A literal string as a pattern. *)
Fixpoint lits (s : string) : pattern :=
  match s with
  | EmptyString => []
  | String c s' => Lit c :: lits s'
  end.

(** [\d] on an 8-bit code point: of the decimal digits of Unicode,
    which the class holds, those below 256 are [0-9]. *)
Definition digit (c : ascii) : bool :=
  let n := nat_of_ascii c in (48 <=? n)%nat && (n <=? 57)%nat.

(** [[^x]] *)
Definition other_than (x : ascii) (c : ascii) : bool := negb (Ascii.eqb x c).

(** The length of the longest prefix of [s] inside the class. *)
Fixpoint run_length (cls : ascii -> bool) (s : string) : nat :=
  match s with
  | String c s' => if cls c then S (run_length cls s') else O
  | EmptyString => O
  end.

(** A greedy repetition tries the longest run first and gives
    characters back one at a time, down to one. *)
Fixpoint backtrack {A : Type} (k : nat) (attempt : nat -> option A) : option A :=
  match k with
  | O => None
  | S k' =>
      match attempt k with
      | Some r => Some r
      | None => backtrack k' attempt
      end
  end.

(** [re.match(p, s)]: the pattern is matched at the start of [s] and
    need not reach its end. The result holds the captured groups and
    the unmatched rest of [s]. *)
Fixpoint re_match (p : pattern) (s : string) : option (list string * string) :=
  match p with
  | [] => Some ([], s)
  | Lit c :: p' =>
      match s with
      | String d s' => if Ascii.eqb c d then re_match p' s' else None
      | EmptyString => None
      end
  | Plus captured cls :: p' =>
      backtrack (run_length cls s)
        (fun k =>
           match re_match p' (Str.drop k s) with
           | Some (groups, rest) =>
               Some (if captured then Str.take k s :: groups else groups, rest)
           | None => None
           end)
  end.

(** [re.sub(p, '', s)] for a pattern that matches no empty string:
    the leftmost match is deleted and the scan resumes after it.
    [skip] counts the characters of the current match still to drop. *)
Fixpoint delete_from (p : pattern) (skip : nat) (s : string) : string :=
  match s with
  | EmptyString => EmptyString
  | String c s' =>
      match skip with
      | S k => delete_from p k s'
      | O =>
          match re_match p s with
          | Some (_, rest) =>
              delete_from p (String.length s - String.length rest - 1) s'
          | None => String c (delete_from p O s')
          end
      end
  end.

Definition sub_delete (p : pattern) (s : string) : string := delete_from p O s.

End Re.

(* ================================================================= *)
(** ** Exceptions and results *)

Inductive exn : Type :=
| ValueError (msg : string)
| HTTPError (code : Z)
| KeyError (key : string)
| IndexError
| KeyboardInterrupt
| SystemExit (code : Z)
| TypeError
| OverflowError
| OSError (errno : Z).

(** A pure computation that may raise. *)
Inductive result (A : Type) : Type :=
| Ok (a : A)
| Raise (e : exn).
Arguments Ok {A} a.
Arguments Raise {A} e.

(* ================================================================= *)
(** ** [parse_thread_url] *)

Definition url_prefix : string := "https://boards.4chan.org/".

Definition thread_url_pattern : Re.pattern :=
  Re.lits url_prefix
    ++ [Re.Plus true (Re.other_than "/")]
    ++ Re.lits "/thread/"
    ++ [Re.Plus true Re.digit].

Definition parse_thread_url (url : string) : result (string * string) :=
  match Re.re_match thread_url_pattern url with
  | Some ([board; thread_id], _) => Ok (board, thread_id)
  | _ => Raise (ValueError ("Invalid 4chan thread URL: " ++ url))
  end.

(* ================================================================= *)
(** ** Thread snapshots and [get_thread_title] *)

(** A post of the remote API: a JSON object read through the keys
    [no], [sub] and [com]; [None] is an absent key. *)
Record post : Type := mkPost {
  post_no : option Z;
  post_sub : option string;
  post_com : option string
}.

(** The decoded reply of the remote API: a JSON object read through
    the key [posts]. [td_other_keys] tells whether the object has
    other keys, which decides its truth value when [posts] is absent. *)
Record thread_data : Type := mkThreadData {
  td_posts : option (list post);
  td_other_keys : bool
}.

(** [bool(thread_data)]: a dict is true when it has a key. *)
Definition td_truthy (td : thread_data) : bool :=
  match td_posts td with
  | Some _ => true
  | None => td_other_keys td
  end.

(** What [json.loads] returns: a JSON object, read as a snapshot, or
    another JSON value (an array, a string, a number, [true], [false],
    [null]), of which the program takes the truth value only. *)
Inductive json_value : Type :=
| JObject (td : thread_data)
| JOther (truthy : bool).

(** [bool(value)] *)
Definition json_truthy (value : json_value) : bool :=
  match value with
  | JObject td => td_truthy td
  | JOther truthy => truthy
  end.

(** The subscript [value['posts']] needs an object: on every other
    JSON value that is true it raises [TypeError]. *)
Definition object_of (value : json_value) : result thread_data :=
  match value with
  | JObject td => Ok td
  | JOther _ => Raise TypeError
  end.

Definition tag_pattern : Re.pattern :=
  [Re.Lit "<"; Re.Plus false (Re.other_than ">"); Re.Lit ">"].

(** [re.sub(r'<[^>]+>', '', s)] *)
Definition strip_tags (s : string) : string := Re.sub_delete tag_pattern s.

(** [s[:n] + "..." if len(s) > n else s] *)
Definition truncate (n : nat) (s : string) : string :=
  if (n <? String.length s)%nat then Str.take n s ++ "..." else s.

(** ['k' in d and d['k']]: the value of a key that is present and true. *)
Definition present_and_true (v : option string) : option string :=
  match v with
  | Some s => if Str.truthy s then Some s else None
  | None => None
  end.

(** [f"Thread {first_post.get('no', 'Unknown')}"] *)
Definition fallback_title (first_post : post) : string :=
  "Thread " ++ match post_no first_post with
               | Some n => Str.of_Z n
               | None => "Unknown"
               end.

(** The branches of [get_thread_title] on the first post. *)
Definition title_of_post (first_post : post) : string :=
  match present_and_true (post_sub first_post) with
  | Some s => s
  | None =>
      match present_and_true (post_com first_post) with
      | Some c => let comment := strip_tags c in truncate 50 comment
      | None => fallback_title first_post
      end
  end.

Definition get_thread_title (td : thread_data) : result string :=
  if negb (td_truthy td) then Ok "Unknown Thread"
  else
    match td_posts td with
    | None => Ok "Unknown Thread"
    | Some [] => Raise IndexError
    | Some (first_post :: _) => Ok (title_of_post first_post)
    end.

(* ================================================================= *)
(** ** The registry *)

(** A dict with string keys, in insertion order. *)
Module Dict.
Section Ops.
Context {V : Type}.

Definition t := list (string * V).

(** [d[k]] ([None] stands for [KeyError]) *)
Fixpoint get (k : string) (d : t) : option V :=
  match d with
  | [] => None
  | (k', v) :: d' => if String.eqb k k' then Some v else get k d'
  end.

(** [k in d] *)
Definition mem (k : string) (d : t) : bool :=
  match get k d with Some _ => true | None => false end.

(** [d[k] = v]: a present key keeps its place, a new key goes last. *)
Fixpoint set (k : string) (v : V) (d : t) : t :=
  match d with
  | [] => [(k, v)]
  | (k', v') :: d' =>
      if String.eqb k k' then (k, v) :: d' else (k', v') :: set k v d'
  end.

(** [del d[k]] *)
Fixpoint del (k : string) (d : t) : t :=
  match d with
  | [] => []
  | (k', v') :: d' => if String.eqb k k' then d' else (k', v') :: del k d'
  end.

Definition keys (d : t) : list string := map fst d.
Definition values (d : t) : list V := map snd d.

(** No key occurs twice, as in every Python dict. *)
Definition wf (d : t) : Prop := NoDup (keys d).
End Ops.
Arguments t V : clear implicits.
End Dict.

(** One tracked thread: an entry of [data["threads"]]. *)
Record thread_info : Type := mkThreadInfo {
  ti_id : Z;
  ti_board : string;
  ti_thread_id : string;
  ti_title : string;
  ti_last_post_no : Z;
  ti_last_update : Z;
  ti_check_interval : Z;
  ti_added_time : Z
}.

(** The document of [thread_tracker.json]. *)
Record registry : Type := mkRegistry {
  threads : Dict.t thread_info;
  next_id : Z
}.

(** [{"threads": {}, "next_id": 1}] *)
Definition empty_registry : registry := mkRegistry [] 1.

(** [f"{board}_{thread_id}"] *)
Definition thread_key (board thread_id : string) : string :=
  board ++ "_" ++ thread_id.

Definition DEFAULT_CHECK_INTERVAL : Z := 120.

(* ================================================================= *)
(** ** The environment *)

(** What [urlopen], [read], [decode] and [json.loads] come to. *)
Inductive net_reply : Type :=
| ReplyJSON (td : thread_data)   (* a decoded JSON object *)
| ReplyHTTPError (code : Z)      (* [urllib.error.HTTPError] *)
| ReplyFailure (why : string)    (* any other [Exception]: [URLError], a timeout, bad JSON *)
| ReplyInterrupt                 (* Ctrl+C during the request *)
| ReplyOtherJSON (truthy : bool). (* a decoded JSON value that is no object *)

(** What [subprocess.run(['notify-send', ...], check=True)] comes to. *)
Inductive notify_reply : Type :=
| NotifySent               (* the command ran and exited with status 0 *)
| NotifyFailed             (* [CalledProcessError], [FileNotFoundError] *)
| NotifyError (e : exn).   (* any other exception: [PermissionError], Ctrl+C *)

(** The replies of the outside world, by call number, and the limits
    of the platform. *)
Record env : Type := mkEnv {
  urlopen : nat -> net_reply;        (* the n-th request *)
  time_time : nat -> Z;              (* the n-th reading of the clock *)
  input : nat -> string;             (* the n-th line typed *)
  notify_send : nat -> notify_reply; (* the n-th run of [notify-send] *)
  sleep_interrupted : nat -> bool;   (* Ctrl+C during the n-th sleep *)
  sleep_max : Z;                     (* the most seconds the C time type holds *)
  fromtimestamp : Z -> result Z      (* the local date and time of a timestamp,
                                        in seconds of the local calendar *)
}.

(** The content of [thread_tracker.json]: no file, a file that
    [load_tracking_data] fails to read in a way it handles, or a
    registry document. *)
Inductive file_state : Type :=
| NoFile
| Unreadable                (* [open] raises [OSError], [json.load] [JSONDecodeError] *)
| Stored (data : registry).

(** The lines the program prints. *)
Inductive message : Type :=
| MsgFetchError (why : string)                 (* Error fetching thread data: ... *)
| MsgNotifyFailed (title content : string)     (* Failed to send notification: ... *)
| MsgAlreadyTracked (board thread_id : string) (* Thread ... is already being tracked *)
| MsgCouldNotFetch (board thread_id : string)  (* Could not fetch thread ... *)
| MsgNowTracking (board thread_id title : string) (tracking_id : Z)
| MsgNoThreads                                 (* No threads currently being tracked *)
| MsgBoard (board : string)                    (* Board: /.../ and the table header *)
| MsgRow (tracking_id : Z) (title time_str : string)
| MsgNoThreadFound (tracking_id : Z)           (* No thread found with ID ... *)
| MsgThread (board thread_id title : string)   (* Thread: ... / Title: ... *)
| MsgCancelled
| MsgStoppedTracking (tracking_id : Z)
| MsgRemovedInactive (count : nat)             (* Removed ... inactive threads *)
| MsgNotTracked (board thread_id : string)
| MsgMonitoring (board thread_id title : string) (check_interval : Z)
| MsgNoLongerExists (board thread_id : string)
| MsgNewPosts (board thread_id : string)
| MsgStoppedMonitoring (board thread_id : string)
| MsgError (e : exn).                          (* Error: ... *)

(** What the program does to the outside world. *)
Inductive event : Type :=
| EvLoad                                   (* [load_tracking_data] *)
| EvSave (data : registry)                 (* [save_tracking_data] *)
| EvFetch (board thread_id : string)       (* [urlopen] *)
| EvTime                                   (* [time.time()], [datetime.now()] *)
| EvInput                                  (* [input] *)
| EvNotify (title content : string)        (* [notify-send] *)
| EvSleep (seconds : Z)                    (* [time.sleep] *)
| EvPrint (m : message).

(** The state of the outside world: the file and the history. *)
Record world : Type := mkWorld {
  file : file_state;
  log : list event
}.

Definition is_fetch (e : event) : bool :=
  match e with EvFetch _ _ => true | _ => false end.
Definition is_time (e : event) : bool :=
  match e with EvTime => true | _ => false end.
Definition is_input (e : event) : bool :=
  match e with EvInput => true | _ => false end.
Definition is_notify (e : event) : bool :=
  match e with EvNotify _ _ => true | _ => false end.
Definition is_sleep (e : event) : bool :=
  match e with EvSleep _ => true | _ => false end.
Definition is_save (e : event) : bool :=
  match e with EvSave _ => true | _ => false end.

(** How many events of a kind have happened so far. *)
Definition calls (kind : event -> bool) (w : world) : nat :=
  List.length (filter kind (log w)).

Definition emit (e : event) (w : world) : world :=
  mkWorld (file w) (log w ++ [e]).

(* ================================================================= *)
(** ** Computations *)

Inductive outcome (A : Type) : Type :=
| Done (a : A)       (* returned *)
| Raised (e : exn)   (* an exception is propagating *)
| Running.           (* the poll loop is still going *)
Arguments Done {A} a.
Arguments Raised {A} e.
Arguments Running {A}.

Definition M (A : Type) : Type := world -> outcome A * world.

Definition ret {A : Type} (a : A) : M A := fun w => (Done a, w).

Definition bind {A B : Type} (m : M A) (k : A -> M B) : M B :=
  fun w =>
    match m w with
    | (Done a, w') => k a w'
    | (Raised e, w') => (Raised e, w')
    | (Running, w') => (Running, w')
    end.

Definition raise {A : Type} (e : exn) : M A := fun w => (Raised e, w).

(** [try: m except <handles>: handler] *)
Definition try_except {A : Type} (m : M A) (handles : exn -> bool)
    (handler : exn -> M A) : M A :=
  fun w =>
    match m w with
    | (Raised e, w') => if handles e then handler e w' else (Raised e, w')
    | r => r
    end.

Definition lift {A : Type} (r : result A) : M A :=
  match r with
  | Ok a => ret a
  | Raise e => raise e
  end.

Declare Scope py_scope.
Delimit Scope py_scope with py.
Notation "x <- m ;; k" := (bind m (fun x => k))
  (at level 61, m at next level, right associativity) : py_scope.
Notation "m ;; k" := (bind m (fun _ => k))
  (at level 61, right associativity) : py_scope.
Local Open Scope py_scope.

Definition print (m : message) : M unit :=
  fun w => (Done tt, emit (EvPrint m) w).

(** [for x in xs: body x] *)
Fixpoint for_each {A : Type} (xs : list A) (body : A -> M unit) : M unit :=
  match xs with
  | [] => ret tt
  | x :: xs' => body x ;; for_each xs' body
  end.

(** A string with a NUL character. *)
Definition has_nul (s : string) : bool := negb (Str.all (Re.other_than "000") s).

(* ================================================================= *)
(** ** The program *)

Section Program.

Variable E : env.

(** [load_tracking_data], on a file of one of the three states of
    [file_state]. A file that holds a registry document is read as it
    is; a file with other content is not part of the states. *)
Definition load_tracking_data : M registry :=
  fun w =>
    (Done match file w with
          | Stored data => data
          | Unreadable => empty_registry
          | NoFile => empty_registry
          end,
     emit EvLoad w).

(** [save_tracking_data] *)
Definition save_tracking_data (data : registry) : M unit :=
  fun w => (Done tt, mkWorld (Stored data) (log w ++ [EvSave data])).

(** [time.time()] *)
Definition now : M Z :=
  fun w => (Done (time_time E (calls is_time w)), emit EvTime w).

(** [time.sleep(seconds)]: the length is first converted to the C
    time type, which fails beyond its range in either direction; a
    negative length is refused next. *)
Definition sleep (seconds : Z) : M unit :=
  fun w =>
    if (seconds <? - sleep_max E) || (sleep_max E <? seconds)
    then (Raised OverflowError, w)
    else if seconds <? 0
    then (Raised (ValueError "sleep length must be non-negative"), w)
    else
      let w' := emit (EvSleep seconds) w in
      if sleep_interrupted E (calls is_sleep w)
      then (Raised KeyboardInterrupt, w')
      else (Done tt, w').

(** [input(prompt)], for a terminal that yields a line: the end of the
    input and a Ctrl+C at the prompt are not part of the environment. *)
Definition read_line : M string :=
  fun w => (Done (input E (calls is_input w)), emit EvInput w).

(** [fetch_thread_data]: [None] is Python's [None]. *)
Definition fetch_thread_data (board thread_id : string) : M (option json_value) :=
  fun w =>
    let w' := emit (EvFetch board thread_id) w in
    match urlopen E (calls is_fetch w) with
    | ReplyJSON td => (Done (Some (JObject td)), w')
    | ReplyOtherJSON truthy => (Done (Some (JOther truthy)), w')
    | ReplyHTTPError code =>
        if code =? 404
        then (Done None, w')  (* Thread doesn't exist or was archived *)
        else (Raised (HTTPError code), w')
    | ReplyFailure why => (Done None, emit (EvPrint (MsgFetchError why)) w')
    | ReplyInterrupt => (Raised KeyboardInterrupt, w')
    end.

(** [not thread_data] fails: the reply is a value that is true. *)
Definition fetched (reply : option json_value) : option json_value :=
  match reply with
  | Some value => if json_truthy value then Some value else None
  | None => None
  end.

(** [post['no']] *)
Definition no_of (p : post) : result Z :=
  match post_no p with
  | Some n => Ok n
  | None => Raise (KeyError "no")
  end.

(** [thread_data['posts']] *)
Definition posts_of (td : thread_data) : result (list post) :=
  match td_posts td with
  | Some ps => Ok ps
  | None => Raise (KeyError "posts")
  end.

(** [thread_data['posts'][-1]['no']] *)
Definition last_post_no_of (td : thread_data) : result Z :=
  match posts_of td with
  | Raise e => Raise e
  | Ok ps =>
      match rev ps with
      | [] => Raise IndexError
      | p :: _ => no_of p
      end
  end.

(** [send_notification]: an argument with a NUL character makes
    [subprocess.run] raise [ValueError] before any command is run. *)
Definition send_notification (board thread_id post_content : string) : M unit :=
  let title := ("/" ++ board ++ "/ - " ++ thread_id)%string in
  let content := truncate 200 (strip_tags post_content) in
  fun w =>
    if has_nul title || has_nul content
    then (Raised (ValueError "embedded null byte"), w)
    else
      let w' := emit (EvNotify title content) w in
      match notify_send E (calls is_notify w) with
      | NotifySent => (Done tt, w')
      | NotifyFailed => (Done tt, emit (EvPrint (MsgNotifyFailed title content)) w')
      | NotifyError e => (Raised e, w')
      end.

(** [add_thread] *)
Definition add_thread (board thread_id : string) (check_interval : Z) : M unit :=
  data <- load_tracking_data ;;
  let thread_key := thread_key board thread_id in
  if Dict.mem thread_key (threads data)
  then print (MsgAlreadyTracked board thread_id)
  else
    reply <- fetch_thread_data board thread_id ;;
    match fetched reply with
    | None => print (MsgCouldNotFetch board thread_id)
    | Some value =>
        td <- lift (object_of value) ;;
        last_post_no <- lift (last_post_no_of td) ;;
        thread_title <- lift (get_thread_title td) ;;
        let tracking_id := next_id data in
        last_update <- now ;;
        added_time <- now ;;
        let info := mkThreadInfo tracking_id board thread_id thread_title
                      last_post_no last_update check_interval added_time in
        let data := mkRegistry (Dict.set thread_key info (threads data))
                      (next_id data + 1) in
        save_tracking_data data ;;
        print (MsgNowTracking board thread_id thread_title tracking_id)
    end.

(** The loop of [remove_thread]: the first entry with the id. *)
Fixpoint find_by_id (tracking_id : Z) (d : Dict.t thread_info)
    : option (string * thread_info) :=
  match d with
  | [] => None
  | (thread_key, thread_info) :: d' =>
      if ti_id thread_info =? tracking_id
      then Some (thread_key, thread_info)
      else find_by_id tracking_id d'
  end.

(** [remove_thread] *)
Definition remove_thread (tracking_id : Z) (force : bool) : M unit :=
  data <- load_tracking_data ;;
  match find_by_id tracking_id (threads data) with
  | None => print (MsgNoThreadFound tracking_id)
  | Some (thread_key_to_remove, thread_to_remove) =>
      let remove : M unit :=
        save_tracking_data
          (mkRegistry (Dict.del thread_key_to_remove (threads data)) (next_id data)) ;;
        print (MsgStoppedTracking tracking_id) in
      if force then remove
      else
        print (MsgThread (ti_board thread_to_remove)
                 (ti_thread_id thread_to_remove) (ti_title thread_to_remove)) ;;
        line <- read_line ;;
        let confirm := Str.strip (Str.lower line) in
        if String.eqb confirm "y" then remove else print MsgCancelled
  end.

(** The first loop of [cleanup_old_threads]. *)
Definition threads_to_remove (cutoff_time : Z) (d : Dict.t thread_info) : list string :=
  map fst (filter (fun kv => ti_last_update (snd kv) <? cutoff_time) d).

(** The second loop of [cleanup_old_threads]. *)
Definition del_all (ks : list string) (d : Dict.t thread_info) : Dict.t thread_info :=
  fold_left (fun d k => Dict.del k d) ks d.

(** [cleanup_old_threads] *)
Definition cleanup_old_threads : M unit :=
  data <- load_tracking_data ;;
  current_time <- now ;;
  let cutoff_time := current_time - 24 * 60 * 60 in
  let threads_to_remove := threads_to_remove cutoff_time (threads data) in
  let data := mkRegistry (del_all threads_to_remove (threads data)) (next_id data) in
  match threads_to_remove with
  | [] => ret tt
  | _ :: _ =>
      save_tracking_data data ;;
      print (MsgRemovedInactive (List.length threads_to_remove))
  end.

(** [boards]: the boards of the registry, in order of first appearance. *)
Fixpoint board_names (infos : list thread_info) (seen : list string) : list string :=
  match infos with
  | [] => []
  | info :: infos' =>
      if existsb (String.eqb (ti_board info)) seen
      then board_names infos' seen
      else ti_board info :: board_names infos' (ti_board info :: seen)
  end.

Fixpoint insert_board (b : string) (bs : list string) : list string :=
  match bs with
  | [] => [b]
  | b' :: bs' => if String.leb b b' then b :: bs else b' :: insert_board b bs'
  end.

(** [sorted(boards.keys())] *)
Definition sorted_boards (bs : list string) : list string :=
  fold_right insert_board [] bs.

Fixpoint insert_recent (x : thread_info) (xs : list thread_info) : list thread_info :=
  match xs with
  | [] => [x]
  | y :: xs' =>
      if ti_last_update x <? ti_last_update y
      then y :: insert_recent x xs'
      else x :: xs
  end.

(** [boards[board].sort(key=lambda x: x["last_update"], reverse=True)]:
    a stable sort, most recent first. *)
Definition sort_recent (xs : list thread_info) : list thread_info :=
  fold_right insert_recent [] xs.

(** [datetime.fromtimestamp(t)]: a timestamp out of the range of the
    platform raises. *)
Definition datetime_fromtimestamp (t : Z) : M Z := lift (fromtimestamp E t).

(** [datetime.now()]: the clock, as a local date and time. *)
Definition datetime_now : M Z :=
  t <- now ;;
  datetime_fromtimestamp t.

(** The age shown by [list_threads]; [days] and [seconds] are the
    fields of the [timedelta] between two local dates and times, in
    whole seconds. *)
Definition time_str (time_diff : Z) : string :=
  let days := time_diff / 86400 in
  let seconds := time_diff mod 86400 in
  if 0 <? days then Str.of_Z days ++ "d ago"
  else if 3600 <? seconds then Str.of_Z (seconds / 3600) ++ "h ago"
  else Str.of_Z (seconds / 60) ++ "m ago".

(** [list_threads] *)
Definition list_threads : M unit :=
  data <- load_tracking_data ;;
  match threads data with
  | [] => print MsgNoThreads
  | _ :: _ =>
      let infos := Dict.values (threads data) in
      for_each (sorted_boards (board_names infos []))
        (fun board =>
           print (MsgBoard board) ;;
           for_each
             (sort_recent (filter (fun x => String.eqb (ti_board x) board) infos))
             (fun thread =>
                last_update <- datetime_fromtimestamp (ti_last_update thread) ;;
                current <- datetime_now ;;
                let time_diff := current - last_update in
                print (MsgRow (ti_id thread) (truncate 20 (ti_title thread))
                         (time_str time_diff))))
  end.

(** [KeyboardInterrupt] *)
Definition is_KeyboardInterrupt (e : exn) : bool :=
  match e with KeyboardInterrupt => true | _ => false end.

(** [ValueError] *)
Definition is_ValueError (e : exn) : bool :=
  match e with ValueError _ => true | _ => false end.

(** One pass of the body of [for post in reversed(thread_data['posts'])]. *)
Definition notify_if_new (board thread_id : string) (last_post_no : Z)
    (p : post) : M unit :=
  no <- lift (no_of p) ;;
  if last_post_no <? no
  then
    let post_content := match post_com p with
                        | Some c => c
                        | None => "No content"
                        end in
    send_notification board thread_id post_content
  else ret tt.

(** The [while True] loop of [monitor_thread], for at most [fuel]
    cycles. [thread_info] and [data["threads"][thread_key]] are one
    object: a write to the former is a write to the latter. *)
Fixpoint monitor_loop (fuel : nat) (board thread_id : string)
    (check_interval : Z) (data : registry) (thread_info : thread_info)
    : M unit :=
  match fuel with
  | O => fun w => (Running, w)
  | S fuel' =>
      let thread_key := thread_key board thread_id in
      reply <- fetch_thread_data board thread_id ;;
      match fetched reply with
      | None =>
          print (MsgNoLongerExists board thread_id) ;;
          save_tracking_data
            (mkRegistry (Dict.del thread_key (threads data)) (next_id data))
      | Some value =>
          td <- lift (object_of value) ;;
          latest_post_no <- lift (last_post_no_of td) ;;
          if ti_last_post_no thread_info <? latest_post_no
          then
            posts <- lift (posts_of td) ;;
            for_each (rev posts)
              (notify_if_new board thread_id (ti_last_post_no thread_info)) ;;
            last_update <- now ;;
            let thread_info :=
              mkThreadInfo (ti_id thread_info) (ti_board thread_info)
                (ti_thread_id thread_info) (ti_title thread_info)
                latest_post_no last_update
                (ti_check_interval thread_info) (ti_added_time thread_info) in
            let data := mkRegistry (Dict.set thread_key thread_info (threads data))
                          (next_id data) in
            save_tracking_data data ;;
            print (MsgNewPosts board thread_id) ;;
            sleep check_interval ;;
            monitor_loop fuel' board thread_id check_interval data thread_info
          else
            sleep check_interval ;;
            monitor_loop fuel' board thread_id check_interval data thread_info
      end
  end.

(** [monitor_thread] *)
Definition monitor_thread (fuel : nat) (board thread_id : string)
    (check_interval : Z) : M unit :=
  data <- load_tracking_data ;;
  match Dict.get (thread_key board thread_id) (threads data) with
  | None => print (MsgNotTracked board thread_id)
  | Some thread_info =>
      print (MsgMonitoring board thread_id (ti_title thread_info) check_interval) ;;
      try_except
        (monitor_loop fuel board thread_id check_interval data thread_info)
        is_KeyboardInterrupt
        (fun _ => print (MsgStoppedMonitoring board thread_id))
  end.

(** The namespace [argparse] returns. One of the first four is given:
    they form a required, mutually exclusive group. *)
Record args : Type := mkArgs {
  arg_url : option string;
  arg_manual : option (string * string);
  arg_list : bool;
  arg_delete : option Z;
  arg_interval : Z;
  arg_force : bool
}.

(** [args.delete] as a condition: an [int] that is given and not 0. *)
Definition nonzero (v : option Z) : option Z :=
  match v with
  | Some n => if n =? 0 then None else Some n
  | None => None
  end.

(** The [if]/[elif] chain of [main]: what runs before the sweep. *)
Definition primary_action (fuel : nat) (a : args) : M unit :=
  if arg_list a then list_threads
  else
    match nonzero (arg_delete a) with
    | Some tracking_id => remove_thread tracking_id (arg_force a)
    | None =>
        match present_and_true (arg_url a) with
        | Some url =>
            try_except
              (bt <- lift (parse_thread_url url) ;;
               let (board, thread_id) := bt : string * string in
               add_thread board thread_id (arg_interval a) ;;
               monitor_thread fuel board thread_id (arg_interval a))
              is_ValueError
              (fun e => print (MsgError e) ;; raise (SystemExit 1))
        | None =>
            match arg_manual a with
            | Some (board, thread_id) =>
                add_thread board thread_id (arg_interval a) ;;
                monitor_thread fuel board thread_id (arg_interval a)
            | None => ret tt
            end
        end
    end.

(** [main], with at most [fuel] cycles of the poll loop: when they do
    not suffice the process is still [Running]. *)
Definition main (fuel : nat) (a : args) : M unit :=
  primary_action fuel a ;;
  (* Clean up old threads *)
  cleanup_old_threads.

End Program.

(* ================================================================= *)
(** ** Vocabulary of the statements *)

(** [s] without its prefix [p], when it starts with [p]. *)
Fixpoint strip_prefix (p s : string) : option string :=
  match p with
  | EmptyString => Some s
  | String c p' =>
      match s with
      | String d s' => if Ascii.eqb c d then strip_prefix p' s' else None
      | EmptyString => None
      end
  end.

(** A board name of a thread URL: one or more characters, none a slash. *)
Definition board_part (b : string) : Prop :=
  b <> "" /\ Str.all (Re.other_than "/") b = true.

(** A thread number of a thread URL: one or more digits. *)
Definition number_part (t : string) : Prop :=
  t <> "" /\ Str.all Re.digit t = true.

(** The canonical form [https://boards.4chan.org/<board>/thread/<numeric-id>]. *)
Definition canonical (url board thread_id : string) : Prop :=
  url = (url_prefix ++ board ++ "/thread/" ++ thread_id)%string
  /\ board_part board /\ number_part thread_id.

(** A canonical URL followed by anything that does not go on with a digit. *)
Definition starts_canonical (url board thread_id : string) : Prop :=
  exists rest,
    url = (url_prefix ++ board ++ "/thread/" ++ thread_id ++ rest)%string
    /\ board_part board /\ number_part thread_id
    /\ Str.starts_with Re.digit rest = false.

(** The registry [load_tracking_data] returns in a world. *)
Definition loaded (w : world) : registry :=
  match file w with
  | Stored data => data
  | Unreadable => empty_registry
  | NoFile => empty_registry
  end.

(** A record last updated before the cutoff. *)
Definition older_than (cutoff_time : Z) (kv : string * thread_info) : bool :=
  ti_last_update (snd kv) <? cutoff_time.

(** The posts of a snapshot carry the numbers [nos], in order. *)
Definition numbered (posts : list post) (nos : list Z) : Prop :=
  map post_no posts = map Some nos.

(** The highest of the numbers of a snapshot. *)
Definition highest (nos : list Z) : option Z :=
  match nos with
  | [] => None
  | n :: ns => Some (fold_left Z.max ns n)
  end.

(** A post above the cursor. *)
Definition is_new (cursor : Z) (p : post) : bool :=
  match post_no p with
  | Some n => cursor <? n
  | None => false
  end.

(** The notification [send_notification] delivers for a post. *)
Definition notification_of (board thread_id : string) (p : post) : event :=
  EvNotify ("/" ++ board ++ "/ - " ++ thread_id)
    (truncate 200 (strip_tags match post_com p with
                               | Some c => c
                               | None => "No content"
                               end)).

(** No argument of the delivery for a post holds a NUL character. *)
Definition deliverable (board thread_id : string) (p : post) : bool :=
  negb (has_nul ("/" ++ board ++ "/ - " ++ thread_id)
        || has_nul (truncate 200 (strip_tags match post_com p with
                                              | Some c => c
                                              | None => "No content"
                                              end))).

(** A run of [notify-send] that ends in a way [send_notification]
    handles: it succeeds, or fails with one of the two exceptions that
    are caught. *)
Definition notify_handled (r : notify_reply) : Prop :=
  r = NotifySent \/ r = NotifyFailed.

(** Events of [send_notification] only: a delivery, or the line printed
    when a delivery fails. *)
Definition notifying (e : event) : Prop :=
  exists title content,
    e = EvNotify title content \/ e = EvPrint (MsgNotifyFailed title content).

(** The operations of the lifecycle manager. *)
Inductive op : Type :=
| Add (board thread_id : string) (check_interval : Z)
| Remove (tracking_id : Z) (force : bool)
| Expire.

Definition run_op (E : env) (o : op) : M unit :=
  match o with
  | Add board thread_id check_interval => add_thread E board thread_id check_interval
  | Remove tracking_id force => remove_thread E tracking_id force
  | Expire => cleanup_old_threads E
  end.

(** A sequence of operations, each one a call of its own: whatever way
    a call ends, the next one starts from the world it left. *)
Fixpoint run_ops (E : env) (os : list op) (w : world) : world :=
  match os with
  | [] => w
  | o :: os' => run_ops E os' (snd (run_op E o w))
  end.

(** The tracking ids of the records of a registry. *)
Definition ids (r : registry) : list Z := map (fun kv => ti_id (snd kv)) (threads r).

(** [next_id] exceeds every id of the registry. *)
Definition ids_below_next (r : registry) : Prop :=
  Forall (fun i => i < next_id r) (ids r).

(** The tracking ids announced by successful [add_thread] calls. *)
Fixpoint assigned (l : list event) : list Z :=
  match l with
  | [] => []
  | EvPrint (MsgNowTracking _ _ _ tracking_id) :: l' => tracking_id :: assigned l'
  | _ :: l' => assigned l'
  end.

(** A computation that adds to the history only events that satisfy
    [P], however it ends. *)
Definition emits_only {A : Type} (P : event -> Prop) (m : M A) : Prop :=
  forall w, exists seg, log (snd (m w)) = log w ++ seg /\ Forall P seg.

(** The lengths of the suspensions of a history, in order. *)
Fixpoint sleep_lengths (l : list event) : list Z :=
  match l with
  | [] => []
  | EvSleep seconds :: l' => seconds :: sleep_lengths l'
  | _ :: l' => sleep_lengths l'
  end.

(** The number of requests of a history. *)
Definition requests (l : list event) : nat := List.length (filter is_fetch l).

(** An event that is no suspension. *)
Definition not_sleep (e : event) : Prop := is_sleep e = false.

(** An event that is neither a request nor a suspension. *)
Definition aside (e : event) : Prop := is_fetch e = false /\ is_sleep e = false.

(** The history of a poll loop in which [k] cycles went on to a next
    one: every such cycle makes one request, never suspends while it
    works, and is followed by one suspension of [seconds] seconds; in
    what follows the last suspension there is at most one request and
    no suspension. *)
Inductive loop_log (seconds : Z) : nat -> list event -> Prop :=
| loop_last work :
    sleep_lengths work = [] -> (requests work <= 1)%nat ->
    loop_log seconds 0 work
| loop_cycle k work rest :
    sleep_lengths work = [] -> requests work = 1%nat ->
    loop_log seconds k rest ->
    loop_log seconds (S k) (work ++ EvSleep seconds :: rest).

(** A computation that ends, by returning or by raising. *)
Definition halts {A : Type} (m : M A) : Prop :=
  forall w, fst (m w) <> Running.

(** A computation that ends and adds to the history only events that
    satisfy [P]. *)
Definition settles {A : Type} (P : event -> Prop) (m : M A) : Prop :=
  halts m /\ emits_only P m.

(** A part of the poll loop that starts in a cycle whose history so
    far, [pre], has [r] requests: with what it adds, the history is
    that of a loop which suspends for [seconds] seconds between
    cycles. At most [cycles] cycles go on to a next one; all of them
    do when the loop is still going in the end. *)
Definition polls_after (r : nat) (seconds : Z) (cycles : nat) (m : M unit) : Prop :=
  forall pre w,
    sleep_lengths pre = [] -> requests pre = r ->
    exists seg k,
      log (snd (m w)) = log w ++ seg
      /\ loop_log seconds k (pre ++ seg)
      /\ (k <= cycles)%nat
      /\ (fst (m w) = Running -> k = cycles).

(** A computation all of whose suspensions last [seconds] seconds;
    there are at most [cycles] of them, and exactly [cycles] when the
    computation is still going in the end. *)
Definition suspends (seconds : Z) (cycles : nat) (m : M unit) : Prop :=
  forall w,
    exists seg k,
      log (snd (m w)) = log w ++ seg
      /\ sleep_lengths seg = repeat seconds k
      /\ (k <= cycles)%nat
      /\ (fst (m w) = Running -> k = cycles).

(** [l'] is [l] without some of its elements. *)
Inductive sublist {A : Type} : list A -> list A -> Prop :=
| sublist_nil : sublist [] []
| sublist_skip x l' l : sublist l' l -> sublist l' (x :: l)
| sublist_keep x l' l : sublist l' l -> sublist (x :: l') (x :: l).

(** Sample data for concrete runs. *)
Module Sample.

(** A snapshot whose posts carry the numbers [nos]. *)
Definition snapshot (nos : list Z) : thread_data :=
  mkThreadData
    (Some (map (fun n => mkPost (Some n) None (Some "<b>hi</b>")) nos)) false.

(** The record of thread 55 of board g, with id 1. *)
Definition record (last_post_no last_update check_interval : Z) : thread_info :=
  mkThreadInfo 1 "g" "55" "hi" last_post_no last_update check_interval last_update.

(** A registry that tracks this thread only. *)
Definition tracking (last_post_no last_update check_interval : Z) : registry :=
  mkRegistry [("g_55", record last_post_no last_update check_interval)] 2.

(** A world with this registry on file and no history. *)
Definition world_of (r : registry) : world := mkWorld (Stored r) [].

(** The calendar of a platform in a time zone without offset: it
    holds the years 1 to 9999. *)
Definition calendar (t : Z) : result Z :=
  if (t <? -62135596800) || (253402300799 <? t)
  then Raise (ValueError "year is out of range")
  else Ok t.

(** An environment with a constant clock where the user answers [y],
    notifications succeed and nothing interrupts; its time type counts
    nanoseconds in 64 bits. *)
Definition env_of (replies : nat -> net_reply) (time : Z) : env :=
  mkEnv replies (fun _ => time) (fun _ => "y") (fun _ => NotifySent)
    (fun _ => false) 9223372036 calendar.

(** The thread is gone from the first request on. *)
Definition gone (n : nat) : net_reply := ReplyHTTPError 404.

(** One snapshot without new posts, then the thread is gone. *)
Definition idle_then_gone (n : nat) : net_reply :=
  match n with
  | O => ReplyJSON (snapshot [10; 11])
  | S _ => ReplyHTTPError 404
  end.

(** The thread has no new post, whenever it is asked for. *)
Definition idle (n : nat) : net_reply := ReplyJSON (snapshot [10; 11]).

(** The network is down. *)
Definition down (n : nat) : net_reply := ReplyFailure "Network is unreachable".

(** Two new posts. *)
Definition two_new (n : nat) : net_reply := ReplyJSON (snapshot [10; 11; 12; 13]).

(** A snapshot whose posts are not in ascending order. *)
Definition unsorted (n : nat) : net_reply := ReplyJSON (snapshot [12; 10]).

(** Another one, whose last post is above the cursor 11. *)
Definition unsorted_new (n : nat) : net_reply := ReplyJSON (snapshot [10; 13; 12]).

(** A snapshot with one post, whose text holds a NUL character. *)
Definition with_nul (n : nat) : net_reply :=
  ReplyJSON (mkThreadData
               (Some [mkPost (Some 12) None (Some (String "000" "!"))]) false).

Definition delete_args (tracking_id : Z) : args :=
  mkArgs None None false (Some tracking_id) DEFAULT_CHECK_INTERVAL false.

Definition url_args (url : string) (interval : Z) : args :=
  mkArgs (Some url) None false None interval false.

Definition manual_args (board thread_id : string) (interval : Z) : args :=
  mkArgs None (Some (board, thread_id)) false None interval false.

Definition list_args : args :=
  mkArgs None None true None DEFAULT_CHECK_INTERVAL false.

End Sample.


(** The match of [thread_url_pattern] read from left to right: the
    board, the thread number and what follows them. *)
Definition scan_thread_url (url : string) : option (string * string * string) :=
  match strip_prefix url_prefix url with
  | None => None
  | Some s1 =>
      match Re.run_length (Re.other_than "/") s1 with
      | O => None
      | S _ as n =>
          match strip_prefix "/thread/" (Str.drop n s1) with
          | None => None
          | Some s2 =>
              match Re.run_length Re.digit s2 with
              | O => None
              | S _ as m => Some (Str.take n s1, Str.take m s2, Str.drop m s2)
              end
          end
      end
  end.



(** A computation that leaves the file as it is, however it ends. *)
Definition keeps_file {A : Type} (m : M A) : Prop :=
  forall w, file (snd (m w)) = file w.

(** An event that is not a save. *)
Definition not_save (e : event) : Prop := is_save e = false.

(** The record [add_thread] builds in world [w] from a snapshot with
    first post [first] and last number [n]. *)
Definition new_record (E : env) (w : world) (board thread_id : string)
    (check_interval : Z) (first : post) (n : Z) : thread_info :=
  mkThreadInfo (next_id (loaded w)) board thread_id (title_of_post first) n
    (time_time E (calls is_time w)) check_interval
    (time_time E (S (calls is_time w))).

(** The registry of [w] with one more record at its end. *)
Definition registry_with (w : world) (key : string) (info : thread_info) : registry :=
  mkRegistry (threads (loaded w) ++ [(key, info)]) (next_id (loaded w) + 1).

(** A reply that [add_thread] and the poll loop take for a thread
    that does not exist: HTTP 404, a failed request, or an empty JSON
    object. *)
Definition unfetchable (r : net_reply) : Prop :=
  r = ReplyHTTPError 404
  \/ (exists why, r = ReplyFailure why)
  \/ (exists td, r = ReplyJSON td /\ td_truthy td = false).

(** The lines [fetch_thread_data] prints for a reply. *)
Definition fetch_lines (r : net_reply) : list event :=
  match r with
  | ReplyFailure why => [EvPrint (MsgFetchError why)]
  | _ => []
  end.

(** Whitespace only. *)
Definition spaces (s : string) : Prop := Str.all Str.is_space s = true.

(** A reply that says the thread is gone: HTTP 404 or an empty JSON
    object. *)
Definition gone_reply (r : net_reply) : Prop :=
  r = ReplyHTTPError 404 \/ (exists td, r = ReplyJSON td /\ td_truthy td = false).

(** [info] is the record [info0] after some poll cycles: the cursor has
    not gone down and the fields set when the thread was added are as
    they were. *)
Definition same_thread (info0 info : thread_info) : Prop :=
  ti_id info = ti_id info0
  /\ ti_board info = ti_board info0
  /\ ti_thread_id info = ti_thread_id info0
  /\ ti_title info = ti_title info0
  /\ ti_check_interval info = ti_check_interval info0
  /\ ti_added_time info = ti_added_time info0
  /\ ti_last_post_no info0 <= ti_last_post_no info.

(** [d] is the registry [data0] after some poll cycles on [key]. *)
Definition monitored_from (data0 : registry) (key : string) (info0 : thread_info)
    (d : registry) : Prop :=
  next_id d = next_id data0
  /\ (forall k, k <> key -> Dict.get k (threads d) = Dict.get k (threads data0))
  /\ (forall info, Dict.get key (threads d) = Some info -> same_thread info0 info).

(** If the event is a save, the saved registry satisfies [P]. *)
Definition saves_only (P : registry -> Prop) (e : event) : Prop :=
  forall d, e = EvSave d -> P d.

(* ================================================================= *)
(** ** Strings and patterns *)

Section StrFacts.

Local Open Scope string_scope.

Lemma append_nil_r s : s ++ "" = s.
Proof. induction s as [|c s IH]; simpl; [reflexivity | now rewrite IH]. Qed.

Lemma append_assoc (a b c : string) : (a ++ b) ++ c = a ++ b ++ c.
Proof. induction a as [|x a IH]; simpl; [reflexivity | now rewrite IH]. Qed.

Lemma length_append (a b : string) :
  String.length (a ++ b) = (String.length a + String.length b)%nat.
Proof. induction a as [|x a IH]; simpl; [reflexivity | now rewrite IH]. Qed.

Lemma take_drop n s : Str.take n s ++ Str.drop n s = s.
Proof.
  revert s; induction n as [|n IH]; intros [|c s]; simpl; try reflexivity.
  now rewrite IH.
Qed.

Lemma length_take n s : (n <= String.length s)%nat -> String.length (Str.take n s) = n.
Proof.
  revert s; induction n as [|n IH]; intros [|c s]; simpl; intros H;
    try reflexivity; try lia.
  rewrite IH; [reflexivity | lia].
Qed.

Lemma take_append (a b : string) : Str.take (String.length a) (a ++ b) = a.
Proof. induction a as [|x a IH]; simpl; [now destruct b | now rewrite IH]. Qed.

Lemma drop_append (a b : string) : Str.drop (String.length a) (a ++ b) = b.
Proof. induction a as [|x a IH]; simpl; [now destruct b | exact IH]. Qed.

Lemma strip_prefix_append p s : strip_prefix p (p ++ s) = Some s.
Proof.
  induction p as [|c p IH]; simpl; [reflexivity |].
  now rewrite Ascii.eqb_refl.
Qed.

Lemma strip_prefix_inv p s s' : strip_prefix p s = Some s' -> s = p ++ s'.
Proof.
  revert s; induction p as [|c p IH]; simpl; intros s H.
  - now inversion H.
  - destruct s as [|d s]; [discriminate |].
    destruct (Ascii.eqb_spec c d) as [->|]; [| discriminate].
    now rewrite (IH _ H).
Qed.

Variable cls : ascii -> bool.

Lemma run_length_le s : (Re.run_length cls s <= String.length s)%nat.
Proof. induction s as [|c s IH]; simpl; [lia | destruct (cls c); lia]. Qed.

Lemma all_take_run s : Str.all cls (Str.take (Re.run_length cls s) s) = true.
Proof.
  induction s as [|c s IH]; simpl; [reflexivity |].
  destruct (cls c) eqn:Hc; simpl; [now rewrite Hc | reflexivity].
Qed.

Lemma stop_drop_run s :
  Str.starts_with cls (Str.drop (Re.run_length cls s) s) = false.
Proof.
  induction s as [|c s IH]; simpl; [reflexivity |].
  destruct (cls c) eqn:Hc; simpl; [exact IH | exact Hc].
Qed.

(** Inside the run every position still starts with the class. *)
Lemma inside_run k s :
  (k < Re.run_length cls s)%nat -> Str.starts_with cls (Str.drop k s) = true.
Proof.
  revert s; induction k as [|k IH]; intros [|c s]; simpl;
    try (intros H; lia); destruct (cls c) eqn:Hc; intros H; try lia; auto.
  apply IH; lia.
Qed.

(** The run is the only way to cut [s] into a part inside the class
    and a rest that leaves it. *)
Lemma run_length_split (b r : string) :
  Str.all cls b = true -> Str.starts_with cls r = false ->
  Re.run_length cls (b ++ r) = String.length b.
Proof.
  intros Hb Hr; induction b as [|c b IH]; simpl in *.
  - destruct r as [|d r]; simpl in *; [reflexivity | now rewrite Hr].
  - apply andb_prop in Hb as [Hc Hb]. rewrite Hc, IH; auto.
Qed.

End StrFacts.

Section ReFacts.

Lemma backtrack_none {A : Type} n (f : nat -> option A) :
  (forall k, (1 <= k <= n)%nat -> f k = None) -> Re.backtrack n f = None.
Proof.
  induction n as [|n IH]; simpl; intros H; [reflexivity |].
  rewrite H by lia. apply IH; intros; apply H; lia.
Qed.

(** When no shorter repetition can be continued, only the longest counts. *)
Lemma backtrack_longest {A : Type} n (f : nat -> option A) :
  (forall k, (1 <= k < n)%nat -> f k = None) ->
  Re.backtrack n f = match n with O => None | S _ => f n end.
Proof.
  destruct n as [|n]; simpl; intros H; [reflexivity |].
  destruct (f (S n)); [reflexivity |].
  apply backtrack_none; intros; apply H; lia.
Qed.

Lemma re_match_lits p q s :
  Re.re_match (Re.lits p ++ q) s =
  match strip_prefix p s with
  | Some s' => Re.re_match q s'
  | None => None
  end.
Proof.
  revert s; induction p as [|c p IH]; intros s; simpl; [reflexivity |].
  destruct s as [|d s]; [reflexivity |].
  destruct (Ascii.eqb c d); [apply IH | reflexivity].
Qed.

(** [[^x]+] before a literal [x] never gives a character back. *)
Lemma re_match_until captured x q s :
  Re.re_match (Re.Plus captured (Re.other_than x) :: Re.Lit x :: q) s =
  match Re.run_length (Re.other_than x) s with
  | O => None
  | S _ as n =>
      match Re.re_match (Re.Lit x :: q) (Str.drop n s) with
      | Some (groups, rest) =>
          Some (if captured then Str.take n s :: groups else groups, rest)
      | None => None
      end
  end.
Proof.
  cbn [Re.re_match]. rewrite backtrack_longest;
    [now destruct (Re.run_length (Re.other_than x) s) |].
  intros k [_ Hk]. apply inside_run in Hk.
  destruct (Str.drop k s) as [|d s']; simpl in Hk; [discriminate |].
  unfold Re.other_than in Hk. destruct (Ascii.eqb x d); [discriminate | reflexivity].
Qed.

(** A final [cls+] takes the whole run. *)
Lemma re_match_last captured cls s :
  Re.re_match [Re.Plus captured cls] s =
  match Re.run_length cls s with
  | O => None
  | S _ as n => Some (if captured then [Str.take n s] else [], Str.drop n s)
  end.
Proof. cbn [Re.re_match]. now destruct (Re.run_length cls s). Qed.

End ReFacts.

(* ================================================================= *)
(** ** [parse_thread_url] *)

Section ParseFacts.

Local Open Scope string_scope.

Lemma parse_thread_url_scan url :
  parse_thread_url url =
  match scan_thread_url url with
  | Some (board, thread_id, _) => Ok (board, thread_id)
  | None => Raise (ValueError ("Invalid 4chan thread URL: " ++ url))
  end.
Proof.
  unfold parse_thread_url, scan_thread_url, thread_url_pattern.
  rewrite re_match_lits.
  destruct (strip_prefix url_prefix url) as [s1|]; [| reflexivity].
  change ([Re.Plus true (Re.other_than "/")] ++ Re.lits "/thread/"
            ++ [Re.Plus true Re.digit])%list
    with (Re.Plus true (Re.other_than "/") :: Re.Lit "/"
            :: (Re.lits "thread/" ++ [Re.Plus true Re.digit])%list).
  rewrite re_match_until.
  destruct (Re.run_length (Re.other_than "/") s1) as [|n]; [reflexivity |].
  change (Re.Lit "/" :: (Re.lits "thread/" ++ [Re.Plus true Re.digit])%list)
    with (Re.lits "/thread/" ++ [Re.Plus true Re.digit])%list.
  cbv zeta. rewrite re_match_lits.
  destruct (strip_prefix "/thread/" (Str.drop (S n) s1)) as [s2|]; [| reflexivity].
  rewrite re_match_last.
  now destruct (Re.run_length Re.digit s2).
Qed.

Lemma nonempty_length (s : string) : s <> "" <-> (0 < String.length s)%nat.
Proof.
  destruct s; simpl; split; intros H; try lia; try congruence.
Qed.

Lemma scan_thread_url_sound url board thread_id rest :
  scan_thread_url url = Some (board, thread_id, rest) ->
  url = url_prefix ++ board ++ "/thread/" ++ thread_id ++ rest
  /\ board_part board /\ number_part thread_id
  /\ Str.starts_with Re.digit rest = false.
Proof.
  unfold scan_thread_url.
  destruct (strip_prefix url_prefix url) as [s1|] eqn:H1; [| discriminate].
  destruct (Re.run_length (Re.other_than "/") s1) as [|n] eqn:Hn; [discriminate |].
  destruct (strip_prefix "/thread/" (Str.drop (S n) s1)) as [s2|] eqn:H2;
    [| discriminate].
  destruct (Re.run_length Re.digit s2) as [|m] eqn:Hm; [discriminate |].
  cbv zeta. remember (S n) as n1 eqn:N1. remember (S m) as m1 eqn:M1.
  intros [= <- <- <-].
  apply strip_prefix_inv in H1, H2.
  pose proof (run_length_le (Re.other_than "/") s1) as L1.
  pose proof (run_length_le Re.digit s2) as L2.
  repeat split.
  - rewrite take_drop, <- H2, take_drop. exact H1.
  - apply nonempty_length. rewrite length_take; lia.
  - rewrite <- Hn. apply all_take_run.
  - apply nonempty_length. rewrite length_take; lia.
  - rewrite <- Hm. apply all_take_run.
  - rewrite <- Hm. apply stop_drop_run.
Qed.

Lemma scan_thread_url_complete board thread_id rest :
  board_part board -> number_part thread_id ->
  Str.starts_with Re.digit rest = false ->
  scan_thread_url (url_prefix ++ board ++ "/thread/" ++ thread_id ++ rest)
  = Some (board, thread_id, rest).
Proof.
  intros [Hb Hb'] [Ht Ht'] Hr. unfold scan_thread_url.
  rewrite strip_prefix_append.
  rewrite (run_length_split _ board) by (auto; reflexivity).
  apply nonempty_length in Hb, Ht.
  destruct (String.length board) as [|n] eqn:Hn; [lia |].
  rewrite <- Hn, drop_append, take_append, strip_prefix_append.
  rewrite (run_length_split _ thread_id) by auto.
  destruct (String.length thread_id) as [|m] eqn:Hm; [lia |].
  now rewrite <- Hm, drop_append, take_append.
Qed.

(** A canonical URL is parsed into its two parts. *)
Lemma parse_thread_url_canonical url board thread_id :
  canonical url board thread_id ->
  parse_thread_url url = Ok (board, thread_id).
Proof.
  intros (-> & Hb & Ht). rewrite parse_thread_url_scan.
  rewrite <- (append_nil_r thread_id) at 1.
  rewrite (scan_thread_url_complete board thread_id "") by auto.
  reflexivity.
Qed.


(** Any other string is refused. *)
Lemma parse_thread_url_refuses url :
  (forall board thread_id, ~ starts_canonical url board thread_id) ->
  parse_thread_url url = Raise (ValueError ("Invalid 4chan thread URL: " ++ url)).
Proof.
  intros H. rewrite parse_thread_url_scan.
  destruct (scan_thread_url url) as [[[b t] r]|] eqn:Hs; [| reflexivity].
  exfalso. apply (H b t). exists r. now apply scan_thread_url_sound.
Qed.

End ParseFacts.




(* ================================================================= *)
(** ** [get_thread_title] *)

Section TitleFacts.

Local Open Scope string_scope.


Lemma present_and_true_some s : s <> "" -> present_and_true (Some s) = Some s.
Proof. destruct s; simpl; [congruence | reflexivity]. Qed.

(** Text without [<] has no tag. *)
Lemma strip_tags_plain s :
  Str.all (Re.other_than "<") s = true -> strip_tags s = s.
Proof.
  unfold strip_tags, Re.sub_delete.
  induction s as [|c s IH]; [reflexivity |].
  cbn [Str.all Re.delete_from]. unfold tag_pattern at 1. cbn [Re.re_match].
  intros H. apply andb_prop in H as [Hc Hs].
  unfold Re.other_than in Hc.
  destruct (Ascii.eqb "<" c); [discriminate |].
  now rewrite IH.
Qed.

Lemma truncate_short n s : (String.length s <= n)%nat -> truncate n s = s.
Proof.
  intros H. unfold truncate.
  destruct (Nat.ltb_spec n (String.length s)); [lia | reflexivity].
Qed.

Lemma truncate_long n s :
  (n < String.length s)%nat -> truncate n s = Str.take n s ++ "...".
Proof.
  intros H. unfold truncate.
  destruct (Nat.ltb_spec n (String.length s)); [reflexivity | lia].
Qed.

End TitleFacts.



(* ================================================================= *)
(** ** Dicts and worlds *)

Section DictFacts.

Context {V : Type}.
Implicit Types (d : Dict.t V) (k : string) (v : V).

Lemma get_set_same k v d : Dict.get k (Dict.set k v d) = Some v.
Proof.
  induction d as [|[k' v'] d IH]; simpl.
  - now rewrite String.eqb_refl.
  - destruct (String.eqb k k') eqn:Hk; simpl; rewrite ?String.eqb_refl, ?Hk; auto.
Qed.

Lemma not_in_get_none k d : ~ In k (Dict.keys d) -> Dict.get k d = None.
Proof.
  induction d as [|[k' v'] d IH]; simpl; [reflexivity |].
  intros H. destruct (String.eqb_spec k k') as [->|]; [tauto |].
  apply IH; tauto.
Qed.

(** A new key goes to the end. *)
Lemma set_new k v d : Dict.get k d = None -> Dict.set k v d = d ++ [(k, v)].
Proof.
  induction d as [|[k' v'] d IH]; simpl; [reflexivity |].
  destruct (String.eqb k k'); [discriminate |].
  intros H. now rewrite IH.
Qed.

(** A deleted key is gone. *)
Lemma get_del_same k d : Dict.wf d -> Dict.get k (Dict.del k d) = None.
Proof.
  unfold Dict.wf. induction d as [|[k' v'] d IH]; simpl; [reflexivity |].
  intros H. inversion H as [|? ? Hk Hd]; subst.
  destruct (String.eqb_spec k k') as [->|Hne].
  - now apply not_in_get_none.
  - simpl. destruct (String.eqb_spec k k'); [contradiction | auto].
Qed.

End DictFacts.

Section SweepFacts.

Variable old : string * thread_info -> bool.

Lemma del_all_cons_other ks k v (d : Dict.t thread_info) :
  ~ In k ks -> del_all ks ((k, v) :: d) = (k, v) :: del_all ks d.
Proof.
  unfold del_all. revert d; induction ks as [|k' ks IH]; intros d H; simpl.
  - reflexivity.
  - destruct (String.eqb_spec k' k) as [->|]; [simpl in H; tauto |].
    apply IH. simpl in H; tauto.
Qed.

(** Deleting the keys of the chosen entries, one by one, leaves the
    entries that were not chosen. *)
Lemma del_all_filter (d : Dict.t thread_info) :
  Dict.wf d ->
  del_all (map fst (filter old d)) d = filter (fun kv => negb (old kv)) d.
Proof.
  unfold Dict.wf, Dict.keys.
  induction d as [|[k v] d IH]; simpl; intros H; [reflexivity |].
  inversion H as [|? ? Hk Hd]; subst.
  destruct (old (k, v)) eqn:Ho; simpl.
  - unfold del_all at 1. simpl. rewrite String.eqb_refl. now apply IH.
  - rewrite del_all_cons_other, IH; auto.
    intros Hin. apply Hk. apply in_map_iff in Hin as ([k' v'] & <- & Hin).
    apply filter_In in Hin as [Hin _]. now apply (in_map fst) in Hin.
Qed.

Lemma filter_none_negb {A : Type} (p : A -> bool) (l : list A) :
  filter p l = [] -> filter (fun x => negb (p x)) l = l.
Proof.
  induction l as [|x l IH]; simpl; [reflexivity |].
  destruct (p x); simpl; [discriminate |]. intros H. now rewrite IH.
Qed.

End SweepFacts.

Section WorldFacts.

Variable E : env.

Lemma calls_emit kind e w :
  calls kind (emit e w) = (calls kind w + if kind e then 1 else 0)%nat.
Proof.
  unfold calls, emit; simpl. rewrite filter_app, length_app; simpl.
  now destruct (kind e).
Qed.

(** The sweep, in one equation: what it leaves on file and what it
    does, from the registry on file and the clock. *)
Lemma cleanup_old_threads_run w :
  Dict.wf (threads (loaded w)) ->
  let data := loaded w in
  let cutoff_time := time_time E (calls is_time w) - 24 * 60 * 60 in
  let kept := mkRegistry
                (filter (fun kv => negb (older_than cutoff_time kv)) (threads data))
                (next_id data) in
  let removed := List.length (filter (older_than cutoff_time) (threads data)) in
  cleanup_old_threads E w =
  (Done tt,
   match removed with
   | O => mkWorld (file w) (log w ++ [EvLoad; EvTime])
   | S _ => mkWorld (Stored kept)
              (log w ++ [EvLoad; EvTime; EvSave kept;
                         EvPrint (MsgRemovedInactive removed)])
   end).
Proof.
  intros Hwf. cbv zeta.
  unfold cleanup_old_threads, bind, load_tracking_data, now.
  cbv beta iota zeta. fold (loaded w).
  rewrite calls_emit. cbn [is_time]. rewrite Nat.add_0_r.
  set (cutoff := time_time E (calls is_time w) - 24 * 60 * 60).
  unfold threads_to_remove.
  change (fun kv : string * thread_info => ti_last_update (snd kv) <? cutoff)
    with (older_than cutoff).
  rewrite (del_all_filter _ _ Hwf), length_map.
  destruct (filter (older_than cutoff) (threads (loaded w))) as [|x l] eqn:Hf;
    unfold ret, save_tracking_data, print, bind, emit; cbn [file log map List.length];
    now rewrite <- !app_assoc.
Qed.

End WorldFacts.

Section RunFacts.

Variable E : env.

Lemma bind_done {A B : Type} (m : M A) (k : A -> M B) w a w' :
  m w = (Done a, w') -> bind m k w = k a w'.
Proof. intros H. unfold bind. now rewrite H. Qed.

Lemma bind_raised {A B : Type} (m : M A) (k : A -> M B) w e w' :
  m w = (Raised e, w') -> bind m k w = (Raised e, w').
Proof. intros H. unfold bind. now rewrite H. Qed.

Lemma load_run w : load_tracking_data w = (Done (loaded w), emit EvLoad w).
Proof. reflexivity. Qed.

(** An [add_thread] for a key of the registry stops after its lookup. *)
Lemma add_thread_present board thread_id check_interval w :
  Dict.mem (thread_key board thread_id) (threads (loaded w)) = true ->
  add_thread E board thread_id check_interval w =
  (Done tt,
   mkWorld (file w) (log w ++ [EvLoad; EvPrint (MsgAlreadyTracked board thread_id)])).
Proof.
  intros H. unfold add_thread.
  rewrite (bind_done _ _ _ _ _ (load_run w)). cbv zeta. rewrite H.
  unfold print, emit; simpl. now rewrite <- app_assoc.
Qed.

End RunFacts.

(** C4. Adding a pair whose key is in the registry changes nothing:
    the call looks the key up, prints that the thread is tracked and
    returns. The file, hence the mapping and [next_id], is as before,
    and the call makes no request and saves nothing. *)
Theorem add_thread_twice_is_noop (E : env) (board thread_id : string)
    (check_interval : Z) (w : world) :
  Dict.mem (thread_key board thread_id) (threads (loaded w)) = true ->
  exists w',
    add_thread E board thread_id check_interval w = (Done tt, w')
    /\ file w' = file w
    /\ threads (loaded w') = threads (loaded w)
    /\ next_id (loaded w') = next_id (loaded w)
    /\ log w' = log w ++ [EvLoad; EvPrint (MsgAlreadyTracked board thread_id)]
    /\ calls is_fetch w' = calls is_fetch w
    /\ calls is_save w' = calls is_save w.
Proof.
  intros H. eexists. split; [apply add_thread_present, H |].
  unfold loaded, calls; cbn [file log].
  rewrite !filter_app; cbn [filter is_fetch is_save]. rewrite !app_nil_r.
  repeat split.
Qed.

Lemma add_thread_twice_is_noop_witness :
  exists w',
    add_thread (Sample.env_of Sample.gone 2000) "g" "55" 120
      (Sample.world_of (Sample.tracking 11 1000 60)) = (Done tt, w')
    /\ file w' = Stored (Sample.tracking 11 1000 60).
Proof.
  destruct (add_thread_twice_is_noop (Sample.env_of Sample.gone 2000) "g" "55" 120
              (Sample.world_of (Sample.tracking 11 1000 60)) eq_refl)
    as (w' & H & Hf & _).
  exists w'. split; [exact H | exact Hf].
Defined.

(** C6. The sweep removes the records whose [last_update] is more than
    24 hours before the current time, and those only: what it leaves is
    the registry without them, every other record as it was and in its
    place, and [next_id] as it was. When a record was removed the
    registry is saved and the number of removed records is printed; when
    none was, the sweep neither saves nor prints. *)
Theorem cleanup_old_threads_spec (E : env) (w : world) :
  Dict.wf (threads (loaded w)) ->
  let data := loaded w in
  let current_time := time_time E (calls is_time w) in
  let old := older_than (current_time - 24 * 60 * 60) in
  let removed := List.length (filter old (threads data)) in
  exists w',
    cleanup_old_threads E w = (Done tt, w')
    /\ threads (loaded w') = filter (fun kv => negb (old kv)) (threads data)
    /\ next_id (loaded w') = next_id data
    /\ (forall k info,
          In (k, info) (threads (loaded w')) <->
          In (k, info) (threads data)
          /\ ~ ti_last_update info < current_time - 86400)
    /\ (removed = O ->
        file w' = file w /\ log w' = log w ++ [EvLoad; EvTime])
    /\ (removed <> O ->
        file w' = Stored (loaded w')
        /\ log w' = log w ++ [EvLoad; EvTime; EvSave (loaded w');
                              EvPrint (MsgRemovedInactive removed)]).
Proof.
  intros Hwf. cbv zeta.
  rewrite (cleanup_old_threads_run E w Hwf). cbv zeta.
  set (old := older_than (time_time E (calls is_time w) - 24 * 60 * 60)).
  eexists. split; [reflexivity |].
  assert (Hkept : forall k info,
             In (k, info) (filter (fun kv => negb (old kv)) (threads (loaded w))) <->
             In (k, info) (threads (loaded w))
             /\ ~ ti_last_update info < time_time E (calls is_time w) - 86400).
  { intros k info. rewrite filter_In. unfold old, older_than; cbn [snd].
    change (24 * 60 * 60) with 86400.
    destruct (Z.ltb_spec (ti_last_update info)
                (time_time E (calls is_time w) - 86400)); cbn [negb];
      intuition (try discriminate; try lia). }
  destruct (filter old (threads (loaded w))) as [|x l] eqn:Hf; cbn [List.length].
  - unfold loaded at 1 2 3; cbn [file log]. fold (loaded w).
    rewrite (filter_none_negb _ _ Hf) in *.
    split; [reflexivity |]. split; [reflexivity |]. split; [exact Hkept |].
    split; [intros _; split; reflexivity | intros H; congruence].
  - unfold loaded at 1 2 3; cbn [file log threads next_id].
    split; [reflexivity |]. split; [reflexivity |]. split; [exact Hkept |].
    split; [intros H; discriminate H | intros _; split; reflexivity].
Qed.

Lemma cleanup_old_threads_spec_witness :
  exists w',
    cleanup_old_threads (Sample.env_of Sample.gone 200000)
      (Sample.world_of (Sample.tracking 11 1000 60)) = (Done tt, w')
    /\ threads (loaded w') = [].
Proof.
  destruct (cleanup_old_threads_spec (Sample.env_of Sample.gone 200000)
              (Sample.world_of (Sample.tracking 11 1000 60)))
    as (w' & H & Ht & _).
  - unfold Dict.wf. vm_compute. repeat constructor. simpl. tauto.
  - exists w'. split; [exact H | exact Ht].
Defined.

(* ================================================================= *)
(** ** [main] *)

Section MainFacts.

Variable E : env.

Lemma bind_ret_l {A B : Type} (a : A) (k : A -> M B) w : bind (ret a) k w = k a w.
Proof. reflexivity. Qed.

(** The sweep always starts by loading the registry and reading the clock. *)
Lemma cleanup_old_threads_log w :
  exists w' rest,
    cleanup_old_threads E w = (Done tt, w')
    /\ log w' = log w ++ EvLoad :: EvTime :: rest.
Proof.
  unfold cleanup_old_threads, bind, load_tracking_data, now. cbv beta iota zeta.
  destruct (threads_to_remove _ _) as [|k ks];
    unfold ret, save_tracking_data, print, bind, emit; cbn [file log].
  - eexists _, []. split; [reflexivity |]. cbn [log]. now rewrite <- app_assoc.
  - eexists _, [_; _]. split; [reflexivity |]. cbn [log].
    now rewrite <- !app_assoc.
Qed.

(** With [--delete 0] no branch of [main] is taken. *)
Lemma primary_action_delete_zero fuel a :
  arg_list a = false -> arg_delete a = Some 0 ->
  arg_url a = None -> arg_manual a = None ->
  primary_action E fuel a = ret tt.
Proof.
  intros Hl Hd Hu Hm. unfold primary_action. now rewrite Hl, Hd, Hu, Hm.
Qed.

(** A URL that cannot be parsed ends the process with status 1. *)
Lemma primary_action_bad_url fuel a url w :
  arg_list a = false -> nonzero (arg_delete a) = None ->
  arg_url a = Some url -> url <> ""%string ->
  (forall board thread_id, ~ starts_canonical url board thread_id) ->
  primary_action E fuel a w =
  (Raised (SystemExit 1),
   emit (EvPrint (MsgError (ValueError ("Invalid 4chan thread URL: " ++ url)))) w).
Proof.
  intros Hl Hd Hu Hne Hbad. unfold primary_action.
  rewrite Hl, Hd, Hu, (present_and_true_some _ Hne).
  unfold try_except, bind at 1. rewrite (parse_thread_url_refuses _ Hbad).
  reflexivity.
Qed.

End MainFacts.

(** C7, as amended. When the primary action returns, [main] goes on
    with the sweep: it ends as the sweep from there ends, and the first
    thing that happens after the action is that the sweep loads the
    registry. When the primary action ends with an exception, [main]
    ends with it where the action stopped, and the sweep is not run;
    while the poll loop is still going, it has not run either. So it is
    for a URL that does not parse: the process prints the error and
    exits with status 1. *)
Theorem main_sweeps_when_action_returns (E : env) (fuel : nat) (a : args) (w : world) :
  (forall w1,
      primary_action E fuel a w = (Done tt, w1) ->
      main E fuel a w = cleanup_old_threads E w1
      /\ exists rest, log (snd (main E fuel a w)) = log w1 ++ EvLoad :: rest)
  /\ (forall e w1,
        primary_action E fuel a w = (Raised e, w1) ->
        main E fuel a w = (Raised e, w1))
  /\ (forall w1,
        primary_action E fuel a w = (Running, w1) ->
        main E fuel a w = (Running, w1))
  /\ (forall url,
        arg_list a = false -> nonzero (arg_delete a) = None ->
        arg_url a = Some url -> url <> ""%string ->
        (forall board thread_id, ~ starts_canonical url board thread_id) ->
        main E fuel a w =
        (Raised (SystemExit 1),
         emit (EvPrint (MsgError (ValueError ("Invalid 4chan thread URL: " ++ url)))) w)).
Proof.
  split; [| split; [| split]].
  - intros w1 H. unfold main. rewrite (bind_done _ _ _ _ _ H).
    split; [reflexivity |].
    destruct (cleanup_old_threads_log E w1) as (w2 & rest & -> & Hlog).
    now exists (EvTime :: rest).
  - intros e w1 H. unfold main. now apply bind_raised.
  - intros w1 H. unfold main, bind. now rewrite H.
  - intros url Hl Hd Hu Hne Hbad. unfold main.
    apply bind_raised. now apply primary_action_bad_url.
Qed.

Lemma main_sweeps_when_action_returns_witness :
  (exists rest,
      log (snd (main (Sample.env_of Sample.gone 2000) 0 Sample.list_args
                  (Sample.world_of (Sample.tracking 11 1000 60))))
      = [EvLoad; EvPrint (MsgBoard "g"); EvTime;
         EvPrint (MsgRow 1 "hi" "16m ago")] ++ EvLoad :: rest)
  /\ main (Sample.env_of Sample.gone 2000) 0 Sample.list_args
       (Sample.world_of (Sample.tracking 11 1000000000000 60))
     = (Raised (ValueError "year is out of range"),
        mkWorld (Stored (Sample.tracking 11 1000000000000 60))
          [EvLoad; EvPrint (MsgBoard "g")])
  /\ main (Sample.env_of Sample.gone 2000) 0 (Sample.url_args "4chan.org/g/55" 120)
       (Sample.world_of (Sample.tracking 11 1000 60))
     = (Raised (SystemExit 1),
        emit (EvPrint (MsgError (ValueError "Invalid 4chan thread URL: 4chan.org/g/55")))
          (Sample.world_of (Sample.tracking 11 1000 60))).
Proof.
  split; [| split].
  - apply (proj1 (main_sweeps_when_action_returns (Sample.env_of Sample.gone 2000) 0
                    Sample.list_args (Sample.world_of (Sample.tracking 11 1000 60)))
             (mkWorld (Stored (Sample.tracking 11 1000 60))
                [EvLoad; EvPrint (MsgBoard "g"); EvTime;
                 EvPrint (MsgRow 1 "hi" "16m ago")])).
    reflexivity.
  - apply (proj1 (proj2 (main_sweeps_when_action_returns
                           (Sample.env_of Sample.gone 2000) 0 Sample.list_args
                           (Sample.world_of (Sample.tracking 11 1000000000000 60))))).
    reflexivity.
  - apply (proj2 (proj2 (proj2 (main_sweeps_when_action_returns
                           (Sample.env_of Sample.gone 2000) 0
                           (Sample.url_args "4chan.org/g/55" 120)
                           (Sample.world_of (Sample.tracking 11 1000 60)))))
             "4chan.org/g/55"%string); try reflexivity; try discriminate.
    intros board thread_id (rest & H & _). discriminate H.
Defined.

(** C7, as stated, fails: with a URL that does not parse, the process
    exits with status 1 after printing the error. It has not loaded the
    registry, and the record that the sweep would have removed from
    this world is still on file. *)
Lemma main_bad_url_exits_without_sweep :
  let E := Sample.env_of Sample.gone 200000 in
  let w := Sample.world_of (Sample.tracking 11 1000 60) in
  main E 0 (Sample.url_args "4chan.org/g/55" 120) w
  = (Raised (SystemExit 1),
     mkWorld (Stored (Sample.tracking 11 1000 60))
       [EvPrint (MsgError (ValueError "Invalid 4chan thread URL: 4chan.org/g/55"))])
  /\ file (snd (cleanup_old_threads E w)) = Stored (mkRegistry [] 2).
Proof. split; reflexivity. Qed.

(** C10, as amended. A delete invocation with id 0 never calls
    [remove_thread]: all it runs is the sweep. It removes no record
    updated within the last 24 hours, and when no record is older it
    leaves the file as it was and saves nothing. *)
Theorem delete_zero_only_sweeps (E : env) (fuel : nat) (a : args) (w : world) :
  arg_list a = false -> arg_delete a = Some 0 ->
  arg_url a = None -> arg_manual a = None ->
  Dict.wf (threads (loaded w)) ->
  let cutoff_time := time_time E (calls is_time w) - 24 * 60 * 60 in
  main E fuel a w = cleanup_old_threads E w
  /\ (forall k info,
        In (k, info) (threads (loaded w)) ->
        ~ ti_last_update info < cutoff_time ->
        In (k, info) (threads (loaded (snd (main E fuel a w)))))
  /\ (filter (older_than cutoff_time) (threads (loaded w)) = [] ->
      main E fuel a w = (Done tt, mkWorld (file w) (log w ++ [EvLoad; EvTime]))).
Proof.
  intros Hl Hd Hu Hm Hwf. cbv zeta.
  assert (Hmain : main E fuel a w = cleanup_old_threads E w).
  { unfold main. now rewrite (primary_action_delete_zero E fuel a Hl Hd Hu Hm). }
  rewrite Hmain, (cleanup_old_threads_run E w Hwf). cbv zeta.
  set (cutoff := time_time E (calls is_time w) - 24 * 60 * 60).
  split; [reflexivity | split].
  - intros k info Hin Hnew. cbn [snd].
    assert (Hkeep : In (k, info)
                      (filter (fun kv => negb (older_than cutoff kv))
                         (threads (loaded w)))).
    { apply filter_In. split; [exact Hin |].
      unfold older_than; cbn [snd].
      destruct (Z.ltb_spec (ti_last_update info) cutoff); [contradiction | reflexivity]. }
    destruct (filter (older_than cutoff) (threads (loaded w))) eqn:Hf;
      cbn [List.length]; unfold loaded at 1; cbn [file threads].
    + exact Hin.
    + exact Hkeep.
  - intros ->. reflexivity.
Qed.

Lemma delete_zero_only_sweeps_witness :
  main (Sample.env_of Sample.gone 2000) 0 (Sample.delete_args 0)
    (Sample.world_of (Sample.tracking 11 1000 60))
  = (Done tt, mkWorld (Stored (Sample.tracking 11 1000 60)) [EvLoad; EvTime]).
Proof.
  apply (proj2 (proj2 (delete_zero_only_sweeps (Sample.env_of Sample.gone 2000) 0
                         (Sample.delete_args 0)
                         (Sample.world_of (Sample.tracking 11 1000 60))
                         eq_refl eq_refl eq_refl eq_refl
                         ltac:(unfold Dict.wf; vm_compute; repeat constructor;
                               simpl; tauto)))).
  reflexivity.
Defined.

(** C10, as stated, fails: a delete invocation with id 0 on a registry
    with a record older than 24 hours removes that record and saves. *)
Lemma delete_zero_removes_old_record :
  main (Sample.env_of Sample.gone 200000) 0 (Sample.delete_args 0)
    (Sample.world_of (Sample.tracking 11 1000 60))
  = (Done tt,
     mkWorld (Stored (mkRegistry [] 2))
       [EvLoad; EvTime; EvSave (mkRegistry [] 2); EvPrint (MsgRemovedInactive 1)]).
Proof. reflexivity. Qed.

(* ================================================================= *)
(** ** The poll loop *)

Section EmitFacts.

Variable E : env.
Variable P : event -> Prop.

Lemma emits_only_ret {A : Type} (a : A) : emits_only P (ret a).
Proof. intros w. exists []. now rewrite app_nil_r. Qed.

Lemma emits_only_raise {A : Type} (e : exn) : emits_only P (@raise A e).
Proof. intros w. exists []. now rewrite app_nil_r. Qed.

Lemma emits_only_lift {A : Type} (r : result A) : emits_only P (lift r).
Proof. destruct r; [apply emits_only_ret | apply emits_only_raise]. Qed.

Lemma emits_only_bind {A B : Type} (m : M A) (k : A -> M B) :
  emits_only P m -> (forall a, emits_only P (k a)) -> emits_only P (bind m k).
Proof.
  intros Hm Hk w. destruct (Hm w) as (seg1 & H1 & F1). unfold bind.
  destruct (m w) as [[a | e |] w1]; cbn [snd] in *; try (now exists seg1).
  destruct (Hk a w1) as (seg2 & H2 & F2).
  exists (seg1 ++ seg2). rewrite H2, H1, app_assoc. split; [reflexivity |].
  apply Forall_app; auto.
Qed.

Lemma emits_only_try {A : Type} (m : M A) handles (handler : exn -> M A) :
  emits_only P m -> (forall e, emits_only P (handler e)) ->
  emits_only P (try_except m handles handler).
Proof.
  intros Hm Hh w. destruct (Hm w) as (seg1 & H1 & F1). unfold try_except.
  destruct (m w) as [[a | e |] w1]; cbn [snd] in *; try (now exists seg1).
  destruct (handles e); [| now exists seg1].
  destruct (Hh e w1) as (seg2 & H2 & F2).
  exists (seg1 ++ seg2). rewrite H2, H1, app_assoc. split; [reflexivity |].
  apply Forall_app; auto.
Qed.

Lemma emits_only_for_each {A : Type} (xs : list A) (body : A -> M unit) :
  (forall x, emits_only P (body x)) -> emits_only P (for_each xs body).
Proof.
  intros H. induction xs as [|x xs IH]; simpl.
  - apply emits_only_ret.
  - apply emits_only_bind; auto.
Qed.

Lemma emits_only_print m : P (EvPrint m) -> emits_only P (print m).
Proof. intros H w. exists [EvPrint m]. split; [reflexivity | auto]. Qed.

Lemma emits_only_load : P EvLoad -> emits_only P load_tracking_data.
Proof. intros H w. exists [EvLoad]. split; [reflexivity | auto]. Qed.

Lemma emits_only_save data : P (EvSave data) -> emits_only P (save_tracking_data data).
Proof. intros H w. exists [EvSave data]. split; [reflexivity | auto]. Qed.

Lemma emits_only_now : P EvTime -> emits_only P (now E).
Proof. intros H w. exists [EvTime]. split; [reflexivity | auto]. Qed.

Lemma emits_only_sleep seconds : P (EvSleep seconds) -> emits_only P (sleep E seconds).
Proof.
  intros H w. unfold sleep.
  destruct (_ || _); [exists []; now rewrite app_nil_r |].
  destruct (seconds <? 0); [exists []; now rewrite app_nil_r |].
  exists [EvSleep seconds].
  destruct (sleep_interrupted E _); (split; [reflexivity | auto]).
Qed.

Lemma emits_only_fetch board thread_id :
  P (EvFetch board thread_id) -> (forall why, P (EvPrint (MsgFetchError why))) ->
  emits_only P (fetch_thread_data E board thread_id).
Proof.
  intros H1 H2 w. unfold fetch_thread_data.
  destruct (urlopen E _) as [td | code | why | | truthy].
  - exists [EvFetch board thread_id]. split; [reflexivity | auto].
  - exists [EvFetch board thread_id].
    destruct (code =? 404); (split; [reflexivity | auto]).
  - exists [EvFetch board thread_id; EvPrint (MsgFetchError why)].
    split; [unfold emit; simpl; now rewrite <- app_assoc | auto].
  - exists [EvFetch board thread_id]. split; [reflexivity | auto].
  - exists [EvFetch board thread_id]. split; [reflexivity | auto].
Qed.

Lemma emits_only_notification board thread_id post_content :
  (forall title content, P (EvNotify title content)) ->
  (forall title content, P (EvPrint (MsgNotifyFailed title content))) ->
  emits_only P (send_notification E board thread_id post_content).
Proof.
  intros H1 H2 w. unfold send_notification. cbv zeta.
  destruct (_ || _); [exists []; now rewrite app_nil_r |].
  destruct (notify_send E _).
  - eexists [_]. split; [reflexivity | auto].
  - eexists [_; _]. split; [unfold emit; simpl; now rewrite <- app_assoc | auto].
  - eexists [_]. split; [reflexivity | auto].
Qed.

End EmitFacts.

Section MonitorFacts.

Variable E : env.

Lemma fetch_json board thread_id w td :
  urlopen E (calls is_fetch w) = ReplyJSON td ->
  fetch_thread_data E board thread_id w
  = (Done (Some (JObject td)), emit (EvFetch board thread_id) w).
Proof. intros H. unfold fetch_thread_data. now rewrite H. Qed.

Lemma fetch_failure board thread_id w why :
  urlopen E (calls is_fetch w) = ReplyFailure why ->
  fetch_thread_data E board thread_id w
  = (Done None,
     mkWorld (file w) (log w ++ [EvFetch board thread_id; EvPrint (MsgFetchError why)])).
Proof.
  intros H. unfold fetch_thread_data. rewrite H. unfold emit; simpl.
  now rewrite <- app_assoc.
Qed.

Lemma fetch_http_error board thread_id w code :
  urlopen E (calls is_fetch w) = ReplyHTTPError code -> code <> 404 ->
  fetch_thread_data E board thread_id w
  = (Raised (HTTPError code), emit (EvFetch board thread_id) w).
Proof.
  intros H Hc. unfold fetch_thread_data. rewrite H.
  destruct (Z.eqb_spec code 404); [contradiction | reflexivity].
Qed.

(** An HTTP error other than 404 ends the cycle and leaves the file. *)
Lemma monitor_loop_http_error fuel board thread_id check_interval data info w code :
  urlopen E (calls is_fetch w) = ReplyHTTPError code -> code <> 404 ->
  monitor_loop E (S fuel) board thread_id check_interval data info w
  = (Raised (HTTPError code), mkWorld (file w) (log w ++ [EvFetch board thread_id])).
Proof.
  intros H Hc. cbn [monitor_loop]. cbv zeta.
  apply bind_raised. now apply fetch_http_error.
Qed.

End MonitorFacts.

(** C1: what the code does where the claim fails. When a request of the
    poll loop fails for a reason that is not an HTTP error (the network
    is down, say), [fetch_thread_data] prints the error and returns
    [None], and the cycle takes it for a thread that is gone: it deletes
    the record, saves the registry and ends the loop. *)
Theorem monitor_loop_network_error_removes_record (E : env) (fuel : nat)
    (board thread_id : string) (check_interval : Z) (data : registry)
    (info : thread_info) (w : world) (why : string) :
  Dict.wf (threads data) ->
  Dict.get (thread_key board thread_id) (threads data) = Some info ->
  urlopen E (calls is_fetch w) = ReplyFailure why ->
  let left := mkRegistry (Dict.del (thread_key board thread_id) (threads data))
                (next_id data) in
  monitor_loop E (S fuel) board thread_id check_interval data info w
  = (Done tt,
     mkWorld (Stored left)
       (log w ++ [EvFetch board thread_id; EvPrint (MsgFetchError why);
                  EvPrint (MsgNoLongerExists board thread_id); EvSave left]))
  /\ Dict.get (thread_key board thread_id) (threads left) = None.
Proof.
  intros Hwf Hget H. cbv zeta. split; [| now apply get_del_same].
  cbn [monitor_loop]. cbv zeta.
  rewrite (bind_done _ _ _ _ _ (fetch_failure E board thread_id w why H)).
  cbn [fetched]. unfold bind, print, save_tracking_data, emit; cbn [file log].
  now rewrite <- !app_assoc.
Qed.

Lemma monitor_loop_network_error_removes_record_witness :
  monitor_loop (Sample.env_of Sample.down 2000) 1 "g" "55" 120
    (Sample.tracking 11 1000 120) (Sample.record 11 1000 120)
    (Sample.world_of (Sample.tracking 11 1000 120))
  = (Done tt,
     mkWorld (Stored (mkRegistry [] 2))
       [EvFetch "g" "55"; EvPrint (MsgFetchError "Network is unreachable");
        EvPrint (MsgNoLongerExists "g" "55"); EvSave (mkRegistry [] 2)]).
Proof.
  exact (proj1 (monitor_loop_network_error_removes_record
                  (Sample.env_of Sample.down 2000)
                  0 "g" "55" 120 (Sample.tracking 11 1000 120)
                  (Sample.record 11 1000 120)
                  (Sample.world_of (Sample.tracking 11 1000 120))
                  "Network is unreachable"
                  ltac:(unfold Dict.wf; vm_compute; repeat constructor; simpl; tauto)
                  eq_refl eq_refl)).
Defined.

(* ================================================================= *)
(** ** Adding a thread *)

Section AddFacts.

Variable E : env.

Lemma assigned_app l1 l2 : assigned (l1 ++ l2) = assigned l1 ++ assigned l2.
Proof.
  induction l1 as [|e l1 IH]; simpl; [reflexivity |].
  destruct e as [| | | | | | |m]; try exact IH.
  destruct m; simpl; try exact IH. now rewrite IH.
Qed.

Lemma mem_false_get k (d : Dict.t thread_info) :
  Dict.mem k d = false -> Dict.get k d = None.
Proof. unfold Dict.mem. now destruct (Dict.get k d). Qed.

(** What a call of [add_thread] leaves: the file as it was and no id
    announced, or one more record at the end of the registry, with the
    id [next_id] had, the interval of the call, and [next_id] one up. *)
Lemma add_thread_cases board thread_id check_interval w :
  exists o w' seg,
    add_thread E board thread_id check_interval w = (o, w')
    /\ log w' = log w ++ seg
    /\ ((file w' = file w /\ assigned seg = [])
        \/ exists info,
            file w' = Stored (mkRegistry
                                (threads (loaded w)
                                   ++ [(thread_key board thread_id, info)])
                                (next_id (loaded w) + 1))
            /\ ti_id info = next_id (loaded w)
            /\ ti_board info = board
            /\ ti_thread_id info = thread_id
            /\ ti_check_interval info = check_interval
            /\ assigned seg = [next_id (loaded w)]).
Proof.
  unfold add_thread.
  rewrite (bind_done _ _ _ _ _ (load_run w)). cbv zeta.
  assert (Hlog : forall (l : list event) e, (log w ++ l) ++ [e] = log w ++ l ++ [e])
    by (intros; now rewrite <- app_assoc).
  destruct (Dict.mem (thread_key board thread_id) (threads (loaded w))) eqn:Hmem.
  { eexists _, _, _. split; [reflexivity |]. split; [apply (Hlog [_]) |].
    left. split; reflexivity. }
  apply mem_false_get in Hmem.
  unfold bind at 1, fetch_thread_data.
  destruct (urlopen E (calls is_fetch (emit EvLoad w))) as [td | code | why | | truthy].
  - cbn [fetched json_truthy]. destruct (td_truthy td).
    + cbn [object_of lift]. rewrite bind_ret_l.
      unfold bind at 1. destruct (last_post_no_of td) as [n | e]; cbn [lift].
      * unfold ret at 1. unfold bind at 1.
        destruct (get_thread_title td) as [title | e]; cbn [lift].
        -- eexists _, _, _. split; [reflexivity |]. unfold emit; cbn [log file].
           split; [rewrite ?Hlog; reflexivity |].
           right. eexists. rewrite (set_new _ _ _ Hmem).
           split; [reflexivity |]. repeat split.
        -- eexists _, _, _. split; [reflexivity |]. unfold emit; cbn [log file].
           split; [rewrite ?Hlog; reflexivity |]. left. split; reflexivity.
      * eexists _, _, _. split; [reflexivity |]. unfold emit; cbn [log file].
        split; [rewrite ?Hlog; reflexivity |]. left. split; reflexivity.
    + eexists _, _, _. split; [reflexivity |]. unfold emit; cbn [log file].
      split; [rewrite ?Hlog; reflexivity |]. left. split; reflexivity.
  - destruct (code =? 404); cbn [fetched];
      (eexists _, _, _; split; [reflexivity |]; unfold emit; cbn [log file];
       split; [rewrite ?Hlog; reflexivity |]; left; split; reflexivity).
  - cbn [fetched]. eexists _, _, _. split; [reflexivity |]. unfold emit; cbn [log file].
    split; [rewrite ?Hlog; reflexivity |]. left. split; reflexivity.
  - eexists _, _, _. split; [reflexivity |]. unfold emit; cbn [log file].
    split; [rewrite ?Hlog; reflexivity |]. left. split; reflexivity.
  - cbn [fetched json_truthy]. destruct truthy; cbn [object_of lift];
      (eexists _, _, _; split; [reflexivity |]; unfold emit; cbn [log file];
       split; [rewrite ?Hlog; reflexivity |]; left; split; reflexivity).
Qed.

End AddFacts.

(* ================================================================= *)
(** ** The suspensions of the poll loop *)

Section SettleFacts.

Variable E : env.
Variable P : event -> Prop.

Lemma settles_ret {A : Type} (a : A) : settles P (ret a).
Proof. split; [intros w; discriminate | apply emits_only_ret]. Qed.

Lemma settles_raise {A : Type} (e : exn) : settles P (@raise A e).
Proof. split; [intros w; discriminate | apply emits_only_raise]. Qed.

Lemma settles_lift {A : Type} (r : result A) : settles P (lift r).
Proof. destruct r; [apply settles_ret | apply settles_raise]. Qed.

Lemma settles_bind {A B : Type} (m : M A) (k : A -> M B) :
  settles P m -> (forall a, settles P (k a)) -> settles P (bind m k).
Proof.
  intros [Hm Em] Hk. split.
  - intros w. specialize (Hm w). unfold bind.
    destruct (m w) as [[a | e |] w1]; cbn [fst] in *;
      [apply (proj1 (Hk a)) | discriminate | congruence].
  - apply emits_only_bind; [exact Em |]. intros a. apply (proj2 (Hk a)).
Qed.

Lemma settles_try {A : Type} (m : M A) handles (handler : exn -> M A) :
  settles P m -> (forall e, settles P (handler e)) ->
  settles P (try_except m handles handler).
Proof.
  intros [Hm Em] Hh. split.
  - intros w. specialize (Hm w). unfold try_except.
    destruct (m w) as [[a | e |] w1]; cbn [fst] in *;
      [discriminate | | congruence].
    destruct (handles e); [apply (proj1 (Hh e)) | discriminate].
  - apply emits_only_try; [exact Em |]. intros e. apply (proj2 (Hh e)).
Qed.

Lemma settles_for_each {A : Type} (xs : list A) (body : A -> M unit) :
  (forall x, settles P (body x)) -> settles P (for_each xs body).
Proof.
  intros H. induction xs as [|x xs IH]; simpl.
  - apply settles_ret.
  - apply settles_bind; auto.
Qed.

Lemma settles_print m : P (EvPrint m) -> settles P (print m).
Proof. split; [intros w; discriminate | now apply emits_only_print]. Qed.

Lemma settles_load : P EvLoad -> settles P load_tracking_data.
Proof. split; [intros w; discriminate | now apply emits_only_load]. Qed.

Lemma settles_save data : P (EvSave data) -> settles P (save_tracking_data data).
Proof. split; [intros w; discriminate | now apply emits_only_save]. Qed.

Lemma settles_now : P EvTime -> settles P (now E).
Proof. split; [intros w; discriminate | now apply emits_only_now]. Qed.

Lemma settles_read_line : P EvInput -> settles P (read_line E).
Proof.
  split; [intros w; discriminate |].
  intros w. exists [EvInput]. split; [reflexivity | auto].
Qed.

Lemma settles_fetch board thread_id :
  P (EvFetch board thread_id) -> (forall why, P (EvPrint (MsgFetchError why))) ->
  settles P (fetch_thread_data E board thread_id).
Proof.
  split; [| now apply emits_only_fetch].
  intros w. unfold fetch_thread_data.
  destruct (urlopen E _) as [td | code | why | | truthy]; try discriminate.
  destruct (code =? 404); discriminate.
Qed.

Lemma settles_notification board thread_id post_content :
  (forall title content, P (EvNotify title content)) ->
  (forall title content, P (EvPrint (MsgNotifyFailed title content))) ->
  settles P (send_notification E board thread_id post_content).
Proof.
  split; [| now apply emits_only_notification].
  intros w. unfold send_notification. cbv zeta.
  destruct (_ || _); [discriminate |].
  destruct (notify_send E _); discriminate.
Qed.

End SettleFacts.

(** Walks through a computation made of the steps above. *)
Ltac settle :=
  repeat first
    [ apply settles_ret | apply settles_raise | apply settles_lift
    | apply settles_print | apply settles_load | apply settles_save
    | apply settles_now | apply settles_read_line | apply settles_fetch
    | apply settles_notification
    | apply settles_bind; [| intros ?]
    | apply settles_for_each; intros ?
    | apply settles_try; [| intros ?]
    | progress cbv zeta
    | match goal with
      | |- settles _ (match ?x with _ => _ end) => destruct x
      | |- not_sleep _ => reflexivity
      | |- aside _ => split; reflexivity
      | |- forall _, _ => intros ?
      end ].

Section SuspendFacts.

Variable E : env.

Lemma sleep_lengths_app l1 l2 :
  sleep_lengths (l1 ++ l2) = sleep_lengths l1 ++ sleep_lengths l2.
Proof.
  induction l1 as [|e l1 IH]; [reflexivity |].
  destruct e; cbn [app sleep_lengths]; now rewrite IH.
Qed.

Lemma requests_app l1 l2 : requests (l1 ++ l2) = (requests l1 + requests l2)%nat.
Proof. unfold requests. now rewrite filter_app, length_app. Qed.

Lemma not_sleep_lengths seg : Forall not_sleep seg -> sleep_lengths seg = [].
Proof.
  induction 1 as [|e seg He _ IH]; [reflexivity |].
  destruct e; cbn [sleep_lengths]; try exact IH. discriminate He.
Qed.

Lemma aside_not_sleep seg : Forall aside seg -> Forall not_sleep seg.
Proof. apply Forall_impl. now intros e [_ H]. Qed.

Lemma aside_requests seg : Forall aside seg -> requests seg = 0%nat.
Proof.
  unfold requests. induction 1 as [|e seg [He _] _ IH]; [reflexivity |].
  cbn [filter]. now rewrite He.
Qed.

(** Work that is neither a request nor a suspension leaves a cycle as
    it is. *)
Lemma in_cycle_aside pre r extra :
  sleep_lengths pre = [] -> requests pre = r -> Forall aside extra ->
  sleep_lengths (pre ++ extra) = [] /\ requests (pre ++ extra) = r.
Proof.
  intros Hs Hr Hx.
  rewrite sleep_lengths_app, requests_app, Hs, Hr,
    (not_sleep_lengths _ (aside_not_sleep _ Hx)), (aside_requests _ Hx).
  split; [reflexivity | lia].
Qed.

Lemma loop_log_sleep_lengths seconds k l :
  loop_log seconds k l -> sleep_lengths l = repeat seconds k.
Proof.
  induction 1 as [work Hs _ | k work rest Hs _ _ IH]; [exact Hs |].
  rewrite sleep_lengths_app, Hs. cbn [app sleep_lengths repeat]. now rewrite IH.
Qed.

Lemma loop_log_nil seconds : loop_log seconds 0 [].
Proof. apply loop_last; [reflexivity | apply Nat.le_0_l]. Qed.

(** Work after the loop goes to its last cycle. *)
Lemma loop_log_app_aside seconds k l extra :
  loop_log seconds k l -> Forall aside extra -> loop_log seconds k (l ++ extra).
Proof.
  intros H Hx. induction H as [work Hs Hr | k work rest Hs Hr _ IH].
  - destruct (in_cycle_aside work _ extra Hs eq_refl Hx) as [Hs' Hr'].
    apply loop_last; [exact Hs' | now rewrite Hr'].
  - rewrite <- app_assoc. cbn [app]. now apply loop_cycle.
Qed.

(** Work that ends, and is neither a request nor a suspension, stays
    within the cycle. *)
Lemma polls_settles r seconds cycles (m : M unit) :
  (r <= 1)%nat -> settles aside m -> polls_after r seconds cycles m.
Proof.
  intros Hr1 [Hm Em] pre w Hs Hr. destruct (Em w) as (seg & Hlog & Hseg).
  exists seg, O. split; [exact Hlog |].
  destruct (in_cycle_aside pre r seg Hs Hr Hseg) as [Hs' Hr'].
  split; [apply loop_last; [exact Hs' | now rewrite Hr'] |].
  split; [lia |]. intros H. now destruct (Hm w).
Qed.

Lemma polls_bind r seconds cycles {A : Type} (m : M A) (k : A -> M unit) :
  (r <= 1)%nat -> settles aside m ->
  (forall a, polls_after r seconds cycles (k a)) ->
  polls_after r seconds cycles (bind m k).
Proof.
  intros Hr1 [Hm Em] Hk pre w Hs Hr.
  destruct (Em w) as (seg1 & Hlog1 & Hseg1). specialize (Hm w).
  destruct (in_cycle_aside pre r seg1 Hs Hr Hseg1) as [Hs' Hr'].
  unfold bind. destruct (m w) as [[a | e |] w1]; cbn [fst snd] in *.
  - destruct (Hk a (pre ++ seg1) w1 Hs' Hr') as (seg2 & n & Hlog2 & Hloop & Hn & Hrun).
    exists (seg1 ++ seg2), n.
    split; [rewrite Hlog2, Hlog1, <- app_assoc; reflexivity |].
    rewrite app_assoc. auto.
  - exists seg1, O. split; [exact Hlog1 |].
    split; [apply loop_last; [exact Hs' | now rewrite Hr'] |].
    split; [lia | discriminate].
  - congruence.
Qed.

(** The request opens the cycle. *)
Lemma polls_fetch seconds cycles board thread_id (k : option json_value -> M unit) :
  (forall reply, polls_after 1 seconds cycles (k reply)) ->
  polls_after 0 seconds cycles (bind (fetch_thread_data E board thread_id) k).
Proof.
  intros Hk pre w Hs Hr.
  assert (Hf : exists o lines,
             fetch_thread_data E board thread_id w
             = (o, mkWorld (file w) (log w ++ EvFetch board thread_id :: lines))
             /\ o <> Running /\ Forall aside lines).
  { unfold fetch_thread_data, emit. cbn [file log].
    destruct (urlopen E _) as [td | code | why | | truthy].
    - eexists _, []. repeat split; [discriminate | constructor].
    - destruct (code =? 404); eexists _, [];
        (repeat split; [discriminate | constructor]).
    - eexists _, [_]. rewrite <- app_assoc. repeat split; [discriminate |].
      repeat constructor.
    - eexists _, []. repeat split; [discriminate | constructor].
    - eexists _, []. repeat split; [discriminate | constructor]. }
  destruct Hf as (o & lines & Hrun & Ho & Hlines).
  assert (Hs' : sleep_lengths (pre ++ EvFetch board thread_id :: lines) = []).
  { rewrite sleep_lengths_app, Hs. cbn [app sleep_lengths].
    apply not_sleep_lengths, aside_not_sleep, Hlines. }
  assert (Hr' : requests (pre ++ EvFetch board thread_id :: lines) = 1%nat).
  { rewrite requests_app, Hr. change (EvFetch board thread_id :: lines)
      with ([EvFetch board thread_id] ++ lines).
    rewrite requests_app, (aside_requests _ Hlines). reflexivity. }
  unfold bind. rewrite Hrun. destruct o as [reply | e |]; [| | congruence].
  - destruct (Hk reply _ (mkWorld (file w) (log w ++ EvFetch board thread_id :: lines))
                Hs' Hr')
      as (seg & n & Hlog & Hloop & Hn & Hgo).
    exists ((EvFetch board thread_id :: lines) ++ seg), n.
    split; [rewrite Hlog; cbn [log]; rewrite <- app_assoc; reflexivity |].
    rewrite app_assoc. auto.
  - exists (EvFetch board thread_id :: lines), O. cbn [snd fst log].
    split; [reflexivity |].
    split; [apply loop_last; [exact Hs' | now rewrite Hr'] |].
    split; [lia | discriminate].
Qed.

(** The suspension closes the cycle: it lasts the length it is given. *)
Lemma polls_sleep seconds cycles (m : M unit) :
  polls_after 0 seconds cycles m ->
  polls_after 1 seconds (S cycles) (bind (sleep E seconds) (fun _ => m)).
Proof.
  intros Hm pre w Hs Hr. unfold bind, sleep.
  destruct (_ || _).
  { exists [], O. cbn [fst snd]. rewrite !app_nil_r.
    split; [reflexivity |].
    split; [apply loop_last; [exact Hs | now rewrite Hr] |].
    split; [lia | discriminate]. }
  destruct (seconds <? 0).
  { exists [], O. cbn [fst snd]. rewrite !app_nil_r.
    split; [reflexivity |].
    split; [apply loop_last; [exact Hs | now rewrite Hr] |].
    split; [lia | discriminate]. }
  destruct (sleep_interrupted E _).
  - exists [EvSleep seconds], 1%nat. cbn [fst snd].
    split; [reflexivity |].
    split; [apply loop_cycle; [exact Hs | exact Hr | apply loop_log_nil] |].
    split; [lia | discriminate].
  - destruct (Hm [] (emit (EvSleep seconds) w) eq_refl eq_refl)
      as (seg & n & Hlog & Hloop & Hn & Hgo).
    exists (EvSleep seconds :: seg), (S n). rewrite Hlog.
    unfold emit; cbn [log]. rewrite <- app_assoc.
    split; [reflexivity |].
    split; [now apply loop_cycle |].
    split; [lia |]. intros H. now rewrite (Hgo H).
Qed.

Lemma polls_try r seconds cycles (m : M unit) handles (handler : exn -> M unit) :
  polls_after r seconds cycles m -> (forall e, settles aside (handler e)) ->
  polls_after r seconds cycles (try_except m handles handler).
Proof.
  intros Hm Hh pre w Hs Hr.
  destruct (Hm pre w Hs Hr) as (seg & n & Hlog & Hloop & Hn & Hgo).
  unfold try_except.
  destruct (m w) as [[a | e |] w1]; cbn [fst snd] in *; try (now exists seg, n).
  destruct (handles e); [| now exists seg, n].
  destruct (Hh e) as [Hend Ee]. destruct (Ee w1) as (seg2 & Hlog2 & Hseg2).
  exists (seg ++ seg2), n.
  split; [rewrite Hlog2, Hlog, <- app_assoc; reflexivity |].
  rewrite app_assoc.
  split; [now apply loop_log_app_aside |].
  split; [exact Hn |]. intros H. now destruct (Hend w1).
Qed.

(** The poll loop: a request, the work on the reply, a suspension for
    the interval the loop was given, and so on. *)
Lemma monitor_loop_polls fuel board thread_id check_interval data info :
  polls_after 0 check_interval fuel
    (monitor_loop E fuel board thread_id check_interval data info).
Proof.
  revert data info. induction fuel as [|fuel IH]; intros data info.
  - intros pre w Hs Hr. exists [], O. cbn [monitor_loop fst snd].
    rewrite !app_nil_r.
    split; [reflexivity |].
    split; [apply loop_last; [exact Hs | rewrite Hr; lia] |].
    split; [lia | reflexivity].
  - cbn [monitor_loop]. cbv zeta. apply polls_fetch. intros reply.
    destruct (fetched reply) as [value|];
      [| apply polls_settles; [lia |]; settle].
    apply polls_bind; [lia | settle |]. intros td.
    apply polls_bind; [lia | settle |]. intros latest_post_no.
    destruct (_ <? _); [| apply polls_sleep, IH].
    apply polls_bind; [lia | settle |]. intros posts.
    apply polls_bind; [lia | unfold notify_if_new; settle |]. intros _.
    apply polls_bind; [lia | settle |]. intros last_update.
    apply polls_bind; [lia | settle |]. intros _.
    apply polls_bind; [lia | settle |]. intros _.
    apply polls_sleep, IH.
Qed.

Lemma monitor_thread_polls fuel board thread_id check_interval :
  polls_after 0 check_interval fuel
    (monitor_thread E fuel board thread_id check_interval).
Proof.
  unfold monitor_thread. apply polls_bind; [lia | settle |]. intros data.
  destruct (Dict.get _ _) as [info|]; [| apply polls_settles; [lia |]; settle].
  apply polls_bind; [lia | settle |]. intros _.
  apply polls_try; [apply monitor_loop_polls |]. intros e. settle.
Qed.

Lemma suspends_settles seconds cycles (m : M unit) :
  settles not_sleep m -> suspends seconds cycles m.
Proof.
  intros [Hm Em] w. destruct (Em w) as (seg & Hlog & Hseg).
  exists seg, O. split; [exact Hlog |].
  split; [now apply not_sleep_lengths |].
  split; [lia |]. intros H. now destruct (Hm w).
Qed.

Lemma suspends_polls seconds cycles (m : M unit) :
  polls_after 0 seconds cycles m -> suspends seconds cycles m.
Proof.
  intros Hm w. destruct (Hm [] w eq_refl eq_refl) as (seg & k & Hlog & Hloop & Hk).
  exists seg, k. split; [exact Hlog |].
  split; [exact (loop_log_sleep_lengths _ _ _ Hloop) | exact Hk].
Qed.

Lemma suspends_bind_l seconds cycles {A : Type} (m : M A) (k : A -> M unit) :
  settles not_sleep m -> (forall a, suspends seconds cycles (k a)) ->
  suspends seconds cycles (bind m k).
Proof.
  intros [Hm Em] Hk w. destruct (Em w) as (seg1 & Hlog1 & Hseg1).
  specialize (Hm w). unfold bind.
  destruct (m w) as [[a | e |] w1]; cbn [fst snd] in *.
  - destruct (Hk a w1) as (seg2 & n & Hlog2 & Hsl & Hn).
    exists (seg1 ++ seg2), n. rewrite Hlog2, Hlog1, app_assoc.
    split; [reflexivity |].
    rewrite sleep_lengths_app, (not_sleep_lengths _ Hseg1). now split.
  - exists seg1, O. split; [exact Hlog1 |].
    split; [now apply not_sleep_lengths |]. split; [lia | discriminate].
  - congruence.
Qed.

Lemma suspends_bind_r seconds cycles (m : M unit) (k : unit -> M unit) :
  suspends seconds cycles m -> (forall a, settles not_sleep (k a)) ->
  suspends seconds cycles (bind m k).
Proof.
  intros Hm Hk w. destruct (Hm w) as (seg1 & n & Hlog1 & Hsl & Hn & Hgo).
  unfold bind. destruct (m w) as [[a | e |] w1]; cbn [fst snd] in *;
    try (now exists seg1, n).
  destruct (Hk a) as [Hend Ek]. destruct (Ek w1) as (seg2 & Hlog2 & Hseg2).
  exists (seg1 ++ seg2), n. rewrite Hlog2, Hlog1, app_assoc.
  split; [reflexivity |].
  rewrite sleep_lengths_app, (not_sleep_lengths _ Hseg2), app_nil_r.
  split; [exact Hsl |]. split; [exact Hn |]. intros H. now destruct (Hend w1).
Qed.

Lemma suspends_try seconds cycles (m : M unit) handles (handler : exn -> M unit) :
  suspends seconds cycles m -> (forall e, settles not_sleep (handler e)) ->
  suspends seconds cycles (try_except m handles handler).
Proof.
  intros Hm Hh w. destruct (Hm w) as (seg1 & n & Hlog1 & Hsl & Hn & Hgo).
  unfold try_except. destruct (m w) as [[a | e |] w1]; cbn [fst snd] in *;
    try (now exists seg1, n).
  destruct (handles e); [| now exists seg1, n].
  destruct (Hh e) as [Hend Ee]. destruct (Ee w1) as (seg2 & Hlog2 & Hseg2).
  exists (seg1 ++ seg2), n. rewrite Hlog2, Hlog1, app_assoc.
  split; [reflexivity |].
  rewrite sleep_lengths_app, (not_sleep_lengths _ Hseg2), app_nil_r.
  split; [exact Hsl |]. split; [exact Hn |]. intros H. now destruct (Hend w1).
Qed.

Lemma add_thread_settles board thread_id check_interval :
  settles not_sleep (add_thread E board thread_id check_interval).
Proof. unfold add_thread. settle. Qed.

Lemma list_threads_settles : settles not_sleep (list_threads E).
Proof. unfold list_threads, datetime_now, datetime_fromtimestamp. settle. Qed.

Lemma remove_thread_settles tracking_id force :
  settles not_sleep (remove_thread E tracking_id force).
Proof. unfold remove_thread. settle. Qed.

Lemma cleanup_old_threads_settles : settles not_sleep (cleanup_old_threads E).
Proof. unfold cleanup_old_threads. settle. Qed.

(** Adding and monitoring, as the URL and the manual branch run them. *)
Lemma track_suspends fuel board thread_id check_interval :
  suspends check_interval fuel
    (bind (add_thread E board thread_id check_interval)
       (fun _ => monitor_thread E fuel board thread_id check_interval)).
Proof.
  apply suspends_bind_l; [apply add_thread_settles |]. intros _.
  apply suspends_polls, monitor_thread_polls.
Qed.

Lemma primary_action_suspends fuel a :
  suspends (arg_interval a) fuel (primary_action E fuel a).
Proof.
  unfold primary_action.
  destruct (arg_list a); [apply suspends_settles, list_threads_settles |].
  destruct (nonzero (arg_delete a)) as [tracking_id|];
    [apply suspends_settles, remove_thread_settles |].
  destruct (present_and_true (arg_url a)) as [url|].
  - apply suspends_try; [| intros e; settle].
    apply suspends_bind_l; [settle |]. intros [board thread_id].
    apply track_suspends.
  - destruct (arg_manual a) as [[board thread_id]|];
      [apply track_suspends | apply suspends_settles; settle].
Qed.

Lemma main_suspends fuel a : suspends (arg_interval a) fuel (main E fuel a).
Proof.
  unfold main. apply suspends_bind_r; [apply primary_action_suspends |].
  intros _. apply cleanup_old_threads_settles.
Qed.

End SuspendFacts.

(** C9, as amended. The poll loop suspends for the interval of the
    invocation, whatever interval the record stores. In a monitoring
    run, every cycle that goes on to a next one makes one request and
    is followed by one suspension, which lasts the interval passed to
    [monitor_thread]; a run that is still going after [fuel] cycles has
    suspended [fuel] times. [main] passes the interval of its
    arguments: all the suspensions of an invocation last that long.
    The stored interval agrees with it for a record the invocation has
    created itself, since [add_thread] stores the interval it is given. *)
Theorem monitor_thread_sleeps_for_given_interval (E : env) (fuel : nat) :
  (forall board thread_id check_interval w,
      exists seg k,
        log (snd (monitor_thread E fuel board thread_id check_interval w))
        = log w ++ seg
        /\ loop_log check_interval k seg
        /\ (k <= fuel)%nat
        /\ (fst (monitor_thread E fuel board thread_id check_interval w) = Running ->
            k = fuel))
  /\ (forall a w,
        exists seg k,
          log (snd (main E fuel a w)) = log w ++ seg
          /\ sleep_lengths seg = repeat (arg_interval a) k
          /\ (k <= fuel)%nat
          /\ (fst (main E fuel a w) = Running -> k = fuel))
  /\ (forall board thread_id check_interval w,
        file (snd (add_thread E board thread_id check_interval w)) = file w
        \/ exists info,
            threads (loaded (snd (add_thread E board thread_id check_interval w)))
            = threads (loaded w) ++ [(thread_key board thread_id, info)]
            /\ ti_check_interval info = check_interval).
Proof.
  split; [| split].
  - intros board thread_id check_interval w.
    apply (monitor_thread_polls E fuel board thread_id check_interval [] w);
      reflexivity.
  - intros a w. apply main_suspends.
  - intros board thread_id check_interval w.
    destruct (add_thread_cases E board thread_id check_interval w)
      as (o & w' & seg & -> & _ & [[Hf _] | (info & Hf & _ & _ & _ & Hi & _)]);
      cbn [snd].
    + now left.
    + right. exists info. unfold loaded at 1. rewrite Hf. now split.
Qed.

(** C9, as stated, fails: the record stores an interval of 60 seconds,
    the invocation passes 300, and the loop suspends for 300 seconds. *)
Lemma monitor_ignores_stored_interval :
  let w := Sample.world_of (Sample.tracking 11 1000 60) in
  option_map ti_check_interval (Dict.get "g_55" (threads (loaded w))) = Some 60
  /\ main (Sample.env_of Sample.idle_then_gone 2000) 2
       (Sample.manual_args "g" "55" 300) w
     = (Done tt,
        mkWorld (Stored (mkRegistry [] 2))
          [EvLoad; EvPrint (MsgAlreadyTracked "g" "55");
           EvLoad; EvPrint (MsgMonitoring "g" "55" "hi" 300);
           EvFetch "g" "55"; EvSleep 300;
           EvFetch "g" "55"; EvPrint (MsgNoLongerExists "g" "55");
           EvSave (mkRegistry [] 2);
           EvLoad; EvTime]).
Proof. split; reflexivity. Qed.

Lemma monitor_thread_sleeps_for_given_interval_witness :
  exists seg,
    log (snd (main (Sample.env_of Sample.idle 2000) 2
                (Sample.manual_args "g" "55" 300)
                (Sample.world_of (Sample.tracking 11 1000 60))))
    = [] ++ seg
    /\ sleep_lengths seg = [300; 300].
Proof.
  destruct (proj1 (proj2 (monitor_thread_sleeps_for_given_interval
                            (Sample.env_of Sample.idle 2000) 2))
              (Sample.manual_args "g" "55" 300)
              (Sample.world_of (Sample.tracking 11 1000 60)))
    as (seg & k & Hlog & Hs & _ & Hgo).
  exists seg. split; [exact Hlog |].
  rewrite Hs, (Hgo eq_refl). reflexivity.
Defined.

(* ================================================================= *)
(** ** A poll cycle with new posts *)

Section CycleFacts.

Variable E : env.

Lemma notifying_not_time notes (kind : event -> bool) :
  (forall title content, kind (EvNotify title content) = false) ->
  (forall m, kind (EvPrint m) = false) ->
  Forall notifying notes -> filter kind notes = [].
Proof.
  intros Hn Hp. induction 1 as [|e notes (title & content & [-> | ->]) _ IH];
    cbn [filter]; rewrite ?Hn, ?Hp; auto.
Qed.

(** A delivery that does not raise: one notification, and a printed
    line when it fails. *)
Lemma send_notification_run board thread_id (p : post) w :
  deliverable board thread_id p = true ->
  notify_handled (notify_send E (calls is_notify w)) ->
  exists sent,
    send_notification E board thread_id
      match post_com p with Some c => c | None => "No content"%string end w
    = (Done tt, mkWorld (file w) (log w ++ sent))
    /\ filter is_notify sent = [notification_of board thread_id p]
    /\ Forall notifying sent.
Proof.
  unfold deliverable, send_notification. cbv zeta. intros Hd Hn.
  apply negb_true_iff in Hd. rewrite Hd.
  destruct Hn as [-> | ->].
  - exists [notification_of board thread_id p]. repeat split.
    constructor; [| constructor]. eexists _, _. left. reflexivity.
  - eexists [notification_of board thread_id p; EvPrint (MsgNotifyFailed _ _)].
    split; [unfold emit; cbn [file log]; now rewrite <- app_assoc |].
    split; [reflexivity |].
    constructor; [eexists _, _; left; reflexivity |].
    constructor; [eexists _, _; right; reflexivity | constructor].
Qed.

Lemma notify_if_new_run board thread_id cursor p n w :
  post_no p = Some n ->
  notify_if_new E board thread_id cursor p w
  = if cursor <? n
    then send_notification E board thread_id
           match post_com p with Some c => c | None => "No content"%string end w
    else (Done tt, w).
Proof.
  intros H. unfold notify_if_new, no_of. rewrite H. cbn [lift].
  rewrite bind_ret_l. now destruct (cursor <? n).
Qed.

(** The loop over the posts of a numbered snapshot delivers one
    notification for each post above the cursor, in the order of the
    loop, and does nothing else, when no delivery raises. *)
Lemma notify_new_posts board thread_id cursor posts nos w :
  numbered posts nos ->
  Forall (fun p => deliverable board thread_id p = true)
    (filter (is_new cursor) posts) ->
  (forall n, notify_handled (notify_send E n)) ->
  exists notes,
    for_each posts (notify_if_new E board thread_id cursor) w
    = (Done tt, mkWorld (file w) (log w ++ notes))
    /\ filter is_notify notes
       = map (notification_of board thread_id) (filter (is_new cursor) posts)
    /\ Forall notifying notes.
Proof.
  unfold numbered. intros H Hd Hn. revert nos w H Hd.
  induction posts as [|p posts IH]; intros nos w H Hd.
  - exists []. rewrite app_nil_r. destruct w. repeat split. constructor.
  - destruct nos as [|n nos]; [discriminate |]. injection H as Hp H.
    cbn [for_each filter] in *. unfold is_new at 1. unfold is_new at 1 in Hd.
    rewrite Hp in *.
    pose proof (notify_if_new_run board thread_id cursor p n w Hp) as Hstep.
    destruct (cursor <? n).
    + apply Forall_cons_iff in Hd as [Hd1 Hd].
      destruct (send_notification_run board thread_id p w Hd1 (Hn _))
        as (sent & Hs & Hf1 & Hn1).
      rewrite Hs in Hstep. rewrite (bind_done _ _ _ _ _ Hstep).
      destruct (IH nos (mkWorld (file w) (log w ++ sent)) H Hd)
        as (notes & -> & Hf & Hnotes).
      exists (sent ++ notes). cbn [file log]. rewrite app_assoc.
      split; [reflexivity |]. split.
      * rewrite filter_app, Hf1, Hf. reflexivity.
      * apply Forall_app. now split.
    + rewrite (bind_done _ _ _ _ _ Hstep). apply (IH nos w H Hd).
Qed.

(** The number [last_post_no_of] reads is the last of the numbers. *)
Lemma last_post_no_last td posts nos m :
  td_posts td = Some posts -> numbered posts nos ->
  last_post_no_of td = Ok m -> exists front, nos = front ++ [m].
Proof.
  unfold numbered, last_post_no_of, posts_of. intros -> H.
  destruct (rev posts) as [|p ps] eqn:Hrev; [discriminate |].
  apply (f_equal (@rev post)) in Hrev. rewrite rev_involutive in Hrev.
  cbn [rev] in Hrev. subst posts. rewrite map_app in H. cbn [map] in H.
  symmetry in H. apply map_eq_app in H as (front & l & -> & _ & Hl).
  destruct l as [|n [|]]; try discriminate. injection Hl as Hl.
  unfold no_of. rewrite <- Hl. intros [= ->]. now exists front.
Qed.

(** In a snapshot in ascending order the last number is the highest. *)
Lemma highest_sorted_last front m :
  StronglySorted Z.le (front ++ [m]) -> highest (front ++ [m]) = Some m.
Proof.
  destruct front as [|n front]; [reflexivity |]. cbn [app highest].
  revert n. induction front as [|a front IH]; intros n Hs.
  - apply StronglySorted_inv in Hs as [_ Hn]. cbn [app fold_left].
    inversion Hn; subst. now rewrite Z.max_r.
  - apply StronglySorted_inv in Hs as [Hs Hn]. cbn [app fold_left].
    inversion Hn; subst. rewrite Z.max_r by assumption. now apply IH.
Qed.

End CycleFacts.

(** C2, as amended. In a poll cycle whose snapshot ends with a post
    numbered above the cursor of the record, and in which no delivery
    raises (no argument of a delivery holds a NUL character, and
    [notify-send] succeeds or fails in a way that is handled), the loop
    delivers one notification for each post above the old cursor and
    for no other post, then sets [last_post_no] to the number of the
    last post and [last_update] to the current time, saves the
    registry, and only then suspends before the next cycle. The number
    of the last post is the highest of the snapshot when the posts
    come in ascending order. *)
Theorem poll_cycle_with_new_posts (E : env) (fuel : nat) (board thread_id : string)
    (check_interval : Z) (data : registry) (info : thread_info) (w : world)
    (td : thread_data) (posts : list post) (nos : list Z) (m : Z) :
  Dict.get (thread_key board thread_id) (threads data) = Some info ->
  urlopen E (calls is_fetch w) = ReplyJSON td ->
  td_posts td = Some posts ->
  numbered posts nos ->
  last_post_no_of td = Ok m ->
  ti_last_post_no info < m ->
  Forall (fun p => deliverable board thread_id p = true)
    (filter (is_new (ti_last_post_no info)) posts) ->
  (forall n, notify_handled (notify_send E n)) ->
  let info' := mkThreadInfo (ti_id info) (ti_board info) (ti_thread_id info)
                 (ti_title info) m (time_time E (calls is_time w))
                 (ti_check_interval info) (ti_added_time info) in
  let data' := mkRegistry
                 (Dict.set (thread_key board thread_id) info' (threads data))
                 (next_id data) in
  (StronglySorted Z.le nos -> highest nos = Some m)
  /\ exists notes,
      monitor_loop E (S fuel) board thread_id check_interval data info w
      = bind (sleep E check_interval)
          (fun _ => monitor_loop E fuel board thread_id check_interval data' info')
          (mkWorld (Stored data')
             (log w ++ [EvFetch board thread_id] ++ notes
                ++ [EvTime; EvSave data'; EvPrint (MsgNewPosts board thread_id)]))
      /\ filter is_notify notes
         = map (notification_of board thread_id)
             (rev (filter (is_new (ti_last_post_no info)) posts))
      /\ Forall notifying notes
      /\ Dict.get (thread_key board thread_id) (threads data') = Some info'.
Proof.
  intros _ Hreply Hposts Hnum Hlast Hnew Hclean Hsend. cbv zeta.
  split.
  { intros Hsorted.
    destruct (last_post_no_last td posts nos m Hposts Hnum Hlast) as (front & ->).
    now apply highest_sorted_last. }
  assert (Hrev : numbered (rev posts) (rev nos))
    by (unfold numbered in *; now rewrite !map_rev, Hnum).
  assert (Hclean' : Forall (fun p => deliverable board thread_id p = true)
                      (filter (is_new (ti_last_post_no info)) (rev posts))).
  { rewrite Forall_forall in *. intros p Hp. apply Hclean.
    rewrite filter_In in *. now rewrite in_rev. }
  destruct (notify_new_posts E board thread_id (ti_last_post_no info) (rev posts) _
              (emit (EvFetch board thread_id) w) Hrev Hclean' Hsend)
    as (notes & Hrun & Hfilter & Hnotes).
  exists notes. rewrite filter_rev in Hfilter.
  split; [| split; [exact Hfilter | split; [exact Hnotes | apply get_set_same]]].
  cbn [monitor_loop]. cbv zeta.
  rewrite (bind_done _ _ _ _ _ (fetch_json E board thread_id w td Hreply)).
  unfold fetched, json_truthy, td_truthy. rewrite Hposts.
  cbn [object_of lift]. rewrite bind_ret_l.
  rewrite Hlast. cbn [lift]. rewrite bind_ret_l.
  destruct (Z.ltb_spec (ti_last_post_no info) m) as [_ | Hle]; [| lia].
  unfold posts_of. rewrite Hposts. cbn [lift]. rewrite bind_ret_l.
  rewrite (bind_done _ _ _ _ _ Hrun).
  unfold bind at 1, now at 1.
  assert (Hclock : calls is_time
                     (mkWorld (file (emit (EvFetch board thread_id) w))
                        (log (emit (EvFetch board thread_id) w) ++ notes))
                   = calls is_time w).
  { unfold calls, emit; cbn [file log]. rewrite !filter_app.
    rewrite (notifying_not_time notes is_time) by (auto; reflexivity).
    cbn [filter is_time]. now rewrite !app_nil_r. }
  rewrite Hclock.
  unfold bind at 1, save_tracking_data at 1. unfold bind at 1, print at 1.
  unfold emit; cbn [file log]. rewrite <- !app_assoc. reflexivity.
Qed.

Lemma poll_cycle_with_new_posts_witness :
  exists notes,
    filter is_notify notes = [EvNotify "/g/ - 55" "hi"; EvNotify "/g/ - 55" "hi"]
    /\ Dict.get "g_55"
         (threads (mkRegistry
                     (Dict.set (thread_key "g" "55")
                        (mkThreadInfo 1 "g" "55" "hi" 13 2000 60 1000)
                        (threads (Sample.tracking 11 1000 60))) 2))
       = Some (mkThreadInfo 1 "g" "55" "hi" 13 2000 60 1000).
Proof.
  destruct (proj2 (poll_cycle_with_new_posts (Sample.env_of Sample.two_new 2000) 0
              "g" "55" 60 (Sample.tracking 11 1000 60)
              (Sample.record 11 1000 60)
              (Sample.world_of (Sample.tracking 11 1000 60))
              (Sample.snapshot [10; 11; 12; 13])
              (map (fun n => mkPost (Some n) None (Some "<b>hi</b>"%string))
                 [10; 11; 12; 13])
              [10; 11; 12; 13] 13
              eq_refl eq_refl eq_refl eq_refl eq_refl ltac:(simpl; lia)
              ltac:(repeat constructor)
              ltac:(intros n; left; reflexivity)))
    as (notes & _ & Hf & _ & Hg).
  exists notes. split; [exact Hf | exact Hg].
Defined.

(** C2, as stated, fails. The cycle compares the cursor with the number
    of the last post, not with the highest: of a snapshot whose posts
    are numbered 12 and 10, in this order, with the cursor at 11, it
    notifies nothing and leaves the cursor, although post 12 is new;
    of a snapshot numbered 10, 13 and 12 it notifies the two new posts
    and sets the cursor to 12, below the highest number. And a
    delivery can raise: for a post whose text holds a NUL character
    the cycle ends with [ValueError] before anything is saved. *)
Lemma poll_cycle_compares_last_post :
  let w := Sample.world_of (Sample.tracking 11 1000 60) in
  let moved := mkRegistry [("g_55", mkThreadInfo 1 "g" "55" "hi" 12 2000 60 1000)] 2 in
  highest [12; 10] = Some 12
  /\ ti_last_post_no (Sample.record 11 1000 60) < 12
  /\ monitor_loop (Sample.env_of Sample.unsorted 2000) 1 "g" "55" 60
       (Sample.tracking 11 1000 60) (Sample.record 11 1000 60) w
     = (Running,
        mkWorld (Stored (Sample.tracking 11 1000 60)) [EvFetch "g" "55"; EvSleep 60])
  /\ highest [10; 13; 12] = Some 13
  /\ monitor_loop (Sample.env_of Sample.unsorted_new 2000) 1 "g" "55" 60
       (Sample.tracking 11 1000 60) (Sample.record 11 1000 60) w
     = (Running,
        mkWorld (Stored moved)
          [EvFetch "g" "55"; EvNotify "/g/ - 55" "hi"; EvNotify "/g/ - 55" "hi";
           EvTime; EvSave moved; EvPrint (MsgNewPosts "g" "55"); EvSleep 60])
  /\ monitor_loop (Sample.env_of Sample.with_nul 2000) 1 "g" "55" 60
       (Sample.tracking 11 1000 60) (Sample.record 11 1000 60) w
     = (Raised (ValueError "embedded null byte"),
        mkWorld (Stored (Sample.tracking 11 1000 60)) [EvFetch "g" "55"]).
Proof. repeat split; try reflexivity. Qed.

(* ================================================================= *)
(** ** Tracking ids *)

Section SublistFacts.

Context {A : Type}.
Implicit Types l : list A.

Lemma sublist_refl l : sublist l l.
Proof. induction l; [apply sublist_nil | now apply sublist_keep]. Qed.

Lemma sublist_trans l1 l2 l3 : sublist l1 l2 -> sublist l2 l3 -> sublist l1 l3.
Proof.
  intros H12 H23. revert l1 H12.
  induction H23 as [| x l2 l3 _ IH | x l2 l3 _ IH]; intros l1 H12.
  - exact H12.
  - apply sublist_skip. now apply IH.
  - inversion H12; subst; [apply sublist_skip | apply sublist_keep]; now apply IH.
Qed.

Lemma sublist_In l' l x : sublist l' l -> In x l' -> In x l.
Proof.
  induction 1 as [| y l' l _ IH | y l' l _ IH]; simpl; intuition.
Qed.

Lemma sublist_Forall (P : A -> Prop) l' l : sublist l' l -> Forall P l -> Forall P l'.
Proof.
  induction 1 as [| y l' l _ IH | y l' l _ IH]; intros H; auto;
    inversion H; subst; auto.
Qed.

Lemma sublist_NoDup l' l : sublist l' l -> NoDup l -> NoDup l'.
Proof.
  induction 1 as [| y l' l Hs IH | y l' l Hs IH]; intros H; auto;
    inversion H; subst; auto.
  constructor; auto. intros Hin. eauto using sublist_In.
Qed.

Lemma sublist_map {B : Type} (f : A -> B) l' l :
  sublist l' l -> sublist (map f l') (map f l).
Proof.
  induction 1; simpl;
    [apply sublist_nil | now apply sublist_skip | now apply sublist_keep].
Qed.

End SublistFacts.

Section IdFacts.

Variable E : env.

Lemma del_sublist k (d : Dict.t thread_info) : sublist (Dict.del k d) d.
Proof.
  induction d as [|[k' v] d IH]; simpl; [apply sublist_nil |].
  destruct (String.eqb k k');
    [apply sublist_skip, sublist_refl | now apply sublist_keep].
Qed.

Lemma del_all_sublist ks (d : Dict.t thread_info) : sublist (del_all ks d) d.
Proof.
  unfold del_all. revert d. induction ks as [|k ks IH]; intros d; simpl.
  - apply sublist_refl.
  - eapply sublist_trans; [apply IH | apply del_sublist].
Qed.

(** Removal and the sweep announce no id, keep [next_id] and leave a
    part of the records. *)
Lemma remove_thread_shrinks tracking_id force w :
  exists o w' seg,
    remove_thread E tracking_id force w = (o, w')
    /\ log w' = log w ++ seg /\ assigned seg = []
    /\ next_id (loaded w') = next_id (loaded w)
    /\ sublist (threads (loaded w')) (threads (loaded w)).
Proof.
  assert (Hlog : forall (l : list event) e, (log w ++ l) ++ [e] = log w ++ l ++ [e])
    by (intros; now rewrite <- app_assoc).
  unfold remove_thread. rewrite (bind_done _ _ _ _ _ (load_run w)).
  destruct (find_by_id tracking_id (threads (loaded w))) as [[k info]|].
  - cbv zeta. destruct force.
    + eexists _, _, _. split; [reflexivity |]. unfold emit; cbn [log file].
      split; [rewrite ?Hlog; reflexivity |]. split; [reflexivity |].
      unfold loaded at 1 3; cbn [file threads next_id].
      split; [reflexivity | apply del_sublist].
    + unfold bind at 1, print at 1. unfold bind at 1, read_line at 1.
      destruct (String.eqb _ "y").
      * eexists _, _, _. split; [reflexivity |]. unfold emit; cbn [log file].
        split; [rewrite ?Hlog; reflexivity |]. split; [reflexivity |].
        unfold loaded at 1 3; cbn [file threads next_id].
        split; [reflexivity | apply del_sublist].
      * eexists _, _, _. split; [reflexivity |]. unfold emit; cbn [log file].
        split; [rewrite ?Hlog; reflexivity |]. split; [reflexivity |].
        split; [reflexivity | apply sublist_refl].
  - eexists _, _, _. split; [reflexivity |]. unfold emit; cbn [log file].
    split; [rewrite ?Hlog; reflexivity |]. split; [reflexivity |].
    split; [reflexivity | apply sublist_refl].
Qed.

Lemma cleanup_old_threads_shrinks w :
  exists o w' seg,
    cleanup_old_threads E w = (o, w')
    /\ log w' = log w ++ seg /\ assigned seg = []
    /\ next_id (loaded w') = next_id (loaded w)
    /\ sublist (threads (loaded w')) (threads (loaded w)).
Proof.
  assert (Hlog : forall (l : list event) e, (log w ++ l) ++ [e] = log w ++ l ++ [e])
    by (intros; now rewrite <- app_assoc).
  unfold cleanup_old_threads. rewrite (bind_done _ _ _ _ _ (load_run w)).
  unfold bind at 1, now at 1. cbv zeta.
  destruct (threads_to_remove _ (threads (loaded w))) as [|k ks] eqn:Hks.
  - eexists _, _, _. split; [reflexivity |]. unfold emit; cbn [log file].
    split; [rewrite ?Hlog; reflexivity |]. split; [reflexivity |].
    split; [reflexivity | apply sublist_refl].
  - eexists _, _, _. split; [reflexivity |]. unfold emit; cbn [log file].
    split; [rewrite ?Hlog; reflexivity |]. split; [reflexivity |].
    unfold loaded at 1 3; cbn [file threads next_id].
    split; [reflexivity | apply del_all_sublist].
Qed.

Lemma ids_app r k info n :
  ids (mkRegistry (threads r ++ [(k, info)]) n) = ids r ++ [ti_id info].
Proof. unfold ids; cbn [threads]. now rewrite map_app. Qed.

(** One operation: no id announced, [next_id] kept and records at most
    removed; or one record more, with the id [next_id] had, announced,
    and [next_id] one up. *)
Lemma run_op_step o w :
  let w' := snd (run_op E o w) in
  exists seg,
    log w' = log w ++ seg
    /\ ((assigned seg = []
         /\ next_id (loaded w') = next_id (loaded w)
         /\ sublist (threads (loaded w')) (threads (loaded w)))
        \/ exists k info,
            assigned seg = [next_id (loaded w)]
            /\ loaded w' = mkRegistry (threads (loaded w) ++ [(k, info)])
                             (next_id (loaded w) + 1)
            /\ ti_id info = next_id (loaded w)).
Proof.
  cbv zeta. destruct o as [board thread_id check_interval | tracking_id force |];
    cbn [run_op].
  - destruct (add_thread_cases E board thread_id check_interval w)
      as (o & w' & seg & -> & Hlog & [[Hf Ha] | (info & Hf & Hid & _ & _ & _ & Ha)]);
      cbn [snd]; exists seg; (split; [exact Hlog |]).
    + left. unfold loaded. rewrite Hf. auto using sublist_refl.
    + right. exists (thread_key board thread_id), info.
      unfold loaded at 2. rewrite Hf. auto.
  - destruct (remove_thread_shrinks tracking_id force w)
      as (o & w' & seg & -> & Hlog & Ha & Hn & Hs).
    cbn [snd]. exists seg. auto.
  - destruct (cleanup_old_threads_shrinks w) as (o & w' & seg & -> & Hlog & Ha & Hn & Hs).
    cbn [snd]. exists seg. auto.
Qed.

Lemma ids_below_next_shrink r r' :
  next_id r' = next_id r -> sublist (threads r') (threads r) ->
  ids_below_next r -> ids_below_next r'.
Proof.
  unfold ids_below_next, ids. intros -> Hs.
  apply sublist_Forall. now apply sublist_map.
Qed.

Lemma ids_below_next_grow r k info :
  ti_id info = next_id r -> ids_below_next r ->
  ids_below_next (mkRegistry (threads r ++ [(k, info)]) (next_id r + 1)).
Proof.
  unfold ids_below_next. intros Hid H. rewrite ids_app. cbn [next_id].
  apply Forall_app. split.
  - eapply Forall_impl; [| exact H]. intros; cbn beta in *; lia.
  - constructor; [lia | constructor].
Qed.

Lemma NoDup_ids_grow r k info :
  ti_id info = next_id r -> ids_below_next r -> NoDup (ids r) ->
  NoDup (ids (mkRegistry (threads r ++ [(k, info)]) (next_id r + 1))).
Proof.
  unfold ids_below_next. intros Hid H Hnd. rewrite ids_app.
  apply NoDup_app; [exact Hnd | repeat constructor; simpl; tauto |].
  intros i Hi [<- | []]. rewrite Forall_forall in H. specialize (H _ Hi). lia.
Qed.

End IdFacts.

Section SequenceFacts.

Variable E : env.

(** Along any sequence of operations the announced ids grow strictly,
    lie between the first and the last [next_id], and [next_id] stays
    above every id on file. *)
Lemma run_ops_ids os w :
  ids_below_next (loaded w) ->
  exists seg,
    log (run_ops E os w) = log w ++ seg
    /\ StronglySorted Z.lt (assigned seg)
    /\ Forall (fun i => next_id (loaded w) <= i < next_id (loaded (run_ops E os w)))
         (assigned seg)
    /\ ids_below_next (loaded (run_ops E os w))
    /\ next_id (loaded w) <= next_id (loaded (run_ops E os w))
    /\ (NoDup (ids (loaded w)) -> NoDup (ids (loaded (run_ops E os w)))).
Proof.
  revert w. induction os as [|o os IH]; intros w Hinv; cbn [run_ops].
  - exists []. rewrite app_nil_r. cbn [assigned].
    repeat split; auto; try constructor; lia.
  - destruct (run_op_step E o w) as (seg1 & Hlog1 & Hstep).
    set (w1 := snd (run_op E o w)) in *.
    destruct Hstep as [(Ha & Hn & Hs) | (k & info & Ha & Hl & Hid)].
    + assert (Hinv1 : ids_below_next (loaded w1))
        by (eapply ids_below_next_shrink; eauto).
      destruct (IH w1 Hinv1) as (seg2 & Hlog2 & Hsort & Hbound & Hbelow & Hle & Hnd).
      exists (seg1 ++ seg2). rewrite Hlog2, Hlog1, app_assoc, assigned_app, Ha.
      cbn [app]. rewrite <- Hn.
      repeat split; auto.
      intros H. apply Hnd. revert H. apply sublist_NoDup.
      unfold ids. now apply sublist_map.
    + assert (Hinv1 : ids_below_next (loaded w1))
        by (rewrite Hl; now apply ids_below_next_grow).
      destruct (IH w1 Hinv1) as (seg2 & Hlog2 & Hsort & Hbound & Hbelow & Hle & Hnd).
      assert (Hn1 : next_id (loaded w1) = next_id (loaded w) + 1) by now rewrite Hl.
      exists (seg1 ++ seg2). rewrite Hlog2, Hlog1, app_assoc, assigned_app, Ha.
      cbn [app].
      split; [reflexivity |]. split; [| split; [| split; [| split]]].
      * constructor; [exact Hsort |].
        eapply Forall_impl; [| exact Hbound]. intros; cbn beta in *; lia.
      * constructor; [lia |].
        eapply Forall_impl; [| exact Hbound]. intros; cbn beta in *; lia.
      * exact Hbelow.
      * lia.
      * intros H. apply Hnd. rewrite Hl. now apply NoDup_ids_grow.
Qed.

End SequenceFacts.

(** C3. From a registry whose [next_id] exceeds every id in it, along
    any sequence of add, remove and expire operations: the tracking ids
    announced by the adds grow strictly and are at least the first
    [next_id], [next_id] never goes down and stays above every id on
    file, and ids that were distinct stay distinct, so no id is given
    twice and no freed id comes back. Step by step, an add that stores
    a record gives it the current [next_id] and puts [next_id] one up;
    a removal or a sweep keeps [next_id] and only takes records away. *)
Theorem tracking_ids_are_never_reused (E : env) (os : list op) (w : world) :
  ids_below_next (loaded w) ->
  (exists seg,
      log (run_ops E os w) = log w ++ seg
      /\ StronglySorted Z.lt (assigned seg)
      /\ Forall (fun i => next_id (loaded w) <= i
                          /\ i < next_id (loaded (run_ops E os w)))
           (assigned seg))
  /\ ids_below_next (loaded (run_ops E os w))
  /\ next_id (loaded w) <= next_id (loaded (run_ops E os w))
  /\ (NoDup (ids (loaded w)) -> NoDup (ids (loaded (run_ops E os w))))
  /\ (forall board thread_id check_interval w0,
        let w1 := snd (add_thread E board thread_id check_interval w0) in
        file w1 = file w0
        \/ exists info,
            loaded w1 = mkRegistry
                          (threads (loaded w0) ++ [(thread_key board thread_id, info)])
                          (next_id (loaded w0) + 1)
            /\ ti_id info = next_id (loaded w0))
  /\ (forall tracking_id force w0,
        let w1 := snd (remove_thread E tracking_id force w0) in
        next_id (loaded w1) = next_id (loaded w0)
        /\ sublist (threads (loaded w1)) (threads (loaded w0)))
  /\ (forall w0,
        let w1 := snd (cleanup_old_threads E w0) in
        next_id (loaded w1) = next_id (loaded w0)
        /\ sublist (threads (loaded w1)) (threads (loaded w0))).
Proof.
  intros Hinv.
  destruct (run_ops_ids E os w Hinv) as (seg & Hlog & Hsort & Hbound & Hbelow & Hle & Hnd).
  split; [exists seg; auto |].
  split; [exact Hbelow |]. split; [exact Hle |]. split; [exact Hnd |].
  split; [| split].
  - intros board thread_id check_interval w0. cbv zeta.
    destruct (add_thread_cases E board thread_id check_interval w0)
      as (o & w1 & s & -> & _ & [[Hf _] | (info & Hf & Hid & _)]); cbn [snd].
    + now left.
    + right. exists info. unfold loaded at 1. rewrite Hf. now split.
  - intros tracking_id force w0. cbv zeta.
    destruct (remove_thread_shrinks E tracking_id force w0)
      as (o & w1 & s & -> & _ & _ & Hn & Hs). now split.
  - intros w0. cbv zeta.
    destruct (cleanup_old_threads_shrinks E w0) as (o & w1 & s & -> & _ & _ & Hn & Hs).
    now split.
Qed.

Lemma tracking_ids_are_never_reused_witness :
  let E := Sample.env_of Sample.two_new 2000 in
  let os := [Add "g" "55" 120; Remove 1 true; Add "g" "55" 120; Expire] in
  let w := mkWorld NoFile [] in
  assigned (log (run_ops E os w)) = [1; 2]
  /\ ids_below_next (loaded (run_ops E os w))
  /\ next_id (loaded w) <= next_id (loaded (run_ops E os w)).
Proof.
  cbv zeta. split; [reflexivity |].
  destruct (tracking_ids_are_never_reused (Sample.env_of Sample.two_new 2000)
              [Add "g" "55" 120; Remove 1 true; Add "g" "55" 120; Expire]
              (mkWorld NoFile []) ltac:(constructor))
    as (_ & Hbelow & Hle & _).
  split; [exact Hbelow | exact Hle].
Defined.

(* ================================================================= *)
(** ** Further properties: text *)

Section TextFacts.

Local Open Scope string_scope.

Lemma delete_from_length p k s :
  (String.length (Re.delete_from p k s) <= String.length s)%nat.
Proof.
  revert k. induction s as [|c s IH]; intros k; cbn [Re.delete_from String.length].
  - lia.
  - destruct k as [|k]; [| specialize (IH k); lia].
    destruct (Re.re_match p (String c s)) as [[groups rest]|]; cbn [String.length];
      match goal with
      | |- context [Re.delete_from p ?j s] => specialize (IH j); lia
      end.
Qed.

(** Skipping the characters of a match resumes the scan after it. *)
Lemma delete_from_skip p a s :
  Re.delete_from p (String.length a) (a ++ s) = Re.delete_from p O s.
Proof. induction a as [|c a IH]; [reflexivity | exact IH]. Qed.

Lemma tag_match t s :
  t <> "" -> Str.all (Re.other_than ">") t = true ->
  Re.re_match tag_pattern (String "<" (t ++ String ">" s)) = Some ([], s).
Proof.
  intros Ht Hall. unfold tag_pattern. cbn [Re.re_match].
  change (Ascii.eqb "<" "<") with true. cbv iota.
  change (Re.backtrack _ _)
    with (Re.re_match [Re.Plus false (Re.other_than ">"); Re.Lit ">"]
            (t ++ String ">" s)).
  rewrite re_match_until, (run_length_split _ t) by (auto; reflexivity).
  apply nonempty_length in Ht.
  destruct (String.length t) as [|n] eqn:Hn; [lia |].
  cbv zeta. rewrite <- Hn, drop_append. reflexivity.
Qed.

Lemma truncate_length n s : (String.length (truncate n s) <= n + 3)%nat.
Proof.
  unfold truncate. destruct (Nat.ltb_spec n (String.length s)).
  - rewrite length_append, length_take by lia. simpl. lia.
  - lia.
Qed.

Lemma take_take_append n s r : (n <= String.length s)%nat ->
  Str.take n (Str.take n s ++ r) = Str.take n s.
Proof.
  intros H. rewrite <- (length_take n s H) at 1. apply take_append.
Qed.

Lemma digit_not_underscore c : Re.digit c = true -> Re.other_than "_" c = true.
Proof.
  unfold Re.other_than. destruct (Ascii.eqb_spec "_" c) as [<- |]; [| reflexivity].
  discriminate.
Qed.

Lemma all_impl (p q : ascii -> bool) s :
  (forall c, p c = true -> q c = true) -> Str.all p s = true -> Str.all q s = true.
Proof.
  intros H. induction s as [|c s IH]; simpl; [reflexivity |].
  intros Hs. apply andb_prop in Hs as [Hc Hs]. now rewrite (H _ Hc), IH.
Qed.

Lemma all_append_sep (p : ascii -> bool) a c b :
  p c = false -> Str.all p (a ++ String c b) = false.
Proof.
  intros Hc. induction a as [|x a IH]; simpl; [now rewrite Hc |].
  rewrite IH. apply andb_false_r.
Qed.

(** The last underscore of a key splits it. *)
Lemma key_split b t b' t' :
  Str.all (Re.other_than "_") t = true -> Str.all (Re.other_than "_") t' = true ->
  b ++ String "_" t = b' ++ String "_" t' -> b = b' /\ t = t'.
Proof.
  intros Ht Ht'. revert b'. induction b as [|c b IH]; intros [|c' b']; simpl; intros H.
  - now injection H.
  - injection H as <- ->. now rewrite all_append_sep in Ht.
  - injection H as -> <-. now rewrite all_append_sep in Ht'.
  - injection H as -> H. destruct (IH b' H) as [-> ->]. now split.
Qed.

End TextFacts.

(** X1. On a string of 8-bit characters, what [parse_thread_url]
    returns is the board and the thread number of a canonical URL at
    the start of the string: the board is not empty and has no slash,
    the thread id is not empty and all digits [0-9]. The only exception
    it raises is [ValueError]. *)
Theorem parse_thread_url_sound (url : string) :
  (forall board thread_id,
      parse_thread_url url = Ok (board, thread_id) ->
      starts_canonical url board thread_id)
  /\ (forall e, parse_thread_url url = Raise e ->
                e = ValueError ("Invalid 4chan thread URL: " ++ url)).
Proof.
  rewrite parse_thread_url_scan.
  destruct (scan_thread_url url) as [[[b t] r]|] eqn:Hs; split.
  - intros board thread_id [= <- <-]. exists r. now apply scan_thread_url_sound.
  - discriminate.
  - discriminate.
  - now intros e [= <-].
Qed.

Lemma parse_thread_url_sound_witness :
  starts_canonical "https://boards.4chan.org/g/thread/123/" "g" "123".
Proof.
  apply (proj1 (parse_thread_url_sound "https://boards.4chan.org/g/thread/123/")).
  reflexivity.
Defined.

(** X2. Two pairs whose thread ids are all digits, as the URL parser
    returns them, never share a registry key. *)
Theorem thread_key_injective_on_numbers (board thread_id board' thread_id' : string) :
  Str.all Re.digit thread_id = true ->
  Str.all Re.digit thread_id' = true ->
  thread_key board thread_id = thread_key board' thread_id' ->
  board = board' /\ thread_id = thread_id'.
Proof.
  intros H H'. unfold thread_key. apply key_split.
  - revert H. apply all_impl, digit_not_underscore.
  - revert H'. apply all_impl, digit_not_underscore.
Qed.

Lemma thread_key_injective_on_numbers_witness :
  "g"%string = "g"%string /\ "55"%string = "55"%string.
Proof.
  exact (thread_key_injective_on_numbers "g" "55" "g" "55" eq_refl eq_refl eq_refl).
Defined.

(** X3. Stripping tags never makes a text longer, leaves a text
    without [<] as it is, and deletes a tag at the start of a text: an
    opening [<], one or more characters other than [>], and the [>]. *)
Theorem strip_tags_spec (s : string) :
  (String.length (strip_tags s) <= String.length s)%nat
  /\ (Str.all (Re.other_than "<") s = true -> strip_tags s = s)
  /\ (forall t,
        t <> ""%string -> Str.all (Re.other_than ">") t = true ->
        strip_tags (String "<" (t ++ String ">" s)) = strip_tags s).
Proof.
  split; [apply delete_from_length | split; [apply strip_tags_plain |]].
  intros t Ht Hall. unfold strip_tags, Re.sub_delete.
  cbn [Re.delete_from]. rewrite (tag_match t s Ht Hall).
  cbn [String.length]. rewrite length_append. cbn [String.length].
  replace (S (String.length t + S (String.length s)) - String.length s - 1)%nat
    with (String.length (t ++ ">")%string)
    by (rewrite length_append; cbn [String.length]; lia).
  replace (t ++ String ">" s)%string with ((t ++ ">") ++ s)%string
    by (rewrite append_assoc; reflexivity).
  apply delete_from_skip.
Qed.

Lemma strip_tags_spec_witness :
  strip_tags "plain text" = "plain text"%string
  /\ strip_tags "<br>plain text" = strip_tags "plain text".
Proof.
  split.
  - apply (proj1 (proj2 (strip_tags_spec "plain text"))). reflexivity.
  - apply (proj2 (proj2 (strip_tags_spec "plain text")) "br"%string);
      [discriminate | reflexivity].
Defined.

(** X4. A text cut to [n] characters has at most [n + 3] characters,
    starts as the text starts, and is the text itself when the text
    has at most [n] characters. The cut is used for titles (50), for
    notifications (200) and for the rows of the listing (20). *)
Theorem truncate_spec (n : nat) (s : string) :
  (String.length (truncate n s) <= n + 3)%nat
  /\ Str.take n (truncate n s) = Str.take n s
  /\ ((String.length s <= n)%nat -> truncate n s = s)
  /\ ((n < String.length s)%nat ->
      String.length (truncate n s) = (n + 3)%nat).
Proof.
  split; [apply truncate_length |]. split; [| split].
  - unfold truncate. destruct (Nat.ltb_spec n (String.length s)); [| reflexivity].
    apply take_take_append. lia.
  - apply truncate_short.
  - intros H. rewrite truncate_long by exact H.
    rewrite length_append, length_take by lia. reflexivity.
Qed.

Lemma truncate_spec_witness :
  truncate 5 "abc" = "abc"%string /\ String.length (truncate 5 "abcdefgh") = 8%nat.
Proof.
  split.
  - apply (proj1 (proj2 (proj2 (truncate_spec 5 "abc")))). simpl. lia.
  - apply (proj2 (proj2 (proj2 (truncate_spec 5 "abcdefgh")))). simpl. lia.
Defined.

(* ================================================================= *)
(** ** Further properties: the listing *)

Section ListingFacts.

Variable E : env.











Lemma keeps_file_ret {A : Type} (a : A) : keeps_file (ret a).
Proof. now intros w. Qed.

Lemma keeps_file_bind {A B : Type} (m : M A) (k : A -> M B) :
  keeps_file m -> (forall a, keeps_file (k a)) -> keeps_file (bind m k).
Proof.
  intros Hm Hk w. specialize (Hm w). unfold bind.
  destruct (m w) as [[a | e |] w1]; cbn [snd] in *; auto.
  now rewrite Hk.
Qed.

Lemma keeps_file_for_each {A : Type} (xs : list A) (body : A -> M unit) :
  (forall x, keeps_file (body x)) -> keeps_file (for_each xs body).
Proof.
  intros H. induction xs as [|x xs IH]; cbn [for_each].
  - apply keeps_file_ret.
  - apply keeps_file_bind; auto.
Qed.

Lemma keeps_file_print m : keeps_file (print m).
Proof. now intros w. Qed.

Lemma keeps_file_load : keeps_file load_tracking_data.
Proof. now intros w. Qed.

Lemma keeps_file_now : keeps_file (now E).
Proof. now intros w. Qed.

Lemma keeps_file_lift {A : Type} (r : result A) : keeps_file (lift r).
Proof. now destruct r; intros w. Qed.

Lemma keeps_file_list_threads : keeps_file (list_threads E).
Proof.
  unfold list_threads. apply keeps_file_bind; [apply keeps_file_load |].
  intros data. destruct (threads data); [apply keeps_file_print |].
  apply keeps_file_for_each; intros board.
  apply keeps_file_bind; [apply keeps_file_print |]; intros _.
  apply keeps_file_for_each; intros thread.
  apply keeps_file_bind; [apply keeps_file_lift |]; intros last_update.
  apply keeps_file_bind; [| intros current; apply keeps_file_print].
  apply keeps_file_bind; [apply keeps_file_now |]; intros t0.
  apply keeps_file_lift.
Qed.

Lemma list_threads_no_save : emits_only not_save (list_threads E).
Proof.
  unfold list_threads. apply emits_only_bind; [now apply emits_only_load |].
  intros data. destruct (threads data); [now apply emits_only_print |].
  apply emits_only_for_each; intros board.
  apply emits_only_bind; [now apply emits_only_print |]; intros _.
  apply emits_only_for_each; intros thread.
  apply emits_only_bind; [apply emits_only_lift |]; intros last_update.
  apply emits_only_bind; [| intros current; now apply emits_only_print].
  apply emits_only_bind; [now apply emits_only_now |]; intros t0.
  apply emits_only_lift.
Qed.

Lemma not_save_filter seg : Forall not_save seg -> filter is_save seg = [].
Proof.
  induction 1 as [|e seg He _ IH]; [reflexivity |].
  cbn [filter]. unfold not_save in He. now rewrite He.
Qed.

End ListingFacts.




(** X8. Listing is read-only: however it ends, the file is as it was
    and nothing was saved. On a registry without records (also when
    there is no file, or the file fails to open or to parse in a way
    the loader handles) all it prints is that no thread is tracked. *)
Theorem list_threads_read_only (E : env) (w : world) :
  file (snd (list_threads E w)) = file w
  /\ (exists seg,
        log (snd (list_threads E w)) = log w ++ seg
        /\ filter is_save seg = [])
  /\ (threads (loaded w) = [] ->
      list_threads E w
      = (Done tt, mkWorld (file w) (log w ++ [EvLoad; EvPrint MsgNoThreads]))).
Proof.
  split; [apply keeps_file_list_threads | split].
  - destruct (list_threads_no_save E w) as (seg & Hlog & Hseg).
    exists seg. split; [exact Hlog | now apply not_save_filter].
  - intros H. unfold list_threads.
    rewrite (bind_done _ _ _ _ _ (load_run w)), H.
    unfold print, emit; cbn [file log]. now rewrite <- app_assoc.
Qed.

Lemma list_threads_read_only_witness :
  list_threads (Sample.env_of Sample.gone 2000) (mkWorld Unreadable [])
  = (Done tt, mkWorld Unreadable [EvLoad; EvPrint MsgNoThreads]).
Proof.
  apply (proj2 (proj2 (list_threads_read_only (Sample.env_of Sample.gone 2000)
                         (mkWorld Unreadable [])))).
  reflexivity.
Defined.

(* ================================================================= *)
(** ** Further properties: the store and adding *)

Section StoreFacts.

Variable E : env.

Lemma get_app_new {V : Type} k (v : V) d :
  Dict.get k d = None -> Dict.get k (d ++ [(k, v)]) = Some v.
Proof.
  induction d as [|[k' v'] d IH]; simpl.
  - now rewrite String.eqb_refl.
  - destruct (String.eqb k k'); [discriminate | exact IH].
Qed.

Lemma del_app_new {V : Type} k (v : V) d :
  Dict.get k d = None -> Dict.del k (d ++ [(k, v)]) = d.
Proof.
  induction d as [|[k' v'] d IH]; simpl.
  - now rewrite String.eqb_refl.
  - destruct (String.eqb k k'); [discriminate |]. intros H. now rewrite IH.
Qed.

Lemma calls_emit_other kind e w : kind e = false -> calls kind (emit e w) = calls kind w.
Proof. intros H. rewrite calls_emit, H. apply Nat.add_0_r. Qed.

Lemma log3 (l : list event) a b : (l ++ [a]) ++ [b] = l ++ [a; b].
Proof. now rewrite <- app_assoc. Qed.

(** The run of an [add_thread] that stores a record. *)
Lemma add_thread_run_new board thread_id check_interval w td first rest n :
  Dict.get (thread_key board thread_id) (threads (loaded w)) = None ->
  urlopen E (calls is_fetch w) = ReplyJSON td ->
  td_posts td = Some (first :: rest) ->
  last_post_no_of td = Ok n ->
  let info := new_record E w board thread_id check_interval first n in
  let data := registry_with w (thread_key board thread_id) info in
  add_thread E board thread_id check_interval w
  = (Done tt,
     mkWorld (Stored data)
       (log w ++ [EvLoad; EvFetch board thread_id; EvTime; EvTime; EvSave data;
                  EvPrint (MsgNowTracking board thread_id (title_of_post first)
                             (next_id (loaded w)))])).
Proof.
  intros Hget Hreply Hposts Hlast. cbv zeta. unfold add_thread.
  rewrite (bind_done _ _ _ _ _ (load_run w)). cbv zeta.
  unfold Dict.mem. rewrite Hget.
  assert (Hreply' : urlopen E (calls is_fetch (emit EvLoad w)) = ReplyJSON td)
    by (rewrite calls_emit_other by reflexivity; exact Hreply).
  rewrite (bind_done _ _ _ _ _
             (fetch_json E board thread_id (emit EvLoad w) td Hreply')).
  unfold fetched, json_truthy, td_truthy. rewrite Hposts.
  cbn [object_of lift]. rewrite bind_ret_l.
  rewrite Hlast. cbn [lift]. rewrite bind_ret_l.
  unfold get_thread_title, td_truthy. rewrite Hposts. cbn [negb lift].
  rewrite bind_ret_l.
  unfold bind at 1, now at 1. rewrite !calls_emit_other by reflexivity.
  unfold bind at 1, now at 1. rewrite calls_emit. cbn [is_time].
  rewrite !calls_emit_other by reflexivity. rewrite Nat.add_1_r.
  rewrite (set_new _ _ _ Hget).
  unfold bind, save_tracking_data, print, emit; cbn [file log].
  unfold registry_with, new_record. now rewrite <- !app_assoc.
Qed.

(** The run of an [add_thread] whose request gives nothing. *)
Lemma add_thread_run_unfetchable board thread_id check_interval w :
  Dict.get (thread_key board thread_id) (threads (loaded w)) = None ->
  unfetchable (urlopen E (calls is_fetch w)) ->
  add_thread E board thread_id check_interval w
  = (Done tt,
     mkWorld (file w)
       (log w ++ [EvLoad; EvFetch board thread_id]
          ++ fetch_lines (urlopen E (calls is_fetch w))
          ++ [EvPrint (MsgCouldNotFetch board thread_id)])).
Proof.
  intros Hget Hr. unfold add_thread.
  rewrite (bind_done _ _ _ _ _ (load_run w)). cbv zeta.
  unfold Dict.mem. rewrite Hget.
  unfold bind at 1, fetch_thread_data. rewrite calls_emit_other by reflexivity.
  destruct Hr as [Hr | [(why & Hr) | (td & Hr & Htd)]]; rewrite Hr.
  - change (404 =? 404) with true. cbv iota. cbn [fetched fetch_lines].
    unfold print, emit; cbn [file log app]. now rewrite <- !app_assoc.
  - cbn [fetched fetch_lines].
    unfold print, emit; cbn [file log app]. now rewrite <- !app_assoc.
  - cbn [fetched json_truthy fetch_lines]. rewrite Htd.
    unfold print, emit; cbn [file log app]. now rewrite <- !app_assoc.
Qed.

End StoreFacts.

(** X9. Adding a thread that is not tracked, when the request gives
    a snapshot with posts whose last post has number [n]: the record
    goes to the end of the registry with the current [next_id] as id,
    the title of the first post, [n] as cursor, the two clock readings
    and the interval of the call; [next_id] goes one up; the registry is
    saved once, after one request; the other records are untouched, and
    the new record is found under its key. *)
Theorem add_thread_tracks_new_thread (E : env) (board thread_id : string)
    (check_interval : Z) (w : world) (td : thread_data) (first : post)
    (rest : list post) (n : Z) :
  Dict.get (thread_key board thread_id) (threads (loaded w)) = None ->
  urlopen E (calls is_fetch w) = ReplyJSON td ->
  td_posts td = Some (first :: rest) ->
  last_post_no_of td = Ok n ->
  let info := new_record E w board thread_id check_interval first n in
  let data := registry_with w (thread_key board thread_id) info in
  add_thread E board thread_id check_interval w
  = (Done tt,
     mkWorld (Stored data)
       (log w ++ [EvLoad; EvFetch board thread_id; EvTime; EvTime; EvSave data;
                  EvPrint (MsgNowTracking board thread_id (title_of_post first)
                             (next_id (loaded w)))]))
  /\ Dict.get (thread_key board thread_id) (threads data) = Some info
  /\ (forall k, k <> thread_key board thread_id ->
                Dict.get k (threads data) = Dict.get k (threads (loaded w))).
Proof.
  intros Hget Hreply Hposts Hlast. cbv zeta.
  split; [now apply (add_thread_run_new E _ _ _ _ td first rest n) |].
  unfold registry_with; cbn [threads]. split; [now apply get_app_new |].
  intros k Hk. induction (threads (loaded w)) as [|[k' v'] d IH]; simpl.
  - destruct (String.eqb_spec k (thread_key board thread_id)); [contradiction | reflexivity].
  - destruct (String.eqb k k'); [reflexivity |]. apply IH.
    simpl in Hget. destruct (String.eqb (thread_key board thread_id) k');
      [discriminate | exact Hget].
Qed.

Lemma add_thread_tracks_new_thread_witness :
  add_thread (Sample.env_of Sample.two_new 2000) "g" "55" 120 (mkWorld NoFile [])
  = (Done tt,
     mkWorld
       (Stored (mkRegistry
                  [("g_55", mkThreadInfo 1 "g" "55" "hi" 13 2000 120 2000)] 2))
       [EvLoad; EvFetch "g" "55"; EvTime; EvTime;
        EvSave (mkRegistry
                  [("g_55", mkThreadInfo 1 "g" "55" "hi" 13 2000 120 2000)] 2);
        EvPrint (MsgNowTracking "g" "55" "hi" 1)]).
Proof.
  exact (proj1 (add_thread_tracks_new_thread (Sample.env_of Sample.two_new 2000)
                  "g" "55" 120 (mkWorld NoFile [])
                  (Sample.snapshot [10; 11; 12; 13])
                  (mkPost (Some 10) None (Some "<b>hi</b>"%string))
                  (map (fun n => mkPost (Some n) None (Some "<b>hi</b>"%string))
                     [11; 12; 13])
                  13 eq_refl eq_refl eq_refl eq_refl)).
Defined.

(** X10. Adding a thread whose request gives nothing (HTTP 404, a
    failed request, an empty JSON object) changes nothing: after the one
    request the call prints that the thread could not be fetched and
    returns; the file is as before and nothing is saved. *)
Theorem add_thread_unfetchable (E : env) (board thread_id : string)
    (check_interval : Z) (w : world) :
  Dict.get (thread_key board thread_id) (threads (loaded w)) = None ->
  unfetchable (urlopen E (calls is_fetch w)) ->
  exists seg,
    add_thread E board thread_id check_interval w
    = (Done tt, mkWorld (file w) (log w ++ seg))
    /\ filter is_save seg = []
    /\ filter is_fetch seg = [EvFetch board thread_id]
    /\ In (EvPrint (MsgCouldNotFetch board thread_id)) seg.
Proof.
  intros Hget Hr. eexists. split; [now apply add_thread_run_unfetchable |].
  destruct (urlopen E (calls is_fetch w));
    cbn [fetch_lines app filter is_save is_fetch];
    (split; [reflexivity | split; [reflexivity | simpl; tauto]]).
Qed.

Lemma add_thread_unfetchable_witness :
  exists seg,
    add_thread (Sample.env_of Sample.down 2000) "g" "55" 120 (mkWorld NoFile [])
    = (Done tt, mkWorld NoFile ([] ++ seg))
    /\ filter is_save seg = []
    /\ filter is_fetch seg = [EvFetch "g" "55"]
    /\ In (EvPrint (MsgCouldNotFetch "g" "55")) seg.
Proof.
  apply (add_thread_unfetchable (Sample.env_of Sample.down 2000) "g" "55" 120
           (mkWorld NoFile [])).
  - reflexivity.
  - right. left. now eexists.
Defined.

Section AddMoreFacts.

Variable E : env.

Lemma find_by_id_app_new tracking_id k info (d : Dict.t thread_info) :
  Forall (fun i => i < tracking_id) (map (fun kv => ti_id (snd kv)) d) ->
  ti_id info = tracking_id ->
  find_by_id tracking_id (d ++ [(k, info)]) = Some (k, info).
Proof.
  intros Hd Hi. induction d as [|[k' v'] d IH]; cbn [find_by_id app].
  - rewrite Hi, Z.eqb_refl. reflexivity.
  - cbn [map snd] in Hd. inversion Hd as [|? ? Hlt Hd']; subst.
    destruct (Z.eqb_spec (ti_id v') (ti_id info)); [lia | now apply IH].
Qed.

End AddMoreFacts.

(** X12. After an [add_thread] that stored a record, adding the same
    pair again, with any interval and whatever the network would
    reply, changes nothing: no request, no save, the file as it is. *)
Theorem add_thread_again_is_noop (E E' : env) (board thread_id : string)
    (check_interval check_interval' : Z) (w : world) (td : thread_data)
    (first : post) (rest : list post) (n : Z) :
  Dict.get (thread_key board thread_id) (threads (loaded w)) = None ->
  urlopen E (calls is_fetch w) = ReplyJSON td ->
  td_posts td = Some (first :: rest) ->
  last_post_no_of td = Ok n ->
  let w1 := snd (add_thread E board thread_id check_interval w) in
  add_thread E' board thread_id check_interval' w1
  = (Done tt,
     mkWorld (file w1)
       (log w1 ++ [EvLoad; EvPrint (MsgAlreadyTracked board thread_id)])).
Proof.
  intros Hget Hreply Hposts Hlast. cbv zeta.
  rewrite (add_thread_run_new E _ _ check_interval w td first rest n
             Hget Hreply Hposts Hlast).
  cbn [snd]. apply add_thread_present.
  unfold loaded, registry_with, Dict.mem; cbn [file threads].
  now rewrite (get_app_new _ _ _ Hget).
Qed.

Lemma add_thread_again_is_noop_witness :
  let w1 := snd (add_thread (Sample.env_of Sample.two_new 2000) "g" "55" 120
                   (mkWorld NoFile [])) in
  add_thread (Sample.env_of Sample.down 3000) "g" "55" 30 w1
  = (Done tt,
     mkWorld (file w1) (log w1 ++ [EvLoad; EvPrint (MsgAlreadyTracked "g" "55")])).
Proof.
  exact (add_thread_again_is_noop (Sample.env_of Sample.two_new 2000)
           (Sample.env_of Sample.down 3000) "g" "55" 120 30 (mkWorld NoFile [])
           (Sample.snapshot [10; 11; 12; 13])
           (mkPost (Some 10) None (Some "<b>hi</b>"%string))
           (map (fun n => mkPost (Some n) None (Some "<b>hi</b>"%string))
              [11; 12; 13])
           13 eq_refl eq_refl eq_refl eq_refl).
Defined.

(** X13. Adding a thread and then removing it by the id it was given
    (with [force]) gives back the records the registry had, while
    [next_id] stays one up: the id is spent. *)
Theorem add_then_remove_restores_records (E E' : env) (board thread_id : string)
    (check_interval : Z) (w : world) (td : thread_data)
    (first : post) (rest : list post) (n : Z) :
  ids_below_next (loaded w) ->
  Dict.get (thread_key board thread_id) (threads (loaded w)) = None ->
  urlopen E (calls is_fetch w) = ReplyJSON td ->
  td_posts td = Some (first :: rest) ->
  last_post_no_of td = Ok n ->
  let w1 := snd (add_thread E board thread_id check_interval w) in
  let back := mkRegistry (threads (loaded w)) (next_id (loaded w) + 1) in
  remove_thread E' (next_id (loaded w)) true w1
  = (Done tt,
     mkWorld (Stored back)
       (log w1 ++ [EvLoad; EvSave back;
                   EvPrint (MsgStoppedTracking (next_id (loaded w)))])).
Proof.
  intros Hinv Hget Hreply Hposts Hlast. cbv zeta.
  rewrite (add_thread_run_new E _ _ check_interval w td first rest n
             Hget Hreply Hposts Hlast).
  cbn [snd].
  match goal with
  | |- remove_thread _ _ _ ?w1 = _ =>
      set (ww := w1);
      assert (Hl : loaded ww
                   = registry_with w (thread_key board thread_id)
                       (new_record E w board thread_id check_interval first n))
        by reflexivity
  end.
  unfold remove_thread. rewrite (bind_done _ _ _ _ _ (load_run ww)), Hl.
  unfold registry_with; cbn [threads next_id].
  rewrite (find_by_id_app_new (next_id (loaded w)) _ _ _ Hinv) by reflexivity.
  cbv beta iota zeta. rewrite (del_app_new _ _ _ Hget).
  unfold bind, save_tracking_data, print, emit. subst ww. cbn [file log].
  now rewrite <- !app_assoc.
Qed.

Lemma add_then_remove_restores_records_witness :
  file (snd (remove_thread (Sample.env_of Sample.down 3000) 1 true
               (snd (add_thread (Sample.env_of Sample.two_new 2000) "g" "55" 120
                       (mkWorld NoFile [])))))
  = Stored (mkRegistry [] 2).
Proof.
  exact (f_equal (fun r => file (snd r))
           (add_then_remove_restores_records (Sample.env_of Sample.two_new 2000)
              (Sample.env_of Sample.down 3000) "g" "55" 120 (mkWorld NoFile [])
              (Sample.snapshot [10; 11; 12; 13])
              (mkPost (Some 10) None (Some "<b>hi</b>"%string))
              (map (fun n => mkPost (Some n) None (Some "<b>hi</b>"%string))
                 [11; 12; 13])
              13 ltac:(constructor) eq_refl eq_refl eq_refl eq_refl)).
Defined.

(** X14. When the file is absent or unreadable, a successful add
    starts from the empty registry: the stored registry holds the new
    record alone, with tracking id 1 and [next_id] 2, and whatever the
    file held before is overwritten. *)
Theorem add_thread_on_lost_file_restarts_ids (E : env) (board thread_id : string)
    (check_interval : Z) (w : world) (td : thread_data) (first : post)
    (rest : list post) (n : Z) :
  file w = NoFile \/ file w = Unreadable ->
  urlopen E (calls is_fetch w) = ReplyJSON td ->
  td_posts td = Some (first :: rest) ->
  last_post_no_of td = Ok n ->
  exists info,
    file (snd (add_thread E board thread_id check_interval w))
    = Stored (mkRegistry [(thread_key board thread_id, info)] 2)
    /\ ti_id info = 1.
Proof.
  intros Hfile Hreply Hposts Hlast.
  assert (Hempty : loaded w = empty_registry)
    by (unfold loaded; now destruct Hfile as [-> | ->]).
  assert (Hget : Dict.get (thread_key board thread_id) (threads (loaded w)) = None)
    by now rewrite Hempty.
  rewrite (add_thread_run_new E _ _ check_interval w td first rest n
             Hget Hreply Hposts Hlast).
  cbn [snd file]. unfold registry_with, new_record. rewrite Hempty.
  eexists. split; reflexivity.
Qed.

Lemma add_thread_on_lost_file_restarts_ids_witness :
  exists info,
    file (snd (add_thread (Sample.env_of Sample.two_new 2000) "g" "55" 120
                 (mkWorld Unreadable [])))
    = Stored (mkRegistry [(thread_key "g" "55", info)] 2)
    /\ ti_id info = 1.
Proof.
  exact (add_thread_on_lost_file_restarts_ids (Sample.env_of Sample.two_new 2000)
           "g" "55" 120 (mkWorld Unreadable [])
           (Sample.snapshot [10; 11; 12; 13])
           (mkPost (Some 10) None (Some "<b>hi</b>"%string))
           (map (fun n => mkPost (Some n) None (Some "<b>hi</b>"%string))
              [11; 12; 13])
           13 (or_intror eq_refl) eq_refl eq_refl eq_refl).
Defined.

(* ================================================================= *)
(** ** Further properties: removing *)

Section RemoveFacts.

Variable E : env.

Lemma find_by_id_some tracking_id d k info :
  find_by_id tracking_id d = Some (k, info) ->
  In (k, info) d /\ ti_id info = tracking_id.
Proof.
  induction d as [|[k' v'] d IH]; cbn [find_by_id]; [discriminate |].
  destruct (Z.eqb_spec (ti_id v') tracking_id).
  - intros [= <- <-]. split; [now left | assumption].
  - intros H. destruct (IH H). split; [now right | assumption].
Qed.

Lemma find_by_id_none tracking_id d :
  (forall k info, In (k, info) d -> ti_id info <> tracking_id) ->
  find_by_id tracking_id d = None.
Proof.
  induction d as [|[k' v'] d IH]; cbn [find_by_id]; [reflexivity |].
  intros H. destruct (Z.eqb_spec (ti_id v') tracking_id) as [Heq | _].
  - exfalso. apply (H k' v'); [now left | exact Heq].
  - apply IH. intros k info Hin. apply (H k info). now right.
Qed.

Lemma find_by_id_found tracking_id d :
  In tracking_id (map (fun kv => ti_id (snd kv)) d) ->
  exists k info, find_by_id tracking_id d = Some (k, info).
Proof.
  induction d as [|[k' v'] d IH]; cbn [find_by_id map snd]; [intros [] |].
  destruct (Z.eqb_spec (ti_id v') tracking_id).
  - intros _. now exists k', v'.
  - intros [H | H]; [contradiction | now apply IH].
Qed.

Lemma filter_all {A : Type} (p : A -> bool) (l : list A) :
  (forall x, In x l -> p x = true) -> filter p l = l.
Proof.
  induction l as [|x l IH]; cbn [filter]; [reflexivity |].
  intros H. rewrite (H x) by now left. rewrite IH; [reflexivity |].
  intros y Hy. apply H. now right.
Qed.

(** With distinct keys and distinct ids, deleting the key of the record
    found by its id leaves the records with another id. *)
Lemma del_found_filter tracking_id (d : Dict.t thread_info) k info :
  Dict.wf d -> NoDup (map (fun kv => ti_id (snd kv)) d) ->
  find_by_id tracking_id d = Some (k, info) ->
  Dict.del k d = filter (fun kv => negb (ti_id (snd kv) =? tracking_id)) d.
Proof.
  unfold Dict.wf, Dict.keys.
  induction d as [|[k' v'] d IH]; cbn [find_by_id]; [discriminate |].
  cbn [map fst snd Dict.del filter]. intros Hwf Hids.
  inversion Hwf as [|? ? Hk Hwf']; inversion Hids as [|? ? Hi Hids']; subst.
  destruct (Z.eqb_spec (ti_id v') tracking_id) as [Heq | Hne]; cbn [negb].
  - intros [= <- <-]. rewrite String.eqb_refl, filter_all; [reflexivity |].
    intros [k2 v2] Hin. cbn [snd].
    destruct (Z.eqb_spec (ti_id v2) tracking_id) as [Heq2 |]; [| reflexivity].
    exfalso. apply Hi. rewrite Heq, <- Heq2.
    now apply (in_map (fun kv => ti_id (snd kv)) _ (k2, v2)).
  - intros H. destruct (find_by_id_some _ _ _ _ H) as [Hin _].
    destruct (String.eqb_spec k k') as [-> |].
    + exfalso. apply Hk. now apply (in_map fst _ (k', info)).
    + now rewrite (IH Hwf' Hids' H).
Qed.

Lemma remove_thread_run_force tracking_id w k info :
  find_by_id tracking_id (threads (loaded w)) = Some (k, info) ->
  let left := mkRegistry (Dict.del k (threads (loaded w))) (next_id (loaded w)) in
  remove_thread E tracking_id true w
  = (Done tt,
     mkWorld (Stored left)
       (log w ++ [EvLoad; EvSave left; EvPrint (MsgStoppedTracking tracking_id)])).
Proof.
  intros H. cbv zeta. unfold remove_thread.
  rewrite (bind_done _ _ _ _ _ (load_run w)), H. cbv beta iota zeta.
  unfold bind, save_tracking_data, print, emit; cbn [file log].
  now rewrite <- !app_assoc.
Qed.

Lemma remove_thread_run_ask tracking_id w k info :
  find_by_id tracking_id (threads (loaded w)) = Some (k, info) ->
  let left := mkRegistry (Dict.del k (threads (loaded w))) (next_id (loaded w)) in
  let asked := [EvLoad;
                EvPrint (MsgThread (ti_board info) (ti_thread_id info) (ti_title info));
                EvInput] in
  remove_thread E tracking_id false w
  = if String.eqb (Str.strip (Str.lower (input E (calls is_input w)))) "y"
    then (Done tt,
          mkWorld (Stored left)
            (log w ++ asked
               ++ [EvSave left; EvPrint (MsgStoppedTracking tracking_id)]))
    else (Done tt, mkWorld (file w) (log w ++ asked ++ [EvPrint MsgCancelled])).
Proof.
  intros H. cbv zeta. unfold remove_thread.
  rewrite (bind_done _ _ _ _ _ (load_run w)), H. cbv beta iota zeta.
  unfold bind at 1, print at 1. unfold bind at 1, read_line at 1.
  rewrite !calls_emit_other by reflexivity.
  destruct (String.eqb _ "y");
    unfold bind, save_tracking_data, print, emit; cbn [file log app];
    now rewrite <- !app_assoc.
Qed.

Lemma lower_append a b : Str.lower (a ++ b) = (Str.lower a ++ Str.lower b)%string.
Proof. induction a as [|c a IH]; cbn; [reflexivity | now rewrite IH]. Qed.

Lemma lower_char_space c : Str.is_space c = true -> Str.lower_char c = c.
Proof.
  destruct c as [[] [] [] [] [] [] [] []]; intros H; try reflexivity;
    discriminate H.
Qed.

Lemma lower_spaces a : spaces a -> Str.lower a = a.
Proof.
  unfold spaces. induction a as [|c a IH]; cbn [Str.all Str.lower]; [reflexivity |].
  intros H. apply andb_prop in H as [Hc Ha]. now rewrite lower_char_space, IH.
Qed.

Lemma lstrip_spaces a s : spaces a -> Str.lstrip (a ++ s) = Str.lstrip s.
Proof.
  unfold spaces. induction a as [|c a IH]; cbn [Str.all]; [reflexivity |].
  intros H. apply andb_prop in H as [Hc Ha].
  change (String c a ++ s)%string with (String c (a ++ s)).
  cbn [Str.lstrip]. rewrite Hc. now apply IH.
Qed.

Lemma rstrip_spaces b : spaces b -> Str.rstrip b = ""%string.
Proof.
  unfold spaces. induction b as [|c b IH]; cbn [Str.all Str.rstrip]; [reflexivity |].
  intros H. apply andb_prop in H as [Hc Hb]. now rewrite IH, Hc.
Qed.

(** An answer of [y] or [Y] between whitespace is a yes. *)
Lemma yes_accepted a c b :
  spaces a -> spaces b -> c = "y"%char \/ c = "Y"%char ->
  Str.strip (Str.lower (a ++ String c b)) = "y"%string.
Proof.
  intros Ha Hb Hc. unfold Str.strip.
  rewrite lower_append, (lower_spaces a Ha), (lstrip_spaces _ _ Ha).
  cbn [Str.lower]. rewrite (lower_spaces b Hb).
  assert (Hy : Str.lower_char c = "y"%char) by (destruct Hc; subst; reflexivity).
  rewrite Hy. cbn [Str.lstrip]. change (Str.is_space "y") with false. cbv iota.
  cbn [Str.rstrip]. rewrite (rstrip_spaces b Hb). reflexivity.
Qed.

End RemoveFacts.

(** X15. Removing by an id that no record carries changes nothing,
    with or without [force]: the call prints that no thread has the id
    and returns; nothing is saved and the user is not asked. *)
Theorem remove_thread_unknown_id (E : env) (tracking_id : Z) (force : bool) (w : world) :
  (forall k info, In (k, info) (threads (loaded w)) -> ti_id info <> tracking_id) ->
  remove_thread E tracking_id force w
  = (Done tt,
     mkWorld (file w) (log w ++ [EvLoad; EvPrint (MsgNoThreadFound tracking_id)])).
Proof.
  intros H. unfold remove_thread.
  rewrite (bind_done _ _ _ _ _ (load_run w)), (find_by_id_none _ _ H).
  unfold print, emit; cbn [file log]. now rewrite <- app_assoc.
Qed.

Lemma remove_thread_unknown_id_witness :
  remove_thread (Sample.env_of Sample.gone 2000) 7 false
    (Sample.world_of (Sample.tracking 11 1000 60))
  = (Done tt,
     mkWorld (Stored (Sample.tracking 11 1000 60))
       [EvLoad; EvPrint (MsgNoThreadFound 7)]).
Proof.
  apply (remove_thread_unknown_id (Sample.env_of Sample.gone 2000) 7 false
           (Sample.world_of (Sample.tracking 11 1000 60))).
  intros k info [[= <- <-] | []]. discriminate.
Defined.

(** X16. In a registry with distinct ids, a forced removal by an id
    that a record carries deletes that record and no other: what is
    saved is the registry without the records of that id, the others
    unchanged and in their order, and [next_id] as it was. *)
Theorem remove_thread_removes_exactly (E : env) (tracking_id : Z) (w : world) :
  Dict.wf (threads (loaded w)) ->
  NoDup (ids (loaded w)) ->
  In tracking_id (ids (loaded w)) ->
  let left := mkRegistry
                (filter (fun kv => negb (ti_id (snd kv) =? tracking_id))
                   (threads (loaded w)))
                (next_id (loaded w)) in
  remove_thread E tracking_id true w
  = (Done tt,
     mkWorld (Stored left)
       (log w ++ [EvLoad; EvSave left; EvPrint (MsgStoppedTracking tracking_id)])).
Proof.
  intros Hwf Hids Hin. cbv zeta.
  destruct (find_by_id_found _ _ Hin) as (k & info & Hfind).
  rewrite (remove_thread_run_force E _ _ _ _ Hfind). cbv zeta.
  now rewrite (del_found_filter _ _ _ _ Hwf Hids Hfind).
Qed.

Lemma remove_thread_removes_exactly_witness :
  remove_thread (Sample.env_of Sample.gone 2000) 1 true
    (Sample.world_of (Sample.tracking 11 1000 60))
  = (Done tt,
     mkWorld (Stored (mkRegistry [] 2))
       [EvLoad; EvSave (mkRegistry [] 2); EvPrint (MsgStoppedTracking 1)]).
Proof.
  apply (remove_thread_removes_exactly (Sample.env_of Sample.gone 2000) 1
           (Sample.world_of (Sample.tracking 11 1000 60))).
  - unfold Dict.wf. vm_compute. repeat constructor. simpl. tauto.
  - vm_compute. repeat constructor. simpl. tauto.
  - vm_compute. tauto.
Defined.

(** X17. Without [force], a removal by an id that a record carries
    reads one line. Unless the line, in lower case and without the
    whitespace around it, is [y], the call prints that it is cancelled
    and changes nothing. A [y] or [Y] between whitespace is accepted:
    the file is then as after the forced removal. *)
Theorem remove_thread_asks_first (E : env) (tracking_id : Z) (w : world) :
  In tracking_id (ids (loaded w)) ->
  let answer := input E (calls is_input w) in
  (Str.strip (Str.lower answer) <> "y"%string ->
   exists seg,
     remove_thread E tracking_id false w
     = (Done tt, mkWorld (file w) (log w ++ seg))
     /\ filter is_save seg = []
     /\ filter is_input seg = [EvInput]
     /\ In (EvPrint MsgCancelled) seg)
  /\ (forall a c b,
        spaces a -> spaces b -> c = "y"%char \/ c = "Y"%char ->
        answer = (a ++ String c b)%string ->
        fst (remove_thread E tracking_id false w) = Done tt
        /\ file (snd (remove_thread E tracking_id false w))
           = file (snd (remove_thread E tracking_id true w))).
Proof.
  intros Hin. cbv zeta.
  destruct (find_by_id_found _ _ Hin) as (k & info & Hfind).
  rewrite (remove_thread_run_ask E _ _ _ _ Hfind),
    (remove_thread_run_force E _ _ _ _ Hfind). cbv zeta.
  split.
  - intros Hno.
    destruct (String.eqb_spec (Str.strip (Str.lower (input E (calls is_input w)))) "y");
      [contradiction |].
    eexists. split; [reflexivity |].
    cbn [app filter is_save is_input]. repeat split. simpl. tauto.
  - intros a c b Ha Hb Hc ->. rewrite (yes_accepted a c b Ha Hb Hc).
    now split.
Qed.

Lemma remove_thread_asks_first_witness :
  fst (remove_thread
         (mkEnv Sample.gone (fun _ => 2000) (fun _ => " Y ") (fun _ => NotifySent)
            (fun _ => false) 9223372036 Sample.calendar)
         1 false (Sample.world_of (Sample.tracking 11 1000 60)))
  = Done tt
  /\ file (snd (remove_thread
                  (mkEnv Sample.gone (fun _ => 2000) (fun _ => " Y ")
                     (fun _ => NotifySent) (fun _ => false) 9223372036 Sample.calendar)
                  1 false (Sample.world_of (Sample.tracking 11 1000 60))))
     = file (snd (remove_thread
                    (mkEnv Sample.gone (fun _ => 2000) (fun _ => " Y ")
                       (fun _ => NotifySent) (fun _ => false) 9223372036 Sample.calendar)
                    1 true (Sample.world_of (Sample.tracking 11 1000 60)))).
Proof.
  apply (proj2 (remove_thread_asks_first
                  (mkEnv Sample.gone (fun _ => 2000) (fun _ => " Y ")
                     (fun _ => NotifySent) (fun _ => false) 9223372036 Sample.calendar)
                  1 (Sample.world_of (Sample.tracking 11 1000 60))
                  ltac:(vm_compute; tauto))
           " "%string "Y"%char " "%string);
    try reflexivity. now right.
Defined.

(* ================================================================= *)
(** ** Further properties: the poll loop *)

Section LoopFacts.

Variable E : env.

Lemma get_set_other {V : Type} k k' (v : V) d :
  k' <> k -> Dict.get k' (Dict.set k v d) = Dict.get k' d.
Proof.
  intros Hne. induction d as [|[k2 v2] d IH]; simpl.
  - destruct (String.eqb_spec k' k); [contradiction | reflexivity].
  - destruct (String.eqb_spec k k2) as [-> |]; simpl.
    + destruct (String.eqb_spec k' k2); [contradiction | reflexivity].
    + destruct (String.eqb k' k2); [reflexivity | exact IH].
Qed.

Lemma get_del_other {V : Type} k k' (d : Dict.t V) :
  k' <> k -> Dict.get k' (Dict.del k d) = Dict.get k' d.
Proof.
  intros Hne. induction d as [|[k2 v2] d IH]; simpl; [reflexivity |].
  destruct (String.eqb_spec k k2) as [-> |]; simpl.
  - destruct (String.eqb_spec k' k2); [contradiction | reflexivity].
  - destruct (String.eqb k' k2); [reflexivity | exact IH].
Qed.

Lemma keys_set_present {V : Type} k (v : V) d :
  Dict.get k d <> None -> Dict.keys (Dict.set k v d) = Dict.keys d.
Proof.
  induction d as [|[k' v'] d IH]; simpl; [congruence |].
  destruct (String.eqb_spec k k') as [-> |]; simpl; [reflexivity |].
  intros H. now rewrite IH.
Qed.

Lemma last_post_no_truthy td n : last_post_no_of td = Ok n -> td_truthy td = true.
Proof.
  unfold last_post_no_of, posts_of, td_truthy.
  now destruct (td_posts td).
Qed.

Lemma fetch_gone board thread_id w :
  gone_reply (urlopen E (calls is_fetch w)) ->
  exists reply,
    fetch_thread_data E board thread_id w = (Done reply, emit (EvFetch board thread_id) w)
    /\ fetched reply = None.
Proof.
  unfold fetch_thread_data. intros [-> | (td & -> & Htd)].
  - now exists None.
  - exists (Some (JObject td)). cbn [fetched json_truthy]. now rewrite Htd.
Qed.

Lemma fetch_interrupt board thread_id w :
  urlopen E (calls is_fetch w) = ReplyInterrupt ->
  fetch_thread_data E board thread_id w
  = (Raised KeyboardInterrupt, emit (EvFetch board thread_id) w).
Proof. intros H. unfold fetch_thread_data. now rewrite H. Qed.

(** A cycle whose snapshot ends at or below the cursor goes straight to
    the suspension. *)
Lemma monitor_loop_idle fuel board thread_id check_interval data info w td n :
  urlopen E (calls is_fetch w) = ReplyJSON td ->
  last_post_no_of td = Ok n ->
  n <= ti_last_post_no info ->
  monitor_loop E (S fuel) board thread_id check_interval data info w
  = bind (sleep E check_interval)
      (fun _ => monitor_loop E fuel board thread_id check_interval data info)
      (emit (EvFetch board thread_id) w).
Proof.
  intros Hreply Hlast Hle. cbn [monitor_loop]. cbv zeta.
  rewrite (bind_done _ _ _ _ _ (fetch_json E board thread_id w td Hreply)).
  unfold fetched, json_truthy. rewrite (last_post_no_truthy td n Hlast).
  cbn [object_of lift]. rewrite bind_ret_l, Hlast. cbn [lift].
  rewrite bind_ret_l.
  destruct (Z.ltb_spec (ti_last_post_no info) n); [lia | reflexivity].
Qed.

Lemma saves_only_other P e : is_save e = false -> saves_only P e.
Proof. intros H d ->. discriminate H. Qed.

Lemma saves_only_save (P : registry -> Prop) d : P d -> saves_only P (EvSave d).
Proof. now intros H d' [= <-]. Qed.

Lemma same_thread_refl info : same_thread info info.
Proof. unfold same_thread. repeat split; lia. Qed.

(** Every registry the loop saves is the one it started from, but for
    the record of the thread. *)
Lemma monitor_loop_saves data0 info0 fuel board thread_id check_interval data info :
  Dict.wf (threads data) ->
  Dict.get (thread_key board thread_id) (threads data) = Some info ->
  monitored_from data0 (thread_key board thread_id) info0 data ->
  emits_only (saves_only (monitored_from data0 (thread_key board thread_id) info0))
    (monitor_loop E fuel board thread_id check_interval data info).
Proof.
  revert data info. induction fuel as [|fuel IH]; intros data info Hwf Hget Hfrom.
  - intros w. exists []. cbn. now rewrite app_nil_r.
  - destruct Hfrom as (Hnext & Hothers & Hsame).
    cbn [monitor_loop]. cbv zeta.
    apply emits_only_bind.
    { apply emits_only_fetch; intros; now apply saves_only_other. }
    intros reply. destruct (fetched reply) as [value|].
    + apply emits_only_bind; [apply emits_only_lift |]. intros td.
      apply emits_only_bind; [apply emits_only_lift |]. intros latest.
      destruct (Z.ltb_spec (ti_last_post_no info) latest) as [Hlt | _].
      * apply emits_only_bind; [apply emits_only_lift |]. intros posts.
        apply emits_only_bind.
        { apply emits_only_for_each. intros p. unfold notify_if_new.
          apply emits_only_bind; [apply emits_only_lift |]. intros no.
          destruct (_ <? _); [| apply emits_only_ret].
          apply emits_only_notification; intros; now apply saves_only_other. }
        intros _. apply emits_only_bind.
        { apply emits_only_now. now apply saves_only_other. }
        intros t.
        match goal with
        | |- context [save_tracking_data ?d] => set (data' := d)
        end.
        assert (Hfrom' : monitored_from data0 (thread_key board thread_id) info0 data').
        { subst data'. split; [exact Hnext | split]; cbn [threads].
          - intros k Hk. rewrite get_set_other by exact Hk. now apply Hothers.
          - intros info'. rewrite get_set_same. intros [= <-].
            destruct (Hsame info Hget) as (? & ? & ? & ? & ? & ? & ?).
            unfold same_thread; cbn. repeat split; auto; lia. }
        apply emits_only_bind.
        { apply emits_only_save. now apply saves_only_save. }
        intros _. apply emits_only_bind.
        { apply emits_only_print. now apply saves_only_other. }
        intros _. apply emits_only_bind.
        { apply emits_only_sleep. now apply saves_only_other. }
        intros _. apply IH; [| apply get_set_same | exact Hfrom'].
        subst data'. unfold Dict.wf in *. cbn [threads].
        rewrite keys_set_present; [exact Hwf | congruence].
      * apply emits_only_bind.
        { apply emits_only_sleep. now apply saves_only_other. }
        intros _. apply IH; auto. now split.
    + apply emits_only_bind.
      { apply emits_only_print. now apply saves_only_other. }
      intros _. apply emits_only_save, saves_only_save.
      split; [exact Hnext | split]; cbn [threads].
      * intros k Hk. rewrite get_del_other by exact Hk. now apply Hothers.
      * intros info'. now rewrite get_del_same by exact Hwf.
Qed.

End LoopFacts.

(** X18. A poll cycle whose snapshot ends at or below the cursor of the
    record changes nothing: no notification, no clock reading, no save;
    after the request the loop suspends, and the next cycle starts from
    the same registry and the same record. *)
Theorem poll_cycle_without_new_posts (E : env) (fuel : nat) (board thread_id : string)
    (check_interval : Z) (data : registry) (info : thread_info) (w : world)
    (td : thread_data) (n : Z) :
  Dict.get (thread_key board thread_id) (threads data) = Some info ->
  urlopen E (calls is_fetch w) = ReplyJSON td ->
  last_post_no_of td = Ok n ->
  n <= ti_last_post_no info ->
  monitor_loop E (S fuel) board thread_id check_interval data info w
  = bind (sleep E check_interval)
      (fun _ => monitor_loop E fuel board thread_id check_interval data info)
      (mkWorld (file w) (log w ++ [EvFetch board thread_id])).
Proof. intros _. apply monitor_loop_idle. Qed.

Lemma poll_cycle_without_new_posts_witness :
  monitor_loop (Sample.env_of Sample.idle_then_gone 2000) 1 "g" "55" 60
    (Sample.tracking 11 1000 60) (Sample.record 11 1000 60)
    (Sample.world_of (Sample.tracking 11 1000 60))
  = (Running,
     mkWorld (Stored (Sample.tracking 11 1000 60)) [EvFetch "g" "55"; EvSleep 60]).
Proof.
  exact (poll_cycle_without_new_posts (Sample.env_of Sample.idle_then_gone 2000)
           0 "g" "55" 60 (Sample.tracking 11 1000 60) (Sample.record 11 1000 60)
           (Sample.world_of (Sample.tracking 11 1000 60))
           (Sample.snapshot [10; 11]) 11 eq_refl eq_refl eq_refl
           ltac:(simpl; lia)).
Defined.

(** X19. A poll cycle whose request says the thread is gone (HTTP 404
    or an empty JSON object) ends the loop, however many cycles were
    left: it prints that the thread no longer exists and saves the
    registry without the record of the thread; the other records and
    [next_id] are as they were. *)
Theorem poll_cycle_thread_gone (E : env) (fuel : nat) (board thread_id : string)
    (check_interval : Z) (data : registry) (info : thread_info) (w : world) :
  Dict.wf (threads data) ->
  Dict.get (thread_key board thread_id) (threads data) = Some info ->
  gone_reply (urlopen E (calls is_fetch w)) ->
  let left := mkRegistry (Dict.del (thread_key board thread_id) (threads data))
                (next_id data) in
  monitor_loop E (S fuel) board thread_id check_interval data info w
  = (Done tt,
     mkWorld (Stored left)
       (log w ++ [EvFetch board thread_id;
                  EvPrint (MsgNoLongerExists board thread_id); EvSave left]))
  /\ Dict.get (thread_key board thread_id) (threads left) = None
  /\ (forall k, k <> thread_key board thread_id ->
                Dict.get k (threads left) = Dict.get k (threads data)).
Proof.
  intros Hwf Hget Hgone. cbv zeta.
  split; [| split; [now apply get_del_same | intros k Hk; now apply get_del_other]].
  cbn [monitor_loop]. cbv zeta.
  destruct (fetch_gone E board thread_id w Hgone) as (reply & Hrun & Hnone).
  rewrite (bind_done _ _ _ _ _ Hrun), Hnone.
  unfold bind, print, save_tracking_data, emit; cbn [file log].
  now rewrite <- !app_assoc.
Qed.

Lemma poll_cycle_thread_gone_witness :
  monitor_loop (Sample.env_of Sample.gone 2000) 5 "g" "55" 60
    (Sample.tracking 11 1000 60) (Sample.record 11 1000 60)
    (Sample.world_of (Sample.tracking 11 1000 60))
  = (Done tt,
     mkWorld (Stored (mkRegistry [] 2))
       [EvFetch "g" "55"; EvPrint (MsgNoLongerExists "g" "55");
        EvSave (mkRegistry [] 2)]).
Proof.
  exact (proj1 (poll_cycle_thread_gone (Sample.env_of Sample.gone 2000)
                  4 "g" "55" 60 (Sample.tracking 11 1000 60)
                  (Sample.record 11 1000 60)
                  (Sample.world_of (Sample.tracking 11 1000 60))
                  ltac:(unfold Dict.wf; vm_compute; repeat constructor; simpl; tauto)
                  eq_refl (or_introl eq_refl))).
Defined.

(** X20. Monitoring never ends with [KeyboardInterrupt]: a Ctrl+C in
    the loop is caught, the stop is printed and [monitor_thread]
    returns. When the first request is interrupted, the file is as it
    was: the record is not deleted and nothing is saved. *)
Theorem monitor_thread_catches_interrupt (E : env) (fuel : nat)
    (board thread_id : string) (check_interval : Z) (w : world) :
  fst (monitor_thread E fuel board thread_id check_interval w)
  <> Raised KeyboardInterrupt
  /\ (forall info,
        Dict.get (thread_key board thread_id) (threads (loaded w)) = Some info ->
        urlopen E (calls is_fetch w) = ReplyInterrupt ->
        monitor_thread E (S fuel) board thread_id check_interval w
        = (Done tt,
           mkWorld (file w)
             (log w ++ [EvLoad;
                        EvPrint (MsgMonitoring board thread_id (ti_title info)
                                   check_interval);
                        EvFetch board thread_id;
                        EvPrint (MsgStoppedMonitoring board thread_id)]))).
Proof.
  unfold monitor_thread. rewrite (bind_done _ _ _ _ _ (load_run w)). split.
  - destruct (Dict.get _ _) as [info|]; [| discriminate].
    unfold bind at 1, print at 1, try_except.
    destruct (monitor_loop _ _ _ _ _ _ _ _) as [[[] | e |] w1]; cbn [fst];
      try discriminate.
    destruct e; cbn [is_KeyboardInterrupt fst]; discriminate.
  - intros info Hget Hreply.
    rewrite (bind_done _ _ _ _ _ (load_run w)), Hget.
    unfold bind at 1, print at 1, try_except. cbn [monitor_loop]. cbv zeta.
    assert (Hreply' : urlopen E (calls is_fetch
                        (emit (EvPrint (MsgMonitoring board thread_id (ti_title info)
                                          check_interval)) (emit EvLoad w)))
                      = ReplyInterrupt)
      by (rewrite !calls_emit_other by reflexivity; exact Hreply).
    rewrite (bind_raised _ _ _ _ _ (fetch_interrupt E board thread_id _ Hreply')).
    cbn [is_KeyboardInterrupt]. unfold print, emit; cbn [file log].
    now rewrite <- !app_assoc.
Qed.

Lemma monitor_thread_catches_interrupt_witness :
  monitor_thread (Sample.env_of (fun _ => ReplyInterrupt) 2000) 1 "g" "55" 60
    (Sample.world_of (Sample.tracking 11 1000 60))
  = (Done tt,
     mkWorld (Stored (Sample.tracking 11 1000 60))
       [EvLoad; EvPrint (MsgMonitoring "g" "55" "hi" 60); EvFetch "g" "55";
        EvPrint (MsgStoppedMonitoring "g" "55")]).
Proof.
  exact (proj2 (monitor_thread_catches_interrupt
                  (Sample.env_of (fun _ => ReplyInterrupt) 2000) 0 "g" "55" 60
                  (Sample.world_of (Sample.tracking 11 1000 60)))
           (Sample.record 11 1000 60) eq_refl eq_refl).
Defined.

(** X21. Whatever happens while a thread is monitored, every registry
    the loop saves has the [next_id] and the other records of the
    registry loaded at the start; the record of the thread, while it is
    there, keeps its id, board, thread id, title, interval and time of
    addition, and its cursor never goes down. *)
Theorem monitor_thread_saves_only_its_record (E : env) (fuel : nat)
    (board thread_id : string) (check_interval : Z) (w : world) (info0 : thread_info) :
  Dict.wf (threads (loaded w)) ->
  Dict.get (thread_key board thread_id) (threads (loaded w)) = Some info0 ->
  exists seg,
    log (snd (monitor_thread E fuel board thread_id check_interval w)) = log w ++ seg
    /\ forall d, In (EvSave d) seg ->
                 monitored_from (loaded w) (thread_key board thread_id) info0 d.
Proof.
  intros Hwf Hget.
  assert (Hfrom : monitored_from (loaded w) (thread_key board thread_id) info0 (loaded w)).
  { split; [reflexivity | split; [reflexivity |]].
    intros info. rewrite Hget. intros [= <-]. apply same_thread_refl. }
  unfold monitor_thread. rewrite (bind_done _ _ _ _ _ (load_run w)), Hget.
  match goal with
  | |- context [snd (?m (emit EvLoad w))] =>
      assert (Hm : emits_only
                     (saves_only
                        (monitored_from (loaded w) (thread_key board thread_id) info0))
                     m)
  end.
  { apply emits_only_bind.
    { apply emits_only_print. now apply saves_only_other. }
    intros _. apply emits_only_try.
    - now apply monitor_loop_saves.
    - intros e. apply emits_only_print. now apply saves_only_other. }
  destruct (Hm (emit EvLoad w)) as (seg & Hlog & Hseg).
  exists (EvLoad :: seg). split.
  - rewrite Hlog. unfold emit; cbn [log]. now rewrite <- app_assoc.
  - intros d [Hd | Hin]; [discriminate Hd |].
    rewrite Forall_forall in Hseg. now apply (Hseg _ Hin).
Qed.

Lemma monitor_thread_saves_only_its_record_witness :
  exists seg,
    log (snd (monitor_thread (Sample.env_of Sample.two_new 2000) 2 "g" "55" 60
                (Sample.world_of (Sample.tracking 11 1000 60))))
    = [] ++ seg
    /\ forall d, In (EvSave d) seg ->
                 monitored_from (Sample.tracking 11 1000 60) "g_55"
                   (Sample.record 11 1000 60) d.
Proof.
  exact (monitor_thread_saves_only_its_record (Sample.env_of Sample.two_new 2000) 2
           "g" "55" 60 (Sample.world_of (Sample.tracking 11 1000 60))
           (Sample.record 11 1000 60)
           ltac:(unfold Dict.wf; vm_compute; repeat constructor; simpl; tauto)
           eq_refl).
Defined.

(** X22. An interval that [time.sleep] refuses ends the monitoring in
    its first cycle (here one without new posts), with an exception
    that the handler for Ctrl+C does not catch: [ValueError] for a
    negative interval within the range of the time type of the
    platform, [OverflowError] for an interval beyond that range in
    either direction. No suspension has happened and the file is as it
    was. *)
Theorem monitor_thread_negative_interval (E : env) (fuel : nat)
    (board thread_id : string) (check_interval : Z) (w : world)
    (info : thread_info) (td : thread_data) (n : Z) :
  Dict.get (thread_key board thread_id) (threads (loaded w)) = Some info ->
  urlopen E (calls is_fetch w) = ReplyJSON td ->
  last_post_no_of td = Ok n ->
  n <= ti_last_post_no info ->
  let stopped :=
    mkWorld (file w)
      (log w ++ [EvLoad;
                 EvPrint (MsgMonitoring board thread_id (ti_title info) check_interval);
                 EvFetch board thread_id]) in
  (- sleep_max E <= check_interval < 0 ->
   monitor_thread E (S fuel) board thread_id check_interval w
   = (Raised (ValueError "sleep length must be non-negative"), stopped))
  /\ (check_interval < - sleep_max E \/ sleep_max E < check_interval ->
      monitor_thread E (S fuel) board thread_id check_interval w
      = (Raised OverflowError, stopped)).
Proof.
  intros Hget Hreply Hlast Hle. cbv zeta.
  assert (Hrun : monitor_thread E (S fuel) board thread_id check_interval w
                 = try_except
                     (bind (sleep E check_interval)
                        (fun _ => monitor_loop E fuel board thread_id check_interval
                                    (loaded w) info))
                     is_KeyboardInterrupt
                     (fun _ => print (MsgStoppedMonitoring board thread_id))
                     (emit (EvFetch board thread_id)
                        (emit (EvPrint (MsgMonitoring board thread_id (ti_title info)
                                          check_interval))
                           (emit EvLoad w)))).
  { unfold monitor_thread.
    rewrite (bind_done _ _ _ _ _ (load_run w)), Hget.
    unfold bind at 1, print at 1, try_except.
    rewrite (monitor_loop_idle E fuel board thread_id check_interval (loaded w) info
               _ td n)
      by (rewrite ?calls_emit_other by reflexivity; assumption).
    reflexivity. }
  rewrite Hrun. unfold try_except, bind, sleep. split; intros Hc.
  - destruct (Z.ltb_spec check_interval (- sleep_max E)); [lia |].
    destruct (Z.ltb_spec (sleep_max E) check_interval); [lia |].
    destruct (Z.ltb_spec check_interval 0); [| lia].
    cbn [orb is_KeyboardInterrupt]. unfold emit; cbn [file log].
    now rewrite <- !app_assoc.
  - assert (Hout : (check_interval <? - sleep_max E)
                   || (sleep_max E <? check_interval) = true).
    { apply orb_true_iff. rewrite !Z.ltb_lt. exact Hc. }
    rewrite Hout. cbn [is_KeyboardInterrupt]. unfold emit; cbn [file log].
    now rewrite <- !app_assoc.
Qed.

Lemma monitor_thread_negative_interval_witness :
  monitor_thread (Sample.env_of Sample.idle_then_gone 2000) 3 "g" "55" (-5)
    (Sample.world_of (Sample.tracking 11 1000 60))
  = (Raised (ValueError "sleep length must be non-negative"),
     mkWorld (Stored (Sample.tracking 11 1000 60))
       [EvLoad; EvPrint (MsgMonitoring "g" "55" "hi" (-5)); EvFetch "g" "55"]).
Proof.
  apply (proj1 (monitor_thread_negative_interval
                  (Sample.env_of Sample.idle_then_gone 2000)
                  2 "g" "55" (-5) (Sample.world_of (Sample.tracking 11 1000 60))
                  (Sample.record 11 1000 60) (Sample.snapshot [10; 11]) 11
                  eq_refl eq_refl eq_refl ltac:(simpl; lia))).
  simpl. lia.
Defined.

(* ================================================================= *)
(** ** Further properties: the command line *)

Section UrlFacts.

Variable E : env.

(** With a canonical URL, the URL branch is the manual branch for the
    board and the thread id of the URL, inside the handler for
    [ValueError]. *)
Lemma primary_action_url fuel a url board thread_id w :
  arg_list a = false -> nonzero (arg_delete a) = None ->
  arg_url a = Some url -> canonical url board thread_id ->
  primary_action E fuel a w
  = try_except
      (primary_action E fuel
         (mkArgs None (Some (board, thread_id)) false None
            (arg_interval a) (arg_force a)))
      is_ValueError
      (fun e => bind (print (MsgError e)) (fun _ => raise (SystemExit 1))) w.
Proof.
  intros Hl Hd Hu Hc.
  assert (Hne : url <> ""%string) by (destruct Hc as (-> & _); discriminate).
  unfold primary_action.
  rewrite Hl, Hd, Hu, (present_and_true_some _ Hne).
  cbn [arg_list arg_delete arg_url arg_manual arg_interval nonzero
         present_and_true].
  unfold try_except. rewrite (parse_thread_url_canonical _ _ _ Hc).
  cbn [lift]. now rewrite bind_ret_l.
Qed.

End UrlFacts.

(** X24. Tracking by a canonical URL is tracking by hand with the
    board and the thread id of the URL, but for what becomes of a
    [ValueError]: when adding and monitoring by hand end with one (the
    [ValueError] of [time.sleep] for a negative interval, say), the URL
    invocation prints it as an error and exits with status 1; in every
    other case the two invocations run alike, from the first lookup to
    the sweep. *)
Theorem url_invocation_is_manual_invocation (E : env) (fuel : nat) (a : args)
    (url board thread_id : string) (w : world) :
  arg_list a = false ->
  nonzero (arg_delete a) = None ->
  arg_url a = Some url ->
  canonical url board thread_id ->
  let manual := mkArgs None (Some (board, thread_id)) false None
                  (arg_interval a) (arg_force a) in
  (forall msg w1,
      primary_action E fuel manual w = (Raised (ValueError msg), w1) ->
      main E fuel a w
      = (Raised (SystemExit 1), emit (EvPrint (MsgError (ValueError msg))) w1))
  /\ ((forall msg, fst (primary_action E fuel manual w) <> Raised (ValueError msg)) ->
      main E fuel a w = main E fuel manual w).
Proof.
  intros Hl Hd Hu Hc. cbv zeta.
  pose proof (primary_action_url E fuel a url board thread_id w Hl Hd Hu Hc) as Hp.
  unfold try_except in Hp.
  set (manual := mkArgs None (Some (board, thread_id)) false None
                   (arg_interval a) (arg_force a)) in *.
  split.
  - intros msg w1 Hrun. rewrite Hrun in Hp. cbn [is_ValueError] in Hp.
    unfold main. now apply bind_raised.
  - intros Hno. unfold main, bind. rewrite Hp.
    destruct (primary_action E fuel manual w) as [[[] | e |] w1];
      try reflexivity.
    destruct e; try reflexivity. now destruct (Hno msg).
Qed.

Lemma url_invocation_is_manual_invocation_witness :
  main (Sample.env_of Sample.idle 2000) 3
    (Sample.url_args "https://boards.4chan.org/g/thread/55" (-5))
    (Sample.world_of (Sample.tracking 11 1000 60))
  = (Raised (SystemExit 1),
     mkWorld (Stored (Sample.tracking 11 1000 60))
       [EvLoad; EvPrint (MsgAlreadyTracked "g" "55");
        EvLoad; EvPrint (MsgMonitoring "g" "55" "hi" (-5)); EvFetch "g" "55";
        EvPrint (MsgError (ValueError "sleep length must be non-negative"))])
  /\ main (Sample.env_of Sample.idle_then_gone 2000) 3
       (Sample.url_args "https://boards.4chan.org/g/thread/55" 300)
       (Sample.world_of (Sample.tracking 11 1000 60))
     = main (Sample.env_of Sample.idle_then_gone 2000) 3
         (Sample.manual_args "g" "55" 300)
         (Sample.world_of (Sample.tracking 11 1000 60)).
Proof.
  split.
  - apply (proj1 (url_invocation_is_manual_invocation
                    (Sample.env_of Sample.idle 2000) 3
                    (Sample.url_args "https://boards.4chan.org/g/thread/55" (-5))
                    "https://boards.4chan.org/g/thread/55" "g" "55"
                    (Sample.world_of (Sample.tracking 11 1000 60))
                    eq_refl eq_refl eq_refl
                    ltac:(repeat split; try reflexivity; discriminate))
             "sleep length must be non-negative"%string
             (mkWorld (Stored (Sample.tracking 11 1000 60))
                [EvLoad; EvPrint (MsgAlreadyTracked "g" "55");
                 EvLoad; EvPrint (MsgMonitoring "g" "55" "hi" (-5));
                 EvFetch "g" "55"])).
    reflexivity.
  - apply (proj2 (url_invocation_is_manual_invocation
                    (Sample.env_of Sample.idle_then_gone 2000) 3
                    (Sample.url_args "https://boards.4chan.org/g/thread/55" 300)
                    "https://boards.4chan.org/g/thread/55" "g" "55"
                    (Sample.world_of (Sample.tracking 11 1000 60))
                    eq_refl eq_refl eq_refl
                    ltac:(repeat split; try reflexivity; discriminate))).
    intros msg. discriminate.
Defined.

(** X25. A manual invocation for a thread that is not tracked and
    whose request gives nothing (HTTP 404, a failed request, an empty
    JSON object) neither adds nor monitors: after the one request it
    prints that the thread could not be fetched and that it is not
    tracked, and goes on with the sweep; nothing else touches the
    registry. *)
Theorem main_manual_unfetchable (E : env) (fuel : nat) (a : args)
    (board thread_id : string) (w : world) :
  arg_list a = false ->
  nonzero (arg_delete a) = None ->
  present_and_true (arg_url a) = None ->
  arg_manual a = Some (board, thread_id) ->
  Dict.get (thread_key board thread_id) (threads (loaded w)) = None ->
  unfetchable (urlopen E (calls is_fetch w)) ->
  main E fuel a w
  = cleanup_old_threads E
      (mkWorld (file w)
         (log w ++ [EvLoad; EvFetch board thread_id]
            ++ fetch_lines (urlopen E (calls is_fetch w))
            ++ [EvPrint (MsgCouldNotFetch board thread_id);
                EvLoad; EvPrint (MsgNotTracked board thread_id)])).
Proof.
  intros Hl Hd Hu Hm Hget Hr. unfold main, primary_action.
  rewrite Hl, Hd, Hu, Hm.
  unfold bind at 1. unfold bind at 1.
  rewrite (add_thread_run_unfetchable E board thread_id (arg_interval a) w Hget Hr).
  unfold monitor_thread.
  match goal with
  | |- context [bind load_tracking_data _ ?w1] =>
      rewrite (bind_done _ _ _ _ _ (load_run w1));
      change (loaded w1) with (loaded w)
  end.
  rewrite Hget. unfold print, emit; cbn [file log].
  rewrite <- !app_assoc. cbn [app]. reflexivity.
Qed.

Lemma main_manual_unfetchable_witness :
  main (Sample.env_of Sample.gone 2000) 3 (Sample.manual_args "g" "77" 120)
    (Sample.world_of (Sample.tracking 11 1000 60))
  = cleanup_old_threads (Sample.env_of Sample.gone 2000)
      (mkWorld (Stored (Sample.tracking 11 1000 60))
         [EvLoad; EvFetch "g" "77"; EvPrint (MsgCouldNotFetch "g" "77");
          EvLoad; EvPrint (MsgNotTracked "g" "77")]).
Proof.
  exact (main_manual_unfetchable (Sample.env_of Sample.gone 2000) 3
           (Sample.manual_args "g" "77" 120) "g" "77"
           (Sample.world_of (Sample.tracking 11 1000 60))
           eq_refl eq_refl eq_refl eq_refl eq_refl (or_introl eq_refl)).
Defined.
